(** * Tubely video backend: upload-and-publish pipeline

    A shallow embedding of the Go sources

      - [video_utils.go]: [getVideoAspectRatio], [categorizeAspectRatio],
        [processVideoForFastStart];
      - the video upload handler: [handlerUploadVideo];
      - the video metadata handlers: [handlerVideoMetaCreate],
        [handlerVideoMetaDelete], [handlerVideoGet],
        [handlerVideosRetrieve], [dbVideoToSignedVideo];
      - [handler_upload_thumbnail.go]: [handlerUploadThumbnail],
        [getFileExtension], and the [handlerUploadVideo] of its second
        listing, which uploads without rewriting (module [DirectUpload]);
      - the presigning helper: [generatePresignedURL];

    followed by the properties of the pipeline that are stated about them.

    Conventions.  Go strings are byte strings and are modelled by [string]
    (a list of 8-bit [ascii]).  Go's [float64] is the kernel's binary64
    [float], whose operations are specified by [SpecFloat]; [int] is a
    64-bit integer, modelled by [Z] and converted to [float64] with
    round-to-nearest-even.  Collaborators that live outside the sources
    (the HTTP library, the JWT package, the metadata store, the object
    store, the external [ffmpeg] and [ffprobe] processes, the clock and the
    random source) are oracles gathered in the record [Env]; every theorem
    quantifies over all of their behaviours.  Effects are threaded through
    an explicit [World] (files on disk, metadata store, trace of events);
    Go's [defer] is a stack of deferred calls run when the handler
    returns. *)

From Stdlib Require Import ZArith QArith Qabs Floats Uint63 String Ascii List Bool Lia.
From stdpp Require Import gmap strings.

Local Open Scope string_scope.
Local Open Scope list_scope.
Local Open Scope Z_scope.

(* ===================================================================== *)
(** * Go values: errors, byte strings, base64                             *)
(* ===================================================================== *)

(** Go [error] values.  [NewError] is an error made from a message
    ([fmt.Errorf] without [%w], or an error returned by a collaborator);
    [Wrap msg cause] is [fmt.Errorf(msg + "%w", cause)]. *)
Inductive error : Type :=
| NewError (msg : string)
| Wrap (msg : string) (cause : error).

Module strings.

(** [strings.Count(s, sep)] for a one-byte separator. *)
Fixpoint Count (s : string) (sep : ascii) : nat :=
  match s with
  | EmptyString => 0%nat
  | String c rest =>
      if Ascii.eqb c sep then S (Count rest sep) else Count rest sep
  end.

(** [strings.Split(s, sep)] for a one-byte separator, as the resolver
    calls it: the substrings between the separators, in order; an input
    without separator gives the one-element slice holding the input
    (also when the input is empty). *)
Fixpoint Split (s : string) (sep : ascii) : list string :=
  match s with
  | EmptyString => [EmptyString]
  | String c rest =>
      if Ascii.eqb c sep then EmptyString :: Split rest sep
      else match Split rest sep with
           | [] => [String c EmptyString]
           | p :: ps => String c p :: ps
           end
  end.

End strings.

Module base64.

(** The URL-safe alphabet of [encoding/base64] ([encodeURL]). *)
Definition encodeURL : string :=
  "ABCDEFGHIJKLMNOPQRSTUVWXYZabcdefghijklmnopqrstuvwxyz0123456789-_".

(** [enc.encode[v & 0x3F]]. *)
Definition encodeChar (v : N) : ascii :=
  match String.get (N.to_nat (N.land v 63)) encodeURL with
  | Some c => c
  | None => "000"%char
  end.

(** [RawURLEncoding.EncodeToString]: three source bytes give four
    characters; a remainder of one byte gives two characters and a
    remainder of two bytes gives three; there is no padding. *)
Fixpoint EncodeToString (src : list ascii) : string :=
  match src with
  | [] => EmptyString
  | [a] =>
      let val := N.shiftl (N_of_ascii a) 16 in
      String (encodeChar (N.shiftr val 18))
        (String (encodeChar (N.shiftr val 12)) EmptyString)
  | [a; b] =>
      let val := N.lor (N.shiftl (N_of_ascii a) 16)
                       (N.shiftl (N_of_ascii b) 8) in
      String (encodeChar (N.shiftr val 18))
        (String (encodeChar (N.shiftr val 12))
           (String (encodeChar (N.shiftr val 6)) EmptyString))
  | a :: b :: c :: rest =>
      let val := N.lor (N.lor (N.shiftl (N_of_ascii a) 16)
                              (N.shiftl (N_of_ascii b) 8))
                       (N_of_ascii c) in
      String (encodeChar (N.shiftr val 18))
        (String (encodeChar (N.shiftr val 12))
           (String (encodeChar (N.shiftr val 6))
              (String (encodeChar val) (EncodeToString rest))))
  end.

End base64.


(* ===================================================================== *)
(** * Data model                                                          *)
(* ===================================================================== *)

(** [uuid.UUID] is 16 bytes, read here as one number. *)
Definition UUID : Type := N.

(** [time.Time] as nanoseconds since the epoch; [time.Duration] is a number
    of nanoseconds. *)
Definition Time : Type := Z.
Definition Duration : Type := Z.

Module time.
Definition Second : Duration := 1000000000.
Definition Minute : Duration := 60 * Second.
End time.

(** Modelled from the spec: the record type [database.Video] is declared in
    the metadata-store package; the handlers use the owner, the update
    timestamp and the two nullable references (Go's [*string]). *)
Record Video : Type := {
  ID : UUID;
  CreatedAt : Time;
  UpdatedAt : Time;
  ThumbnailURL : option string;
  VideoURL : option string;
  Title : string;
  Description : string;
  UserID : UUID
}.

Definition set_UpdatedAt (t : Time) (v : Video) : Video :=
  {| ID := ID v; CreatedAt := CreatedAt v; UpdatedAt := t;
     ThumbnailURL := ThumbnailURL v; VideoURL := VideoURL v;
     Title := Title v; Description := Description v; UserID := UserID v |}.

Definition set_VideoURL (u : option string) (v : Video) : Video :=
  {| ID := ID v; CreatedAt := CreatedAt v; UpdatedAt := UpdatedAt v;
     ThumbnailURL := ThumbnailURL v; VideoURL := u;
     Title := Title v; Description := Description v; UserID := UserID v |}.

Definition set_ThumbnailURL (u : option string) (v : Video) : Video :=
  {| ID := ID v; CreatedAt := CreatedAt v; UpdatedAt := UpdatedAt v;
     ThumbnailURL := u; VideoURL := VideoURL v;
     Title := Title v; Description := Description v; UserID := UserID v |}.

(** [net/http] status codes used by the handlers. *)
Module http.
Definition StatusOK : Z := 200.
Definition StatusBadRequest : Z := 400.
Definition StatusUnauthorized : Z := 401.
Definition StatusForbidden : Z := 403.
Definition StatusNotFound : Z := 404.
Definition StatusInternalServerError : Z := 500.
End http.

(** What a handler writes to the response: [respondWithError(w, code, msg,
    err)] or [respondWithJSON(w, code, payload)]. *)
Inductive Response : Type :=
| respondWithError (code : Z) (msg : string) (err : option error)
| respondWithJSON (code : Z) (payload : Video).

Definition status (r : Response) : Z :=
  match r with
  | respondWithError code _ _ => code
  | respondWithJSON code _ => code
  end.

(** The request as the handlers read it. *)
Record Request : Type := {
  PathValue_videoID : string;
  Header : list (string * string);
  Body : string
}.

(** One part of a parsed multipart form: its declared content type and its
    bytes. *)
Record FormPart : Type := {
  ContentType : string;
  Content : string
}.

(** [apiConfig], the fields the handlers read. *)
Record apiConfig : Type := {
  jwtSecret : string;
  s3Bucket : string;
  s3Region : string;
  assetsRoot : string;
  port : string
}.

(** The element type of [FFProbeOutput.Streams]. *)
Record Stream : Type := {
  Width : Z;
  Height : Z
}.

(** A stream object of the inspector's JSON document: each of the two
    fields may be absent. *)
Record JSONStream : Type := {
  json_width : option Z;
  json_height : option Z
}.

(** [json.Unmarshal] into [FFProbeOutput]: an absent field leaves Go's zero
    value. *)
Definition decodeStream (j : JSONStream) : Stream :=
  {| Width := default 0 (json_width j); Height := default 0 (json_height j) |}.

(** How a run of the external remux process ends.  A failed run may or may
    not leave a (partial) file at the output path. *)
Inductive FfmpegExit : Type :=
| FfmpegOk
| FfmpegFailed (err : error) (outputLeft : bool).

(* ===================================================================== *)
(** * The world: files, metadata store, trace of effects                  *)
(* ===================================================================== *)

(** The effects that a handler has on its surroundings, recorded in the
    order in which they happen: calls of the file system, of the external
    processes, of the metadata store and of the object store, and
    pauses. *)
Inductive Event : Type :=
| EvParseMultipartForm
| EvCreateTemp (name : string)
| EvCreate (name : string)
| EvCopy (name : string)
| EvClose (name : string)
| EvCloseUpload
| EvRemove (name : string)
| EvFfmpeg (input output : string)
| EvOpen (name : string)
| EvFfprobe (name : string)
| EvRandRead
| EvSeek (name : string) (attempt : Z)
| EvPutObject (bucket key contentType : string) (attempt : Z)
| EvSleep (d : Duration)
| EvGetVideo (id : UUID)
| EvUpdateVideo (v : Video)
| EvPresign (bucket key : string) (expires : Duration).

(** The events that touch the local disk. *)
Definition isFileIO (e : Event) : bool :=
  match e with
  | EvCreateTemp _ | EvCreate _ | EvCopy _ | EvClose _ | EvRemove _
  | EvFfmpeg _ _ | EvOpen _ | EvFfprobe _ | EvSeek _ _ => true
  | _ => false
  end.

(** The state of the surroundings: the names of the files on the local
    disk, the records of the metadata store, and the events so far. *)
Record World : Type := {
  fs : gset string;
  db : gmap UUID Video;
  trace : list Event
}.

Definition emitW (e : Event) (w : World) : World :=
  {| fs := fs w; db := db w; trace := trace w ++ [e] |}.

Definition set_fs (f : gset string) (w : World) : World :=
  {| fs := f; db := db w; trace := trace w |}.

Definition set_db (d : gmap UUID Video) (w : World) : World :=
  {| fs := fs w; db := d; trace := trace w |}.

(** The collaborators' answers. *)
Record Env : Type := {
  uuid_Parse : string -> error + UUID;
  auth_GetBearerToken : list (string * string) -> error + string;
  auth_ValidateJWT : string -> string -> error + UUID;
  ParseMultipartForm : Request -> Z -> option error;
  multipart_TempFiles : Request -> Z -> list string;
  FormFile : Request -> string -> error + FormPart;
  mime_ParseMediaType : string -> error + string;
  os_CreateTemp : string -> string -> error + string;
  os_Create : string -> option error;
  io_Copy : string -> string -> option error;
  ffmpeg_Run : string -> string -> FfmpegExit;
  os_Open : string -> option error;
  rand_Read : nat -> error + list ascii;
  ffprobe_Run : string -> error + string;
  json_Unmarshal : string -> error + list JSONStream;
  file_Seek : string -> Z -> option error;
  s3_PutObject : string -> string -> Z -> option error;
  db_UpdateVideo : Video -> option error;
  s3_PresignGetObject : string -> string -> Duration -> error + string;
  time_Now : Time
}.

(** Deferred calls of a handler. *)
Inductive Deferred : Type :=
| DeferRemove (name : string)
| DeferClose (name : string)
| DeferCloseUpload.

(** [os.Remove(name)]: the file is gone afterwards (the handlers ignore the
    call's error). *)
Definition os_Remove (name : string) (w : World) : World :=
  emitW (EvRemove name) (set_fs (fs w ∖ {[ name ]}) w).

Definition runDeferred1 (d : Deferred) (w : World) : World :=
  match d with
  | DeferRemove name => os_Remove name w
  | DeferClose name => emitW (EvClose name) w
  | DeferCloseUpload => emitW EvCloseUpload w
  end.

(** Deferred calls run in reverse order of registration; the list holds the
    most recently deferred call first. *)
Fixpoint runDeferred (ds : list Deferred) (w : World) : World :=
  match ds with
  | [] => w
  | d :: ds' => runDeferred ds' (runDeferred1 d w)
  end.

(** ** The handler monad: world, deferred calls, early return *)

Record Frame : Type := {
  world : World;
  deferred : list Deferred
}.

Inductive Step (A : Type) : Type :=
| Next (a : A)
| Return (r : Response).
Arguments Next {A} a.
Arguments Return {A} r.

Definition Handler (A : Type) : Type := Frame -> Step A * Frame.

#[export] Instance Handler_ret : MRet Handler :=
  fun A a f => (Next a, f).

#[export] Instance Handler_bind : MBind Handler :=
  fun A B k m f =>
    match m f with
    | (Next a, f') => k a f'
    | (Return r, f') => (Return r, f')
    end.

Definition respond {A : Type} (r : Response) : Handler A :=
  fun f => (Return r, f).

Definition emit (e : Event) : Handler unit :=
  fun f => (Next tt, {| world := emitW e (world f); deferred := deferred f |}).

Definition defer (d : Deferred) : Handler unit :=
  fun f => (Next tt, {| world := world f; deferred := d :: deferred f |}).

(** [x, err := call; if err != nil { respondWithError(w, code, msg, err); return }]. *)
Definition orRespond {A : Type} (res : error + A) (code : Z) (msg : string)
  : Handler A :=
  match res with
  | inl err => respond (respondWithError code msg (Some err))
  | inr a => mret a
  end.

(** [err := call; if err != nil { respondWithError(w, code, msg, err); return }]. *)
Definition checkErr (res : option error) (code : Z) (msg : string)
  : Handler unit :=
  match res with
  | Some err => respond (respondWithError code msg (Some err))
  | None => mret tt
  end.

(** A handler call: run the body, then the deferred calls. *)
Definition serve (body : Handler Response) (w : World) : Response * World :=
  let '(s, f) := body {| world := w; deferred := [] |} in
  let r := match s with Next r => r | Return r => r end in
  (r, runDeferred (deferred f) (world f)).

(** Effectful helpers that do not return early: a state monad over the
    world. *)
Definition IO (A : Type) : Type := World -> A * World.

Definition liftIO {A : Type} (m : IO A) : Handler A :=
  fun f =>
    let '(a, w) := m (world f) in
    (Next a, {| world := w; deferred := deferred f |}).

(** [os.CreateTemp(dir, pattern)]: on success a new file of the returned
    name exists. *)
Definition os_CreateTempIO (env : Env) (dir pattern : string)
  : IO (error + string) :=
  fun w =>
    match os_CreateTemp env dir pattern with
    | inl err => (inl err, w)
    | inr name =>
        (inr name, emitW (EvCreateTemp name) (set_fs (fs w ∪ {[ name ]}) w))
    end.

(** [os.Create(name)]: on success the file exists. *)
Definition os_CreateIO (env : Env) (name : string) : IO (option error) :=
  fun w =>
    match os_Create env name with
    | Some err => (Some err, w)
    | None => (None, emitW (EvCreate name) (set_fs (fs w ∪ {[ name ]}) w))
    end.

(* ===================================================================== *)
(** * Media prober ([video_utils.go])                                     *)
(* ===================================================================== *)

(** The conversion [float64(n)] of a 64-bit [int]: the nearest binary64
    value, ties to even. *)
Definition float64 (n : Z) : float :=
  if (n =? - 9223372036854775808)%Z then (- 0x1p63)%float
  else if (n <? 0)%Z then (- of_uint63 (Uint63.of_Z (- n)))%float
  else of_uint63 (Uint63.of_Z n).

Definition landscapeTarget : float := (16 / 9)%float.
Definition portraitTarget : float := (9 / 16)%float.
Definition tolerance : float := 0x1.999999999999ap-4%float.

Definition categorizeAspectRatio (width height : Z) : string :=
  let ratio := (float64 width / float64 height)%float in
  if ((landscapeTarget - tolerance <=? ratio)
      && (ratio <=? landscapeTarget + tolerance))%float then "landscape"
  else if ((portraitTarget - tolerance <=? ratio)
           && (ratio <=? portraitTarget + tolerance))%float then "portrait"
  else "other".

(** The part of [getVideoAspectRatio] after the JSON document is parsed. *)
Definition classifyStreams (streams : list Stream) : string :=
  match streams with
  | [] => "other"
  | s0 :: _ =>
      let width := Width s0 in
      let height := Height s0 in
      if (width =? 0)%Z || (height =? 0)%Z then "other"
      else categorizeAspectRatio width height
  end.

Definition getVideoAspectRatio (env : Env) (filePath : string)
  : IO (error + string) :=
  fun w =>
    let w1 := emitW (EvFfprobe filePath) w in
    match ffprobe_Run env filePath with
    | inl err => (inl (Wrap "ffprobe failed: " err), w1)
    | inr stdout =>
        match json_Unmarshal env stdout with
        | inl err => (inl (Wrap "failed to parse ffprobe output: " err), w1)
        | inr streams => (inr (classifyStreams (map decodeStream streams)), w1)
        end
    end.

(* ===================================================================== *)
(** * Fast-start rewriter ([video_utils.go])                              *)
(* ===================================================================== *)

Definition processVideoForFastStart (env : Env) (inputPath : string)
  : IO (error + string) :=
  fun w =>
    let outputPath := inputPath +:+ ".processing" in
    let w1 := emitW (EvFfmpeg inputPath outputPath) w in
    match ffmpeg_Run env inputPath outputPath with
    | FfmpegOk => (inr outputPath, set_fs (fs w1 ∪ {[ outputPath ]}) w1)
    | FfmpegFailed err outputLeft =>
        (inl (Wrap "ffmpeg faststart failed: " err),
         if outputLeft then set_fs (fs w1 ∪ {[ outputPath ]}) w1 else w1)
    end.

(* ===================================================================== *)
(** * Signed-URL resolver                                                 *)
(* ===================================================================== *)

Definition generatePresignedURL (env : Env) (bucket key : string)
    (expireTime : Duration) : IO (error + string) :=
  fun w =>
    let w1 := emitW (EvPresign bucket key expireTime) w in
    match s3_PresignGetObject env bucket key expireTime with
    | inl err => (inl (Wrap "failed to generate presigned URL: " err), w1)
    | inr url => (inr url, w1)
    end.

(** The error of a reference that does not split into two parts. *)
Definition InvalidReferenceFormat (ref : string) : error :=
  NewError ("invalid bucket/key format: " +:+ ref).

(** [dbVideoToSignedVideo] returns the pair [(database.Video, error)]. *)
Definition dbVideoToSignedVideo (env : Env) (video : Video)
  : IO (Video * option error) :=
  fun w =>
    match VideoURL video with
    | None => ((video, None), w)
    | Some url =>
        if String.eqb url "" then ((video, None), w)
        else
          let parts := strings.Split url ","%char in
          match parts with
          | [bucket; key] =>
              match generatePresignedURL env bucket key (15 * time.Minute) w with
              | (inl err, w1) => ((video, Some err), w1)
              | (inr presignedURL, w1) =>
                  ((set_VideoURL (Some presignedURL) video, None), w1)
              end
          | _ => ((video, Some (InvalidReferenceFormat url)), w)
          end
    end.

(* ===================================================================== *)
(** * Metadata store                                                      *)
(* ===================================================================== *)

(** Modelled from the spec: [cfg.db.GetVideo] belongs to the metadata-store
    package; [get(videoId)] yields the record or fails with NotFound. *)
Definition db_GetVideo (id : UUID) : IO (error + Video) :=
  fun w =>
    let w1 := emitW (EvGetVideo id) w in
    match db w !! id with
    | Some v => (inr v, w1)
    | None => (inl (NewError "not found"), w1)
    end.

(** Modelled from the spec: [cfg.db.UpdateVideo] belongs to the
    metadata-store package; [update(record)] stores the record under its
    identifier or fails with a store error and writes nothing. *)
Definition db_UpdateVideoIO (env : Env) (v : Video) : IO (option error) :=
  fun w =>
    let w1 := emitW (EvUpdateVideo v) w in
    match db_UpdateVideo env v with
    | Some err => (Some err, w1)
    | None => (None, set_db (<[ ID v := v ]> (db w1)) w1)
    end.

(* ===================================================================== *)
(** * Video ingest ([handlerUploadVideo])                                 *)
(* ===================================================================== *)

Definition maxUploadSize : Z := Z.shiftl 1 30.

(** The upload loop
    [for attempt := 1; attempt <= maxRetries; attempt++ { ... }].
    [remaining] bounds the iterations still to run (the loop variable only
    grows, so [maxRetries] iterations are enough); [uploadErr] is the
    variable of that name. *)
Fixpoint uploadLoop (env : Env) (bucket fileKey name : string)
    (maxRetries : Z) (remaining : nat) (attempt : Z)
    (uploadErr : option error) (w : World) : option error * World :=
  match remaining with
  | O => (uploadErr, w)
  | S remaining' =>
      if (attempt <=? maxRetries)%Z then
        let w1 := emitW (EvSeek name attempt) w in
        match file_Seek env name attempt with
        | Some seekErr => (Some seekErr, w1)
        | None =>
            let w2 := emitW (EvPutObject bucket fileKey "video/mp4" attempt) w1 in
            match s3_PutObject env bucket fileKey attempt with
            | None => (None, w2)
            | Some err =>
                let w3 :=
                  if (attempt <? maxRetries)%Z
                  then emitW (EvSleep (time.Second * attempt)) w2
                  else w2 in
                uploadLoop env bucket fileKey name maxRetries remaining'
                  (attempt + 1) (Some err) w3
            end
        end
      else (uploadErr, w)
  end.

Definition maxRetries : Z := 3.

Definition uploadWithRetry (env : Env) (bucket fileKey name : string)
  : IO (option error) :=
  uploadLoop env bucket fileKey name maxRetries (Z.to_nat maxRetries) 1 None.

Definition handlerUploadVideo (cfg : apiConfig) (env : Env) (r : Request)
  : Handler Response :=
  (* Step 1: video ID from the request path *)
  videoID ← orRespond (uuid_Parse env (PathValue_videoID r))
              http.StatusBadRequest "Invalid ID";
  (* Step 2: authenticate *)
  token ← orRespond (auth_GetBearerToken env (Header r))
            http.StatusUnauthorized "Couldn't find JWT";
  userID ← orRespond (auth_ValidateJWT env token (jwtSecret cfg))
             http.StatusUnauthorized "Couldn't validate JWT";
  (* Step 3: video metadata *)
  found ← liftIO (db_GetVideo videoID);
  video ← orRespond found http.StatusNotFound "Video not found";
  (* Step 4: ownership *)
  if negb (N.eqb (UserID video) userID) then
    respond (respondWithError http.StatusUnauthorized
               "User is not the video owner" None)
  else
  (* Step 5: upload limit, form *)
  _ ← emit EvParseMultipartForm;
  _ ← checkErr (ParseMultipartForm env r maxUploadSize)
        http.StatusBadRequest "Unable to parse form data";
  file ← orRespond (FormFile env r "video")
           http.StatusBadRequest "Unable to get video file";
  _ ← defer DeferCloseUpload;
  (* Step 6: MP4 only *)
  mediaType ← orRespond (mime_ParseMediaType env (ContentType file))
                http.StatusBadRequest "Invalid content type";
  if negb (String.eqb mediaType "video/mp4") then
    respond (respondWithError http.StatusBadRequest
               "Only MP4 videos are allowed" None)
  else
  (* Step 7: temp file *)
  created ← liftIO (os_CreateTempIO env "" "tubely-upload-*.mp4");
  tempFile ← orRespond created
               http.StatusInternalServerError "Failed to create temp file";
  _ ← defer (DeferRemove tempFile);
  _ ← defer (DeferClose tempFile);
  _ ← emit (EvCopy tempFile);
  _ ← checkErr (io_Copy env tempFile (Content file))
        http.StatusInternalServerError "Failed to save video to temp file";
  _ ← emit (EvClose tempFile);
  (* Step 7b: fast start *)
  processed ← liftIO (processVideoForFastStart env tempFile);
  processedPath ← orRespond processed http.StatusInternalServerError
                    "Failed to process video for fast start";
  _ ← defer (DeferRemove processedPath);
  _ ← emit (EvOpen processedPath);
  _ ← checkErr (os_Open env processedPath)
        http.StatusInternalServerError "Failed to open processed video";
  _ ← defer (DeferClose processedPath);
  (* random file name *)
  _ ← emit EvRandRead;
  randomBytes ← orRespond (rand_Read env 32)
                  http.StatusInternalServerError
                  "Failed to generate random filename";
  let randomString := base64.EncodeToString randomBytes in
  (* aspect ratio *)
  probed ← liftIO (getVideoAspectRatio env processedPath);
  aspectRatio ← orRespond probed http.StatusInternalServerError
                  "Failed to analyze video";
  let fileKey := aspectRatio +:+ "/" +:+ randomString +:+ ".mp4" in
  (* Step 8: upload with retry *)
  uploadErr ← liftIO (uploadWithRetry env (s3Bucket cfg) fileKey processedPath);
  _ ← checkErr uploadErr http.StatusInternalServerError
        "Failed to upload to S3 after retries";
  (* Step 9: store the reference *)
  let videoURL := s3Bucket cfg +:+ "," +:+ fileKey in
  let updatedVideo :=
    set_VideoURL (Some videoURL) (set_UpdatedAt (time_Now env) video) in
  updated ← liftIO (db_UpdateVideoIO env updatedVideo);
  _ ← checkErr updated http.StatusInternalServerError "Failed to update video";
  signed ← liftIO (dbVideoToSignedVideo env updatedVideo);
  _ ← checkErr (snd signed) http.StatusInternalServerError
        "Failed to generate signed URL";
  mret (respondWithJSON http.StatusOK (fst signed)).

(* ===================================================================== *)
(** * Thumbnail ingest ([handler_upload_thumbnail.go])                    *)
(* ===================================================================== *)

Definition maxMemory : Z := Z.shiftl 10 20.

Definition getFileExtension (mediaType : string) : string :=
  if String.eqb mediaType "image/jpeg" || String.eqb mediaType "image/jpg"
  then ".jpg"
  else if String.eqb mediaType "image/png" then ".png"
  else ".jpg".

(** [strings.Join(elems, sep)]. *)
Definition strings_Join (elems : list string) (sep : string) : string :=
  match elems with
  | [] => ""
  | e :: es => fold_left (fun acc x => acc +:+ sep +:+ x) es e
  end.

(** One element of the path that [filepath.Clean] reads, first to last;
    [out] holds the elements kept so far, the last one first.  An empty
    element (between two separators) and [.] are dropped; [..] takes back
    the element before it, is kept at the start of a path that is not
    rooted, and is dropped at the start of a rooted path. *)
Definition cleanElement (rooted : bool) (out : list string) (elem : string)
  : list string :=
  if String.eqb elem "" || String.eqb elem "." then out
  else if String.eqb elem ".." then
    match out with
    | last :: out' => if String.eqb last ".." then elem :: out else out'
    | [] => if rooted then out else [elem]
    end
  else elem :: out.

(** [filepath.Clean] where the separator is the slash: the shortest path
    that names the same file by lexical processing; the empty path
    becomes [.]. *)
Definition filepath_Clean (path : string) : string :=
  match path with
  | EmptyString => "."
  | String c _ =>
      let rooted := Ascii.eqb c "/"%char in
      let out := fold_left (cleanElement rooted)
                   (strings.Split path "/"%char) [] in
      let joined := strings_Join (rev out) "/" in
      if rooted then "/" +:+ joined
      else if String.eqb joined "" then "." else joined
  end.

(** [filepath.Join(dir, name)]: the elements that are not empty, joined
    by the separator, and the result cleaned. *)
Definition filepath_Join (dir name : string) : string :=
  if negb (String.eqb dir "") then filepath_Clean (dir +:+ "/" +:+ name)
  else if negb (String.eqb name "") then filepath_Clean name
  else "".

(** The temporary files of the form parser: created, and removed again. *)
Definition createTemps (names : list string) (w : World) : World :=
  {| fs := fs w ∪ list_to_set names; db := db w;
     trace := trace w ++ map EvCreateTemp names |}.

Definition removeTemps (names : list string) (w : World) : World :=
  {| fs := fs w ∖ list_to_set names; db := db w;
     trace := trace w ++ map EvRemove names |}.

(** [r.ParseMultipartForm(maxMemory)] on a body that is not capped: the
    parser keeps up to [maxMemory] bytes of the file parts in memory and
    writes the remainder to temporary files, those that the collaborator
    [multipart_TempFiles] names (none when the parts fit in memory); when
    it fails it removes the files it has written.  The files of a parsed
    form are still there when the handler returns; the server removes
    them afterwards.  (Video ingest caps the body at its [maxMemory], so
    there every part fits in memory and the call writes no file.) *)
Definition ParseMultipartFormIO (env : Env) (r : Request) (maxMemory : Z)
  : IO (option error) :=
  fun w =>
    let temps := multipart_TempFiles env r maxMemory in
    let w1 := createTemps temps (emitW EvParseMultipartForm w) in
    match ParseMultipartForm env r maxMemory with
    | Some err => (Some err, removeTemps temps w1)
    | None => (None, w1)
    end.

Definition handlerUploadThumbnail (cfg : apiConfig) (env : Env) (r : Request)
  : Handler Response :=
  videoID ← orRespond (uuid_Parse env (PathValue_videoID r))
              http.StatusBadRequest "Invalid ID";
  token ← orRespond (auth_GetBearerToken env (Header r))
            http.StatusUnauthorized "Couldn't find JWT";
  userID ← orRespond (auth_ValidateJWT env token (jwtSecret cfg))
             http.StatusUnauthorized "Couldn't validate JWT";
  parsed ← liftIO (ParseMultipartFormIO env r maxMemory);
  _ ← checkErr parsed http.StatusBadRequest "Unable to parse form data";
  file ← orRespond (FormFile env r "thumbnail")
           http.StatusBadRequest "Unable to get form file";
  _ ← defer DeferCloseUpload;
  mediaType ← orRespond (mime_ParseMediaType env (ContentType file))
                http.StatusBadRequest "Invalid content type";
  if negb (String.eqb mediaType "image/jpeg")
     && negb (String.eqb mediaType "image/png") then
    respond (respondWithError http.StatusBadRequest
               "Only JPEG and PNG images are allowed" None)
  else
  let fileExtension := getFileExtension mediaType in
  _ ← emit EvRandRead;
  randomBytes ← orRespond (rand_Read env 32)
                  http.StatusInternalServerError
                  "Failed to generate random bytes";
  let randomString := base64.EncodeToString randomBytes in
  let filename := randomString +:+ fileExtension in
  let filePath := filepath_Join (assetsRoot cfg) filename in
  createErr ← liftIO (os_CreateIO env filePath);
  _ ← checkErr createErr
        http.StatusInternalServerError "Failed to create file";
  _ ← defer (DeferClose filePath);
  _ ← emit (EvCopy filePath);
  _ ← checkErr (io_Copy env filePath (Content file))
        http.StatusInternalServerError "Failed to save file";
  found ← liftIO (db_GetVideo videoID);
  video ← orRespond found http.StatusNotFound "Video not found";
  if negb (N.eqb (UserID video) userID) then
    respond (respondWithError http.StatusUnauthorized
               "User is not the video owner" None)
  else
  let thumbnailURL :=
    "http://localhost:" +:+ port cfg +:+ "/assets/" +:+ filename in
  let updatedVideo :=
    set_ThumbnailURL (Some thumbnailURL) (set_UpdatedAt (time_Now env) video) in
  updated ← liftIO (db_UpdateVideoIO env updatedVideo);
  _ ← checkErr updated http.StatusInternalServerError "Failed to update video";
  mret (respondWithJSON http.StatusOK updatedVideo).

(** The non-owner check of [handlerVideoMetaDelete], the sibling handler
    that also compares the record's owner with the caller. *)
Definition handlerVideoMetaDelete_ownerCheck (video : Video) (userID : UUID)
  : option Response :=
  if negb (N.eqb (UserID video) userID) then
    Some (respondWithError http.StatusForbidden "You can't delete this video" None)
  else None.


(* ===================================================================== *)
(** * Metadata handlers                                                   *)
(* ===================================================================== *)

(** Two more [net/http] status codes, written by the metadata handlers. *)
Definition StatusCreated : Z := 201.
Definition StatusNoContent : Z := 204.

Module database.

(** Modelled from the spec: [database.CreateVideoParams] is declared in
    the metadata-store package; [create(params)] takes the title, the
    description and the owner of the new record. *)
Record CreateVideoParams : Type := {
  Title : string;
  Description : string;
  UserID : UUID
}.

Definition set_UserID (u : UUID) (p : CreateVideoParams) : CreateVideoParams :=
  {| Title := Title p; Description := Description p; UserID := u |}.

End database.

(** The answers of the collaborators that only the metadata handlers call:
    the JSON decoder of the request body and three operations of the
    metadata store. *)
Record MetaEnv : Type := {
  json_Decode : string -> error + database.CreateVideoParams;
  db_CreateVideo : database.CreateVideoParams -> error + Video;
  db_DeleteVideo : UUID -> option error;
  db_GetVideos : UUID -> error + list Video
}.

(** Modelled from the spec: [cfg.db.CreateVideo] belongs to the
    metadata-store package; [create(params)] stores the new record under
    its identifier, or fails and stores nothing. *)
Definition db_CreateVideoIO (menv : MetaEnv)
    (params : database.CreateVideoParams) : IO (error + Video) :=
  fun w =>
    match db_CreateVideo menv params with
    | inl err => (inl err, w)
    | inr v => (inr v, set_db (<[ ID v := v ]> (db w)) w)
    end.

(** Modelled from the spec: [cfg.db.DeleteVideo] belongs to the
    metadata-store package; [delete(videoId)] removes the record, or fails
    and removes nothing. *)
Definition db_DeleteVideoIO (menv : MetaEnv) (id : UUID) : IO (option error) :=
  fun w =>
    match db_DeleteVideo menv id with
    | Some err => (Some err, w)
    | None => (None, set_db (delete id (db w)) w)
    end.

(** What [handlerVideoMetaDelete] and [handlerVideosRetrieve] write when
    they succeed: a bare status ([w.WriteHeader(code)]) and a JSON list. *)
Inductive HeaderOnly : Type :=
| WriteHeader (code : Z).

Inductive ListResponse : Type :=
| respondWithJSONList (code : Z) (payload : list Video).

(** A call of a handler whose last statement writes something other than a
    [Response]: the body returns early with a [Response], or runs to its
    end and writes an [A]; then the deferred calls run. *)
Definition serveWith {A : Type} (body : Handler A) (w : World)
  : (Response + A) * World :=
  let '(s, f) := body {| world := w; deferred := [] |} in
  (match s with Next a => inr a | Return r => inl r end,
   runDeferred (deferred f) (world f)).

Definition handlerVideoMetaCreate (cfg : apiConfig) (env : Env)
    (menv : MetaEnv) (r : Request) : Handler Response :=
  token ← orRespond (auth_GetBearerToken env (Header r))
            http.StatusUnauthorized "Couldn't find JWT";
  userID ← orRespond (auth_ValidateJWT env token (jwtSecret cfg))
             http.StatusUnauthorized "Couldn't validate JWT";
  decoded ← orRespond (json_Decode menv (Body r))
              http.StatusInternalServerError "Couldn't decode parameters";
  let params := database.set_UserID userID decoded in
  created ← liftIO (db_CreateVideoIO menv params);
  video ← orRespond created
            http.StatusInternalServerError "Couldn't create video";
  mret (respondWithJSON StatusCreated video).

Definition handlerVideoMetaDelete (cfg : apiConfig) (env : Env)
    (menv : MetaEnv) (r : Request) : Handler HeaderOnly :=
  videoID ← orRespond (uuid_Parse env (PathValue_videoID r))
              http.StatusBadRequest "Invalid ID";
  token ← orRespond (auth_GetBearerToken env (Header r))
            http.StatusUnauthorized "Couldn't find JWT";
  userID ← orRespond (auth_ValidateJWT env token (jwtSecret cfg))
             http.StatusUnauthorized "Couldn't validate JWT";
  found ← liftIO (db_GetVideo videoID);
  video ← orRespond found http.StatusNotFound "Couldn't get video";
  match handlerVideoMetaDelete_ownerCheck video userID with
  | Some refusal => respond refusal
  | None =>
      deleted ← liftIO (db_DeleteVideoIO menv videoID);
      _ ← checkErr deleted
            http.StatusInternalServerError "Couldn't delete video";
      mret (WriteHeader StatusNoContent)
  end.

Definition handlerVideoGet (cfg : apiConfig) (env : Env) (r : Request)
  : Handler Response :=
  videoID ← orRespond (uuid_Parse env (PathValue_videoID r))
              http.StatusBadRequest "Invalid video ID";
  found ← liftIO (db_GetVideo videoID);
  video ← orRespond found http.StatusNotFound "Video not found";
  signed ← liftIO (dbVideoToSignedVideo env video);
  _ ← checkErr (snd signed) http.StatusInternalServerError
        "Failed to generate signed URL";
  mret (respondWithJSON http.StatusOK (fst signed)).

(** The loop [for i, video := range videos] of [handlerVideosRetrieve]:
    the videos are signed in order; the first error ends the loop. *)
Fixpoint signVideos (env : Env) (videos : list Video)
  : IO (error + list Video) :=
  fun w =>
    match videos with
    | [] => (inr [], w)
    | video :: rest =>
        match dbVideoToSignedVideo env video w with
        | ((_, Some err), w1) => (inl err, w1)
        | ((signedVideo, None), w1) =>
            match signVideos env rest w1 with
            | (inl err, w2) => (inl err, w2)
            | (inr signedVideos, w2) => (inr (signedVideo :: signedVideos), w2)
            end
        end
    end.

Definition handlerVideosRetrieve (cfg : apiConfig) (env : Env)
    (menv : MetaEnv) (r : Request) : Handler ListResponse :=
  token ← orRespond (auth_GetBearerToken env (Header r))
            http.StatusUnauthorized "Couldn't find JWT";
  userID ← orRespond (auth_ValidateJWT env token (jwtSecret cfg))
             http.StatusUnauthorized "Couldn't validate JWT";
  videos ← orRespond (db_GetVideos menv userID)
             http.StatusInternalServerError "Failed to get videos";
  signed ← liftIO (signVideos env videos);
  signedVideos ← orRespond signed http.StatusInternalServerError
                   "Failed to generate signed URLs";
  mret (respondWithJSONList http.StatusOK signedVideos).

(* ===================================================================== *)
(** * Video ingest without the rewriter                                   *)
(* ===================================================================== *)

(** The [handlerUploadVideo] of the second listing of
    [handler_upload_thumbnail.go]: the upload is staged in a temporary
    file and sent to the object store as it is, without rewriting and
    without probing; the record gets the object's public URL. *)
Module DirectUpload.

Definition handlerUploadVideo (cfg : apiConfig) (env : Env) (r : Request)
  : Handler Response :=
  (* Step 1: video ID from the request path *)
  videoID ← orRespond (uuid_Parse env (PathValue_videoID r))
              http.StatusBadRequest "Invalid ID";
  (* Step 2: authenticate *)
  token ← orRespond (auth_GetBearerToken env (Header r))
            http.StatusUnauthorized "Couldn't find JWT";
  userID ← orRespond (auth_ValidateJWT env token (jwtSecret cfg))
             http.StatusUnauthorized "Couldn't validate JWT";
  (* Step 3: video metadata *)
  found ← liftIO (db_GetVideo videoID);
  video ← orRespond found http.StatusNotFound "Video not found";
  (* Step 4: ownership *)
  if negb (N.eqb (UserID video) userID) then
    respond (respondWithError http.StatusUnauthorized
               "User is not the video owner" None)
  else
  (* Step 5: upload limit, form *)
  _ ← emit EvParseMultipartForm;
  _ ← checkErr (ParseMultipartForm env r maxUploadSize)
        http.StatusBadRequest "Unable to parse form data";
  file ← orRespond (FormFile env r "video")
           http.StatusBadRequest "Unable to get video file";
  _ ← defer DeferCloseUpload;
  (* Step 6: MP4 only *)
  mediaType ← orRespond (mime_ParseMediaType env (ContentType file))
                http.StatusBadRequest "Invalid content type";
  if negb (String.eqb mediaType "video/mp4") then
    respond (respondWithError http.StatusBadRequest
               "Only MP4 videos are allowed" None)
  else
  (* Step 7: temp file *)
  created ← liftIO (os_CreateTempIO env "" "tubely-upload-*.mp4");
  tempFile ← orRespond created
               http.StatusInternalServerError "Failed to create temp file";
  _ ← defer (DeferRemove tempFile);
  _ ← defer (DeferClose tempFile);
  _ ← emit (EvCopy tempFile);
  _ ← checkErr (io_Copy env tempFile (Content file))
        http.StatusInternalServerError "Failed to save video to temp file";
  (* the seek before the loop is numbered 0 *)
  _ ← emit (EvSeek tempFile 0);
  _ ← checkErr (file_Seek env tempFile 0)
        http.StatusInternalServerError "Failed to reset file pointer";
  (* random file name *)
  _ ← emit EvRandRead;
  randomBytes ← orRespond (rand_Read env 32)
                  http.StatusInternalServerError
                  "Failed to generate random filename";
  let randomString := base64.EncodeToString randomBytes in
  let fileKey := randomString +:+ ".mp4" in
  (* Step 8: upload with retry *)
  uploadErr ← liftIO (uploadWithRetry env (s3Bucket cfg) fileKey tempFile);
  _ ← checkErr uploadErr http.StatusInternalServerError
        "Failed to upload to S3 after retries";
  (* Step 9: store the URL *)
  let videoURL :=
    "https://" +:+ s3Bucket cfg +:+ ".s3." +:+ s3Region cfg
    +:+ ".amazonaws.com/" +:+ fileKey in
  let updatedVideo :=
    set_VideoURL (Some videoURL) (set_UpdatedAt (time_Now env) video) in
  updated ← liftIO (db_UpdateVideoIO env updatedVideo);
  _ ← checkErr updated http.StatusInternalServerError "Failed to update video";
  mret (respondWithJSON http.StatusOK updatedVideo).

End DirectUpload.

(* ===================================================================== *)
(** * The specification's reading of the components                       *)
(* ===================================================================== *)

(** The world after more events were recorded. *)
Definition extend (w : World) (evs : list Event) : World :=
  {| fs := fs w; db := db w; trace := trace w ++ evs |}.

(** The classification rule in the specification's words: the ratio
    [width / height] as an exact number, an absolute tolerance of one tenth
    around [16/9], then around [9/16], both ends included. *)
Definition specClassify (width height : Z) : string :=
  let ratio := Qmake width (Z.to_pos height) in
  if Qle_bool (Qabs (ratio - (16 # 9))%Q) (1 # 10)%Q then "landscape"
  else if Qle_bool (Qabs (ratio - (9 # 16))%Q) (1 # 10)%Q then "portrait"
  else "other".

(** The rule with the tolerance read as ten percent of the target ratio. *)
Definition specClassifyRelative (width height : Z) : string :=
  let ratio := Qmake width (Z.to_pos height) in
  if Qle_bool (Qabs (ratio - (16 # 9))%Q) ((1 # 10) * (16 # 9))%Q
  then "landscape"
  else if Qle_bool (Qabs (ratio - (9 # 16))%Q) ((1 # 10) * (9 # 16))%Q
  then "portrait"
  else "other".

(** [categorizeAspectRatio] with the portrait check made first. *)
Definition categorizeAspectRatio_portraitFirst (width height : Z) : string :=
  let ratio := (float64 width / float64 height)%float in
  if ((portraitTarget - tolerance <=? ratio)
      && (ratio <=? portraitTarget + tolerance))%float then "portrait"
  else if ((landscapeTarget - tolerance <=? ratio)
           && (ratio <=? landscapeTarget + tolerance))%float then "landscape"
  else "other".

(** ** Reading binary64 numbers

    The specification of binary64 arithmetic describes a finite number by
    a mantissa and an exponent.  A mantissa is [normal53] when it has
    exactly 53 bits; [locates l r d] says what the rounding location [l]
    tells about the remainder [r] of a division by [d]. *)
Definition normal53 (m : Z) : Prop := 2 ^ 52 <= m < 2 ^ 53.

Definition locates (l : location) (r d : Z) : Prop :=
  match l with
  | loc_Exact => r = 0
  | loc_Inexact Lt => 0 < r /\ 2 * r < d
  | loc_Inexact Eq => 0 < r /\ 2 * r = d
  | loc_Inexact Gt => 0 < r /\ d < 2 * r
  end.

(** The retry policy in the specification's words, for [total] attempts:
    before attempt [n >= 2] sleep [n - 1] seconds ([backoffBefore]); before
    every attempt
    reposition the stream, aborting on failure; stop at the first attempt
    without error; after the final failed attempt surface its error.
    The result is the sequence of effects and the error surfaced. *)
Definition backoffBefore (n : Z) : list Event :=
  if (2 <=? n)%Z then [EvSleep ((n - 1) * time.Second)] else [].

Fixpoint specRetry (env : Env) (bucket fileKey name : string)
    (left : nat) (n : Z) : list Event * option error :=
  match left with
  | O => ([], None)
  | S left' =>
      let backoff := backoffBefore n in
      match file_Seek env name n with
      | Some seekErr => (backoff ++ [EvSeek name n], Some seekErr)
      | None =>
          let attempt :=
            [EvSeek name n; EvPutObject bucket fileKey "video/mp4" n] in
          match s3_PutObject env bucket fileKey n with
          | None => (backoff ++ attempt, None)
          | Some err =>
              match left' with
              | O => (backoff ++ attempt, Some err)
              | S _ =>
                  let '(evs, res) :=
                    specRetry env bucket fileKey name left' (n + 1) in
                  (backoff ++ attempt ++ evs, res)
              end
          end
      end
  end.

(** The outcome of the upload loop, error surfaced and effects, tabulated
    by the answers of the file and of the object store. *)
Definition retryOutcome (env : Env) (bucket fileKey name : string)
  : option error * list Event :=
  let seek := EvSeek name in
  let put := EvPutObject bucket fileKey "video/mp4" in
  match file_Seek env name 1 with
  | Some s1 => (Some s1, [seek 1])
  | None =>
  match s3_PutObject env bucket fileKey 1 with
  | None => (None, [seek 1; put 1])
  | Some u1 =>
  match file_Seek env name 2 with
  | Some s2 => (Some s2, [seek 1; put 1; EvSleep (1 * time.Second); seek 2])
  | None =>
  match s3_PutObject env bucket fileKey 2 with
  | None => (None, [seek 1; put 1; EvSleep (1 * time.Second); seek 2; put 2])
  | Some u2 =>
  match file_Seek env name 3 with
  | Some s3 =>
      (Some s3, [seek 1; put 1; EvSleep (1 * time.Second); seek 2; put 2;
                 EvSleep (2 * time.Second); seek 3])
  | None =>
  match s3_PutObject env bucket fileKey 3 with
  | None =>
      (None, [seek 1; put 1; EvSleep (1 * time.Second); seek 2; put 2;
              EvSleep (2 * time.Second); seek 3; put 3])
  | Some u3 =>
      (Some u3, [seek 1; put 1; EvSleep (1 * time.Second); seek 2; put 2;
                 EvSleep (2 * time.Second); seek 3; put 3])
  end end end end end end.

(** A reference made of exactly two non-empty components joined by one
    comma. *)
Definition twoNonEmptyComponents (ref : string) : Prop :=
  exists bucket key : string,
    ref = bucket +:+ "," +:+ key
    /\ bucket <> "" /\ key <> ""
    /\ strings.Count bucket ","%char = 0%nat
    /\ strings.Count key ","%char = 0%nat.

(** The status codes of authentication and authorization failures. *)
Definition authorizationClass (code : Z) : Prop :=
  code = http.StatusUnauthorized \/ code = http.StatusForbidden.

(** The three classifications. *)
Definition isClassification (s : string) : Prop :=
  s = "landscape" \/ s = "portrait" \/ s = "other".

(** The events recorded by a run that started in [w] and ended in [w']. *)
Definition newEvents (w w' : World) : list Event :=
  drop (length (trace w)) (trace w').

Definition isPutObject (e : Event) : bool :=
  match e with EvPutObject _ _ _ _ => true | _ => false end.

Definition isSleep (e : Event) : bool :=
  match e with EvSleep _ => true | _ => false end.

(** A run from [w] to [w'] left the disk alone: the same files exist and no
    recorded event touches the disk. *)
Definition noFileIO (w w' : World) : Prop :=
  fs w' = fs w /\ Forall (fun e => isFileIO e = false) (newEvents w w').

(** The checks that video ingest makes before it reads the upload, and the
    first of them that fails on a request, if any. *)
Inductive Precheck : Type :=
| BadIdentifier (err : error)
| MissingToken (err : error)
| InvalidToken (err : error)
| NoRecord (id : UUID)
| NotOwner (video : Video) (caller : UUID).

Definition failedPrecheck (cfg : apiConfig) (env : Env) (r : Request)
    (w : World) : option Precheck :=
  match uuid_Parse env (PathValue_videoID r) with
  | inl err => Some (BadIdentifier err)
  | inr videoID =>
      match auth_GetBearerToken env (Header r) with
      | inl err => Some (MissingToken err)
      | inr token =>
          match auth_ValidateJWT env token (jwtSecret cfg) with
          | inl err => Some (InvalidToken err)
          | inr userID =>
              match db w !! videoID with
              | None => Some (NoRecord videoID)
              | Some video =>
                  if N.eqb (UserID video) userID then None
                  else Some (NotOwner video userID)
              end
          end
      end
  end.

(** The temporary file that a video-ingest request stages its upload in,
    with the uploaded part, when the request gets that far: the checks
    pass, the form parses, the part is there and is declared [video/mp4],
    and the temporary file is created. *)
Definition stagedUpload (cfg : apiConfig) (env : Env) (r : Request)
    (w : World) : option (string * FormPart) :=
  match failedPrecheck cfg env r w with
  | Some _ => None
  | None =>
      match ParseMultipartForm env r maxUploadSize with
      | Some _ => None
      | None =>
          match FormFile env r "video" with
          | inl _ => None
          | inr file =>
              match mime_ParseMediaType env (ContentType file) with
              | inl _ => None
              | inr mediaType =>
                  if String.eqb mediaType "video/mp4" then
                    match os_CreateTemp env "" "tubely-upload-*.mp4" with
                    | inl _ => None
                    | inr tempFile => Some (tempFile, file)
                    end
                  else None
              end
          end
      end
  end.

(* ===================================================================== *)
(** * Example inputs                                                      *)
(* ===================================================================== *)

Definition exampleConfig : apiConfig :=
  {| jwtSecret := "secret"; s3Bucket := "tubely-bucket";
     s3Region := "us-east-1"; assetsRoot := "./assets"; port := "8091" |}.

Definition exampleRequest : Request :=
  {| PathValue_videoID := "00000000-0000-0000-0000-000000000007";
     Header := [("Authorization", "Bearer token")];
     Body := "multipart-body" |}.

(** A video owned by user 1. *)
Definition exampleVideo (ref : option string) : Video :=
  {| ID := 7%N; CreatedAt := 10; UpdatedAt := 10;
     ThumbnailURL := None; VideoURL := ref;
     Title := "title"; Description := "description"; UserID := 1%N |}.

Definition exampleWorld : World :=
  {| fs := ∅; db := {[ 7%N := exampleVideo None ]}; trace := [] |}.

(** Collaborators that all succeed, except as the parameters say: the
    outcome of parsing the identifier, of validating the token, of the
    remux process, the streams the inspector reports, and the answers of
    the object store to the successive upload attempts. *)
Definition exampleEnv (parsed : error + UUID) (jwt : error + UUID)
    (remux : FfmpegExit) (streams : list JSONStream)
    (put : Z -> option error) : Env :=
  {| uuid_Parse := fun _ => parsed;
     auth_GetBearerToken := fun _ => inr "token";
     auth_ValidateJWT := fun _ _ => jwt;
     ParseMultipartForm := fun _ _ => None;
     multipart_TempFiles := fun _ _ => [];
     FormFile := fun _ name =>
       if String.eqb name "video"
       then inr {| ContentType := "video/mp4"; Content := "mp4-bytes" |}
       else inr {| ContentType := "image/png"; Content := "png-bytes" |};
     mime_ParseMediaType := fun s => inr s;
     os_CreateTemp := fun _ _ => inr "/tmp/tubely-upload-42.mp4";
     os_Create := fun _ => None;
     io_Copy := fun _ _ => None;
     ffmpeg_Run := fun _ _ => remux;
     os_Open := fun _ => None;
     rand_Read := fun n => inr (repeat "000"%char n);
     ffprobe_Run := fun _ => inr "{streams}";
     json_Unmarshal := fun _ => inr streams;
     file_Seek := fun _ _ => None;
     s3_PutObject := fun _ _ n => put n;
     db_UpdateVideo := fun _ => None;
     s3_PresignGetObject := fun bucket key _ =>
       inr ("https://" +:+ bucket +:+ ".s3.amazonaws.com/" +:+ key
            +:+ "?X-Amz-Expires=900");
     time_Now := 20 |}.

Definition hd1280x720 : list JSONStream :=
  [ {| json_width := Some 1280; json_height := Some 720 |} ].

(** Everything succeeds for the owner. *)
Definition happyEnv : Env :=
  exampleEnv (inr 7%N) (inr 1%N) FfmpegOk hd1280x720 (fun _ => None).

(** The caller is user 2, who does not own the video. *)
Definition strangerEnv : Env :=
  exampleEnv (inr 7%N) (inr 2%N) FfmpegOk hd1280x720 (fun _ => None).

(** The identifier in the path does not parse. *)
Definition badIdEnv : Env :=
  exampleEnv (inl (NewError "invalid UUID length")) (inr 1%N) FfmpegOk
    hd1280x720 (fun _ => None).

(** The token does not validate. *)
Definition badTokenEnv : Env :=
  exampleEnv (inr 7%N) (inl (NewError "token is expired")) FfmpegOk
    hd1280x720 (fun _ => None).

(** The remux process fails after it has created its output file. *)
Definition failedRemuxEnv : Env :=
  exampleEnv (inr 7%N) (inr 1%N)
    (FfmpegFailed (NewError "exit status 1") true) hd1280x720 (fun _ => None).

(** The inspector reports no stream. *)
Definition noStreamEnv : Env :=
  exampleEnv (inr 7%N) (inr 1%N) FfmpegOk [] (fun _ => None).

(** ** Signs of binary64 numbers *)

(** A binary64 number whose sign bit is [s], or a NaN. *)
Definition signed (s : bool) (x : spec_float) : Prop :=
  match x with
  | S754_zero sx | S754_infinity sx | S754_finite sx _ _ => sx = s
  | S754_nan => True
  end.

(** ** Further example inputs *)

(** The collaborators [env] with other answers of the form parser, of the
    form reader and of the presigner. *)
Definition withAnswers (temps : list string)
    (form : Request -> string -> error + FormPart)
    (presign : string -> string -> Duration -> error + string)
    (env : Env) : Env :=
  {| uuid_Parse := uuid_Parse env;
     auth_GetBearerToken := auth_GetBearerToken env;
     auth_ValidateJWT := auth_ValidateJWT env;
     ParseMultipartForm := ParseMultipartForm env;
     multipart_TempFiles := fun _ _ => temps;
     FormFile := form;
     mime_ParseMediaType := mime_ParseMediaType env;
     os_CreateTemp := os_CreateTemp env;
     os_Create := os_Create env;
     io_Copy := io_Copy env;
     ffmpeg_Run := ffmpeg_Run env;
     os_Open := os_Open env;
     rand_Read := rand_Read env;
     ffprobe_Run := ffprobe_Run env;
     json_Unmarshal := json_Unmarshal env;
     file_Seek := file_Seek env;
     s3_PutObject := s3_PutObject env;
     db_UpdateVideo := db_UpdateVideo env;
     s3_PresignGetObject := presign;
     time_Now := time_Now env |}.

(** The upload is declared as a GIF image. *)
Definition gifEnv : Env :=
  withAnswers []
    (fun _ _ => inr {| ContentType := "image/gif"; Content := "gif-bytes" |})
    (s3_PresignGetObject happyEnv) happyEnv.

(** A GIF image too large for the parser's memory: the parser writes it to
    a temporary file. *)
Definition largeGifEnv : Env :=
  withAnswers ["/tmp/multipart-1"]
    (fun _ _ => inr {| ContentType := "image/gif"; Content := "gif-bytes" |})
    (s3_PresignGetObject happyEnv) happyEnv.

(** The caller is user 2, who does not own the video, and the image is
    too large for the parser's memory. *)
Definition largeStrangerEnv : Env :=
  withAnswers ["/tmp/multipart-1"] (FormFile strangerEnv)
    (s3_PresignGetObject strangerEnv) strangerEnv.

(** The object store refuses to presign. *)
Definition failedPresignEnv : Env :=
  withAnswers [] (FormFile happyEnv)
    (fun _ _ _ => inl (NewError "no credentials")) happyEnv.

(** A metadata store that accepts every call; a created record gets the
    identifier 8. *)
Definition exampleMetaEnv : MetaEnv :=
  {| json_Decode := fun _ =>
       inr {| database.Title := "title";
              database.Description := "description";
              database.UserID := 2%N |};
     db_CreateVideo := fun p =>
       inr {| ID := 8%N; CreatedAt := 20; UpdatedAt := 20;
              ThumbnailURL := None; VideoURL := None;
              Title := database.Title p;
              Description := database.Description p;
              UserID := database.UserID p |};
     db_DeleteVideo := fun _ => None;
     db_GetVideos := fun _ =>
       inr [ exampleVideo (Some "tubely-bucket,landscape/a.mp4");
             exampleVideo None ] |}.

(* ===================================================================== *)
(** * Properties                                                          *)
(* ===================================================================== *)

(** ** The model at work *)

Example Split_examples :
  strings.Split "bucket-x,key-y" ","%char = ["bucket-x"; "key-y"]
  /\ strings.Split "" ","%char = [""]
  /\ strings.Split "bucket-x" ","%char = ["bucket-x"]
  /\ strings.Split "bucket-x," ","%char = ["bucket-x"; ""]
  /\ strings.Split "a,b,c" ","%char = ["a"; "b"; "c"].
Proof. repeat split; reflexivity. Qed.

Example EncodeToString_examples :
  base64.EncodeToString (list_ascii_of_string "foobar") = "Zm9vYmFy"
  /\ base64.EncodeToString (list_ascii_of_string "fooba") = "Zm9vYmE"
  /\ base64.EncodeToString (list_ascii_of_string "foob") = "Zm9vYg"
  /\ base64.EncodeToString ["251"%char; "255"%char] = "-_8"
  /\ String.length (base64.EncodeToString (repeat "000"%char 32)) = 43%nat.
Proof. repeat split; reflexivity. Qed.

Example categorizeAspectRatio_examples :
  categorizeAspectRatio 1280 720 = "landscape"
  /\ categorizeAspectRatio 1920 1080 = "landscape"
  /\ categorizeAspectRatio 720 1280 = "portrait"
  /\ categorizeAspectRatio 1000 1000 = "other"
  /\ categorizeAspectRatio 169 90 = "landscape"
  /\ categorizeAspectRatio 170 90 = "other"
  /\ categorizeAspectRatio (-1280) 720 = "other".
Proof. repeat split; vm_compute; reflexivity. Qed.

(** The owner uploads a 1280x720 video: the stored reference has a key
    under "landscape/", and the response carries a presigned URL instead of
    the stored reference; no file is left. *)
Example handlerUploadVideo_example :
  let run := serve (handlerUploadVideo exampleConfig happyEnv exampleRequest)
               exampleWorld in
  VideoURL <$> (db (snd run) !! 7%N)
    = Some (Some "tubely-bucket,landscape/AAAAAAAAAAAAAAAAAAAAAAAAAAAAAAAAAAAAAAAAAAA.mp4")
  /\ (exists video,
        fst run = respondWithJSON http.StatusOK video
        /\ VideoURL video
           = Some "https://tubely-bucket.s3.amazonaws.com/landscape/AAAAAAAAAAAAAAAAAAAAAAAAAAAAAAAAAAAAAAAAAAA.mp4?X-Amz-Expires=900")
  /\ fs (snd run) = ∅.
Proof.
  cbv zeta. split; [vm_compute; reflexivity|].
  split; [eexists; split; vm_compute; reflexivity|].
  vm_compute. reflexivity.
Qed.
Section StringFacts.
Variable sep : ascii.

Lemma Count_app (a b : string) :
  strings.Count (a +:+ b) sep = (strings.Count a sep + strings.Count b sep)%nat.
Proof.
  induction a as [|c a IH]; simpl; [reflexivity|].
  destruct (Ascii.eqb c sep); simpl; rewrite IH; reflexivity.
Qed.

Lemma Split_length (s : string) :
  length (strings.Split s sep) = S (strings.Count s sep).
Proof.
  induction s as [|c s IH]; simpl; [reflexivity|].
  destruct (Ascii.eqb c sep); simpl; [now rewrite IH|].
  destruct (strings.Split s sep); simpl in *; lia.
Qed.

Lemma Split_no_sep (s : string) :
  strings.Count s sep = 0%nat -> strings.Split s sep = [s].
Proof.
  induction s as [|c s IH]; simpl; [reflexivity|].
  destruct (Ascii.eqb c sep); [discriminate|].
  intros H. rewrite (IH H). reflexivity.
Qed.

Lemma Split_app (a b : string) :
  strings.Count a sep = 0%nat ->
  strings.Split (a +:+ String sep b) sep = a :: strings.Split b sep.
Proof.
  induction a as [|c a IH]; simpl.
  - intros _. now rewrite Ascii.eqb_refl.
  - destruct (Ascii.eqb c sep); [discriminate|].
    intros H. rewrite (IH H). reflexivity.
Qed.

(** A string splits into the parts it is joined from. *)
Lemma Split_join2 (a b : string) :
  strings.Count a sep = 0%nat -> strings.Count b sep = 0%nat ->
  strings.Split (a +:+ String sep b) sep = [a; b].
Proof.
  intros Ha Hb. rewrite (Split_app _ _ Ha), (Split_no_sep _ Hb). reflexivity.
Qed.

(** Conversely, a split into two parts determines the string. *)
Lemma Split_two_inv (s a b : string) :
  strings.Split s sep = [a; b] ->
  s = a +:+ String sep b
  /\ strings.Count a sep = 0%nat /\ strings.Count b sep = 0%nat.
Proof.
  revert a. induction s as [|c s IH]; simpl; intros a H; [discriminate|].
  destruct (Ascii.eqb c sep) eqn:E.
  - apply Ascii.eqb_eq in E. subst c. injection H as <- H.
    pose proof (Split_length s) as L. rewrite H in L. simpl in L.
    assert (C : strings.Count s sep = 0%nat) by lia.
    rewrite (Split_no_sep _ C) in H. injection H as ->.
    repeat split; auto.
  - destruct (strings.Split s sep) as [|p ps] eqn:S; [discriminate|].
    injection H as <- ->.
    destruct (IH p eq_refl) as (-> & Hp & Hb).
    simpl. rewrite E. repeat split; auto.
Qed.
End StringFacts.

(** ** The resolver *)

(** What the resolver does with a non-empty reference, by the number of its
    parts. *)
Lemma dbVideoToSignedVideo_parts (env : Env) (video : Video) (ref : string)
    (w : World) :
  VideoURL video = Some ref -> ref <> "" ->
  match strings.Split ref ","%char with
  | [bucket; key] =>
      dbVideoToSignedVideo env video w =
        match s3_PresignGetObject env bucket key (15 * time.Minute) with
        | inl err =>
            ((video, Some (Wrap "failed to generate presigned URL: " err)),
             extend w [EvPresign bucket key (15 * time.Minute)])
        | inr url =>
            ((set_VideoURL (Some url) video, None),
             extend w [EvPresign bucket key (15 * time.Minute)])
        end
  | _ => dbVideoToSignedVideo env video w
         = ((video, Some (InvalidReferenceFormat ref)), w)
  end.
Proof.
  intros Hv Hne. unfold dbVideoToSignedVideo. rewrite Hv.
  destruct (String.eqb ref "") eqn:E; [apply String.eqb_eq in E; contradiction|].
  destruct (strings.Split ref ","%char) as [|b [|k [|x xs]]]; try reflexivity.
  unfold generatePresignedURL.
  destruct (s3_PresignGetObject env b k (15 * time.Minute)); reflexivity.
Qed.

Lemma dbVideoToSignedVideo_fs (env : Env) (video : Video) (w : World) :
  fs (snd (dbVideoToSignedVideo env video w)) = fs w.
Proof.
  unfold dbVideoToSignedVideo, generatePresignedURL.
  destruct (VideoURL video) as [url|]; [|reflexivity].
  destruct (String.eqb url ""); [reflexivity|].
  destruct (strings.Split url ","%char) as [|b [|k [|x xs]]]; try reflexivity.
  destruct (s3_PresignGetObject env b k (15 * time.Minute)); reflexivity.
Qed.

Lemma newEvents_extend (w : World) (evs : list Event) :
  newEvents w (extend w evs) = evs.
Proof. unfold newEvents, extend; simpl. apply drop_app_length. Qed.

Lemma newEvents_refl (w : World) : newEvents w w = [].
Proof. unfold newEvents. apply drop_all. Qed.

Lemma Count_one_Split (ref : string) :
  strings.Count ref ","%char = 1%nat <->
  exists bucket key, strings.Split ref ","%char = [bucket; key].
Proof.
  split.
  - intros H. pose proof (Split_length ","%char ref) as L. rewrite H in L.
    destruct (strings.Split ref ","%char) as [|b [|k [|x xs]]]; try discriminate.
    now exists b, k.
  - intros (b & k & H). pose proof (Split_length ","%char ref) as L.
    rewrite H in L. simpl in L. lia.
Qed.

(** C3, amended: for a video whose reference is present and non-empty,
    resolution fails with InvalidReferenceFormat if and only if the
    reference does not contain exactly one comma (the resolver counts the
    comma-separated components and does not look inside them); a reference
    made of a bucket and a key joined by one comma makes the resolver
    request a presigned URL for exactly that bucket and that key and nothing
    else, as for the stored reference "bucket-x,key-y". *)
Theorem C3_resolver_reference_format
    (env : Env) (video : Video) (ref : string) (w : World) :
  VideoURL video = Some ref -> ref <> "" ->
  (snd (fst (dbVideoToSignedVideo env video w))
     = Some (InvalidReferenceFormat ref)
   <-> strings.Count ref ","%char <> 1%nat)
  /\ (forall bucket key : string,
        ref = bucket +:+ "," +:+ key ->
        strings.Count bucket ","%char = 0%nat ->
        strings.Count key ","%char = 0%nat ->
        newEvents w (snd (dbVideoToSignedVideo env video w))
          = [EvPresign bucket key (15 * time.Minute)])
  /\ (ref = "bucket-x,key-y" ->
        newEvents w (snd (dbVideoToSignedVideo env video w))
          = [EvPresign "bucket-x" "key-y" (15 * time.Minute)]).
Proof.
  intros Hv Hne.
  pose proof (dbVideoToSignedVideo_parts env video ref w Hv Hne) as P.
  assert (Two : forall bucket key : string,
             strings.Split ref ","%char = [bucket; key] ->
             newEvents w (snd (dbVideoToSignedVideo env video w))
             = [EvPresign bucket key (15 * time.Minute)]).
  { intros b k S. rewrite S in P. rewrite P.
    destruct (s3_PresignGetObject env b k (15 * time.Minute));
      simpl; apply newEvents_extend. }
  split; [|split].
  - rewrite Count_one_Split. split.
    + intros E (b & k & S). rewrite S in P. rewrite P in E.
      destruct (s3_PresignGetObject env b k (15 * time.Minute));
        simpl in E; discriminate.
    + intros N.
      destruct (strings.Split ref ","%char) as [|b [|k [|x xs]]];
        try (rewrite P; reflexivity).
      exfalso. apply N. now exists b, k.
  - intros b k -> Hb Hk. apply Two. now apply (Split_join2 ","%char).
  - intros ->. apply Two. reflexivity.
Qed.

(** ** Worlds *)

Lemma emitW_extend (e : Event) (w : World) : emitW e w = extend w [e].
Proof. reflexivity. Qed.

Lemma extend_extend (w : World) (a b : list Event) :
  extend (extend w a) b = extend w (a ++ b).
Proof. unfold extend; simpl. now rewrite app_assoc. Qed.

Lemma extend_nil (w : World) : extend w [] = w.
Proof. destruct w; unfold extend; simpl. now rewrite app_nil_r. Qed.

(** ** The upload loop *)

Section UploadLoop.
Variable env : Env.
Variables bucket fileKey name : string.

(** The loop of the handler, started at attempt [n] with [left]
    iterations to go, does what the specification's policy prescribes
    from attempt [n] on, except for the pause before attempt [n], which
    the loop has already made at the end of the previous iteration. *)
Lemma uploadLoop_specRetry (total : Z) (left : nat) :
  forall (n : Z) (uploadErr : option error) (w : World),
    1 <= n -> (0 < left)%nat -> n + Z.of_nat left = total + 1 ->
    exists evs : list Event,
      fst (specRetry env bucket fileKey name left n) = backoffBefore n ++ evs
      /\ uploadLoop env bucket fileKey name total left n uploadErr w
         = (snd (specRetry env bucket fileKey name left n), extend w evs).
Proof.
  induction left as [|left' IH]; intros n uploadErr w H1 Hpos Hn; [lia|].
  cbn [specRetry uploadLoop]. fold (backoffBefore n).
  assert (G : (n <=? total) = true) by (apply Z.leb_le; lia). rewrite G.
  destruct (file_Seek env name n) as [seekErr|].
  { eexists; split; [reflexivity|]. reflexivity. }
  destruct (s3_PutObject env bucket fileKey n) as [err|].
  2:{ eexists; split; [reflexivity|].
      now rewrite !emitW_extend, extend_extend. }
  destruct left' as [|left''].
  - assert (L : (n <? total) = false) by (apply Z.ltb_ge; lia). rewrite L.
    eexists; split; [reflexivity|]. cbn [uploadLoop].
    now rewrite !emitW_extend, extend_extend.
  - assert (L : (n <? total) = true) by (apply Z.ltb_lt; lia). rewrite L.
    destruct (IH (n + 1) (Some err)
                (emitW (EvSleep (time.Second * n))
                   (emitW (EvPutObject bucket fileKey "video/mp4" n)
                      (emitW (EvSeek name n) w))))
      as (evs & Hspec & Hloop); [lia|lia|lia|].
    rewrite Hloop.
    destruct (specRetry env bucket fileKey name (S left'') (n + 1))
      as [evs' res] eqn:S.
    simpl in Hspec. subst evs'. simpl snd. simpl fst.
    exists ([EvSeek name n; EvPutObject bucket fileKey "video/mp4" n]
              ++ backoffBefore (n + 1) ++ evs).
    split; [reflexivity|].
    rewrite !emitW_extend, !extend_extend. f_equal. f_equal.
    unfold backoffBefore.
    assert (T : (2 <=? n + 1) = true) by (apply Z.leb_le; lia). rewrite T.
    simpl. replace ((n + 1 - 1) * time.Second) with (time.Second * n) by (unfold time.Second; lia). reflexivity.
Qed.

(** The handler's loop refines the policy for three attempts. *)
Lemma uploadWithRetry_specRetry (w : World) :
  uploadWithRetry env bucket fileKey name w
  = (snd (specRetry env bucket fileKey name 3 1),
     extend w (fst (specRetry env bucket fileKey name 3 1))).
Proof.
  unfold uploadWithRetry.
  destruct (uploadLoop_specRetry maxRetries (Z.to_nat maxRetries) 1 None w)
    as (evs & Hspec & Hloop); [lia | vm_compute; lia | reflexivity |].
  rewrite Hloop. change (Z.to_nat maxRetries) with 3%nat in *.
  rewrite Hspec. reflexivity.
Qed.
End UploadLoop.

(** ** Symbolic execution of the handlers *)

Lemma noFileIO_refl (w : World) : noFileIO w w.
Proof. split; [reflexivity|]. rewrite newEvents_refl. constructor. Qed.

Lemma noFileIO_extend (w : World) (evs : list Event) :
  forallb (fun e => negb (isFileIO e)) evs = true -> noFileIO w (extend w evs).
Proof.
  intros H. split; [reflexivity|]. rewrite newEvents_extend.
  apply Forall_forall. intros e He.
  rewrite forallb_forall in H. apply list_elem_of_In in He.
  specialize (H e He). now destruct (isFileIO e).
Qed.

Ltac run_handler :=
  unfold serve, handlerUploadVideo, handlerUploadThumbnail;
  cbv [mbind mret Handler_bind Handler_ret orRespond checkErr respond emit defer
       liftIO];
  cbn [world deferred fst snd].

Ltac simpl_run :=
  cbn [world deferred fst snd runDeferred runDeferred1 status negb andb].

(** One step: case analysis on the next collaborator answer. *)
Ltac step_oracle :=
  match goal with
  | |- context [uuid_Parse ?e ?x] => destruct (uuid_Parse e x) eqn:?
  | |- context [auth_GetBearerToken ?e ?x] =>
      destruct (auth_GetBearerToken e x) eqn:?
  | |- context [auth_ValidateJWT ?e ?x ?y] =>
      destruct (auth_ValidateJWT e x y) eqn:?
  | |- context [db_GetVideo ?i ?w] =>
      unfold db_GetVideo; cbn [db emitW set_fs set_db];
      match goal with
      | |- context [@lookup _ _ _ _ ?j ?d] =>
          destruct (@lookup _ _ _ _ j d) eqn:?
      end
  | |- context [negb (N.eqb ?a ?b)] => destruct (N.eqb a b) eqn:?
  | |- context [ParseMultipartFormIO ?e ?x ?y ?w] =>
      unfold ParseMultipartFormIO; destruct (ParseMultipartForm e x y) eqn:?
  | |- context [ParseMultipartForm ?e ?x ?y] =>
      destruct (ParseMultipartForm e x y) eqn:?
  | |- context [FormFile ?e ?x ?y] => destruct (FormFile e x y) eqn:?
  | |- context [mime_ParseMediaType ?e ?x] =>
      destruct (mime_ParseMediaType e x) eqn:?
  | |- context [negb (String.eqb ?a ?b)] => destruct (String.eqb a b) eqn:?
  | |- context [os_CreateTempIO ?e ?x ?y ?w] =>
      unfold os_CreateTempIO; destruct (os_CreateTemp e x y) eqn:?
  | |- context [os_CreateIO ?e ?x ?w] =>
      unfold os_CreateIO; destruct (os_Create e x) eqn:?
  | |- context [io_Copy ?e ?x ?y] => destruct (io_Copy e x y) eqn:?
  | |- context [processVideoForFastStart ?e ?x ?w] =>
      unfold processVideoForFastStart;
      match goal with
      | |- context [ffmpeg_Run ?e' ?a ?b] =>
          let o := fresh "outputLeft" in
          destruct (ffmpeg_Run e' a b) as [|? o] eqn:?; [|destruct o]
      end
  | |- context [os_Open ?e ?x] => destruct (os_Open e x) eqn:?
  | |- context [rand_Read ?e ?x] => destruct (rand_Read e x) eqn:?
  | |- context [getVideoAspectRatio ?e ?x ?w] =>
      unfold getVideoAspectRatio;
      match goal with
      | |- context [ffprobe_Run ?e' ?a] =>
          destruct (ffprobe_Run e' a) eqn:?;
          [|match goal with
            | |- context [json_Unmarshal ?e'' ?b] =>
                destruct (json_Unmarshal e'' b) eqn:?
            end]
      end
  | |- context [uploadWithRetry ?e ?b ?k ?n ?w] =>
      rewrite (uploadWithRetry_specRetry e b k n w);
      let evs := fresh "evs" in
      let res := fresh "res" in
      destruct (specRetry e b k n 3 1) as [evs [res|]] eqn:?
  | |- context [db_UpdateVideoIO ?e ?v ?w] =>
      unfold db_UpdateVideoIO; destruct (db_UpdateVideo e v) eqn:?
  end; simpl_run.



(** ** Keys have no comma *)

Lemma forall_below_64 (P : N -> bool) :
  forallb P (map N.of_nat (seq 0 64)) = true ->
  forall k : N, (k < 64)%N -> P k = true.
Proof.
  intros H k Hk. rewrite forallb_forall in H. apply H.
  rewrite <- (N2Nat.id k). apply in_map. apply in_seq. lia.
Qed.

Lemma encodeChar_not_comma (v : N) :
  Ascii.eqb (base64.encodeChar v) ","%char = false.
Proof.
  unfold base64.encodeChar.
  change 63%N with (N.ones 6). rewrite N.land_ones.
  assert (B : (v mod 2 ^ 6 < 64)%N) by (apply N.mod_lt; discriminate).
  revert B. generalize (v mod 2 ^ 6)%N. intros k Hk.
  apply (forall_below_64
           (fun k => negb (Ascii.eqb
                       match String.get (N.to_nat k) base64.encodeURL with
                       | Some c => c
                       | None => "000"%char
                       end ","%char))) in Hk.
  - now apply negb_true_iff in Hk.
  - vm_compute. reflexivity.
Qed.

Lemma EncodeToString_no_comma (src : list ascii) :
  strings.Count (base64.EncodeToString src) ","%char = 0%nat.
Proof.
  remember (length src) as n eqn:Hn.
  revert src Hn. induction n as [n IH] using lt_wf_ind. intros src Hn.
  destruct src as [|a [|b [|c rest]]];
    cbn [base64.EncodeToString strings.Count];
    rewrite ?encodeChar_not_comma; try reflexivity.
  apply (IH (length rest)); [subst n; simpl; lia | reflexivity].
Qed.

Lemma categorizeAspectRatio_classification (width height : Z) :
  isClassification (categorizeAspectRatio width height).
Proof.
  unfold categorizeAspectRatio, isClassification.
  repeat match goal with
         | |- context [if ?c then _ else _] => destruct c
         end; auto.
Qed.

Lemma classifyStreams_classification (streams : list Stream) :
  isClassification (classifyStreams streams).
Proof.
  unfold classifyStreams. destruct streams as [|s0 ?].
  - right; right; reflexivity.
  - destruct ((Width s0 =? 0) || (Height s0 =? 0)).
    + right; right; reflexivity.
    + apply categorizeAspectRatio_classification.
Qed.

Lemma classification_no_comma (s : string) :
  isClassification s -> strings.Count s ","%char = 0%nat.
Proof. intros [-> | [-> | ->]]; reflexivity. Qed.

Lemma fileKey_no_comma (aspectRatio : string) (randomBytes : list ascii) :
  isClassification aspectRatio ->
  strings.Count
    (aspectRatio +:+ "/" +:+ base64.EncodeToString randomBytes +:+ ".mp4")
    ","%char = 0%nat.
Proof.
  intros H. rewrite !Count_app, (classification_no_comma _ H),
    EncodeToString_no_comma. reflexivity.
Qed.

(** ** The prober *)

(** C8: when the inspector runs and its output parses, and it reports no
    stream, or the first reported stream has a width or a height that is
    zero or absent, the prober returns the classification "other" and no
    error. *)
Theorem C8_no_dimensions_is_other
    (env : Env) (filePath stdout : string) (streams : list JSONStream)
    (w : World) :
  ffprobe_Run env filePath = inr stdout ->
  json_Unmarshal env stdout = inr streams ->
  (streams = []
   \/ exists s0 rest, streams = s0 :: rest
        /\ (json_width s0 = None \/ json_width s0 = Some 0
            \/ json_height s0 = None \/ json_height s0 = Some 0)) ->
  fst (getVideoAspectRatio env filePath w) = inr "other".
Proof.
  intros Hrun Hparse Hs. unfold getVideoAspectRatio.
  rewrite Hrun, Hparse. cbn [fst]. f_equal.
  destruct Hs as [-> | (s0 & rest & -> & Hdim)]; [reflexivity|].
  cbn [map classifyStreams]. unfold decodeStream; cbn [Width Height].
  destruct Hdim as [H | [H | [H | H]]]; rewrite H; cbn [default];
    rewrite ?Z.eqb_refl, ?orb_true_r; reflexivity.
Qed.

(** ** Video ingest: authorization comes first *)

(** C5, amended: identifier parsing, bearer-token authentication, metadata
    load and ownership verification all happen before any file I/O.  When
    one of them fails the request aborts before any temporary file is
    created and before any byte of the upload is staged; the failure is a
    bad-request failure (400) for an unparsable identifier, an
    authentication failure (401) for a missing or invalid token, a
    not-found failure (404) for a missing record, and a refusal with a
    status of the authentication and authorization class (401 or 403) for
    a caller who is not the owner. *)
Theorem C5_prechecks_before_file_io
    (cfg : apiConfig) (env : Env) (r : Request) (w : World) (p : Precheck) :
  failedPrecheck cfg env r w = Some p ->
  let resp := fst (serve (handlerUploadVideo cfg env r) w) in
  let w' := snd (serve (handlerUploadVideo cfg env r) w) in
  noFileIO w w'
  /\ match p with
     | BadIdentifier err =>
         resp = respondWithError http.StatusBadRequest "Invalid ID" (Some err)
     | MissingToken err =>
         resp = respondWithError http.StatusUnauthorized
                  "Couldn't find JWT" (Some err)
     | InvalidToken err =>
         resp = respondWithError http.StatusUnauthorized
                  "Couldn't validate JWT" (Some err)
     | NoRecord _ =>
         exists err, resp = respondWithError http.StatusNotFound
                              "Video not found" (Some err)
     | NotOwner _ _ =>
         authorizationClass (status resp)
         /\ exists msg, resp = respondWithError (status resp) msg None
     end.
Proof.
  unfold failedPrecheck. intros H. cbv zeta.
  run_handler.
  destruct (uuid_Parse env (PathValue_videoID r)) as [e|videoID];
    [injection H as <-; simpl_run; split;
     [apply noFileIO_refl | reflexivity]|].
  destruct (auth_GetBearerToken env (Header r)) as [e|token];
    [injection H as <-; simpl_run; split;
     [apply noFileIO_refl | reflexivity]|].
  destruct (auth_ValidateJWT env token (jwtSecret cfg)) as [e|userID];
    [injection H as <-; simpl_run; split;
     [apply noFileIO_refl | reflexivity]|].
  unfold db_GetVideo. simpl_run.
  destruct (db w !! videoID) as [video|].
  - destruct (N.eqb (UserID video) userID); [discriminate|].
    injection H as <-. simpl_run. split.
    + rewrite emitW_extend. now apply noFileIO_extend.
    + split; [left; reflexivity | eexists; reflexivity].
  - injection H as <-. simpl_run. split.
    + rewrite emitW_extend. now apply noFileIO_extend.
    + eexists; reflexivity.
Qed.

(** Conversely, when all the checks pass, the caller is the owner of an
    existing record. *)
Lemma failedPrecheck_None (cfg : apiConfig) (env : Env) (r : Request)
    (w : World) :
  failedPrecheck cfg env r w = None ->
  exists videoID token video,
    uuid_Parse env (PathValue_videoID r) = inr videoID
    /\ auth_GetBearerToken env (Header r) = inr token
    /\ auth_ValidateJWT env token (jwtSecret cfg) = inr (UserID video)
    /\ db w !! videoID = Some video.
Proof.
  unfold failedPrecheck. intros H.
  destruct (uuid_Parse env (PathValue_videoID r)) as [e|videoID] eqn:E1;
    [discriminate|].
  destruct (auth_GetBearerToken env (Header r)) as [e|token] eqn:E2;
    [discriminate|].
  destruct (auth_ValidateJWT env token (jwtSecret cfg)) as [e|userID] eqn:E3;
    [discriminate|].
  destruct (db w !! videoID) as [video|] eqn:E4; [|discriminate].
  destruct (N.eqb (UserID video) userID) eqn:E; [|discriminate].
  apply N.eqb_eq in E. subst userID. exists videoID, token, video. auto.
Qed.

(** ** Thumbnail ingest *)

(** Thumbnail ingest never answers with the Forbidden status. *)
Lemma handlerUploadThumbnail_never_forbidden
    (cfg : apiConfig) (env : Env) (r : Request) (w : World) :
  status (fst (serve (handlerUploadThumbnail cfg env r) w))
  <> http.StatusForbidden.
Proof.
  run_handler. repeat step_oracle; discriminate.
Qed.

(** ** Video ingest: what is left on disk *)

Lemma append_length (a b : string) :
  String.length (a +:+ b) = (String.length a + String.length b)%nat.
Proof. induction a as [|c a IH]; simpl; [reflexivity | now rewrite IH]. Qed.

Lemma append_suffix_neq (a b : string) : b <> "" -> a +:+ b <> a.
Proof.
  intros Hb E. apply (f_equal String.length) in E.
  rewrite append_length in E. destruct b; [contradiction | simpl in E; lia].
Qed.

Ltac simpl_fs := cbn [fs emitW set_fs set_db os_Remove extend].

(** A request that does not get to stage its upload changes no file. *)
Lemma ingest_without_staging (cfg : apiConfig) (env : Env) (r : Request)
    (w : World) :
  stagedUpload cfg env r w = None ->
  fs (snd (serve (handlerUploadVideo cfg env r) w)) = fs w.
Proof.
  unfold stagedUpload, failedPrecheck. intros H. revert H.
  run_handler. repeat step_oracle; intros H; try discriminate H; reflexivity.
Qed.

(** C4: what video ingest leaves on disk once the upload is staged in the
    temporary file [t].  On every exit path the temporary file is removed
    and all other files are as before; the output of the rewriter,
    [t.processing], is removed as well, except on one path: it is still on
    disk exactly when the rewriter has failed and left it. *)
Theorem C4_staged_files_after_ingest
    (cfg : apiConfig) (env : Env) (r : Request) (w : World)
    (t : string) (file : FormPart) :
  stagedUpload cfg env r w = Some (t, file) ->
  (t +:+ ".processing") ∉ fs w ->
  let w' := snd (serve (handlerUploadVideo cfg env r) w) in
  (t ∉ fs w')
  /\ (forall x : string,
        x <> t +:+ ".processing" -> x ∈ fs w' <-> x ∈ fs w /\ x <> t)
  /\ ((t +:+ ".processing") ∈ fs w'
      <-> io_Copy env t (Content file) = None
          /\ exists err,
               ffmpeg_Run env t (t +:+ ".processing") = FfmpegFailed err true).
Proof.
  unfold stagedUpload, failedPrecheck. intros H Hfresh. cbv zeta. revert H.
  assert (Hne : t +:+ ".processing" <> t) by (now apply append_suffix_neq).
  run_handler. repeat step_oracle; intros H; try discriminate H.
  all: injection H as -> ->.
  all: try match goal with
        | |- context [dbVideoToSignedVideo ?e ?v ?w0] =>
            pose proof (dbVideoToSignedVideo_fs e v w0) as Hfs;
            destruct (dbVideoToSignedVideo e v w0) as [[? [?|]] ?]
        end.
  all: simpl_run; simpl_fs.
  all: try (cbn [snd fs emitW set_fs set_db os_Remove extend] in Hfs; rewrite Hfs).
  all: split; [set_solver | split; [intros x Hx; set_solver|]].
  all: split; [|intros [Hc (? & Hf)]; try congruence; set_solver].
  all: try (intros Hin; exfalso; set_solver).
  all: intros _; split; [first [assumption | reflexivity]
                        | eexists; eassumption].
Qed.

(** ** The retry policy *)

Lemma specRetry_outcome (env : Env) (bucket fileKey name : string) :
  specRetry env bucket fileKey name 3 1
  = (snd (retryOutcome env bucket fileKey name),
     fst (retryOutcome env bucket fileKey name)).
Proof.
  unfold retryOutcome. cbn [specRetry].
  destruct (file_Seek env name 1); [reflexivity|].
  destruct (s3_PutObject env bucket fileKey 1); [|reflexivity].
  change (1 + 1) with 2.
  destruct (file_Seek env name 2); [reflexivity|].
  destruct (s3_PutObject env bucket fileKey 2); [|reflexivity].
  change (2 + 1) with 3.
  destruct (file_Seek env name 3); [reflexivity|].
  destruct (s3_PutObject env bucket fileKey 3); reflexivity.
Qed.

(** The third attempt, when it is made, is made on the loop's bucket and
    key, and its failure is the error that the loop surfaces. *)
Lemma specRetry_third_attempt (env : Env) (bucket fileKey name : string)
    (b k c : string) (err : error) :
  In (EvPutObject b k c 3) (fst (specRetry env bucket fileKey name 3 1)) ->
  s3_PutObject env b k 3 = Some err ->
  snd (specRetry env bucket fileKey name 3 1) = Some err.
Proof.
  rewrite specRetry_outcome. unfold retryOutcome. cbn [fst snd].
  repeat match goal with
         | |- context [match ?o with Some _ => _ | None => _ end] =>
             destruct o eqn:?
         end;
    cbn [fst snd In]; intros H E;
    repeat match goal with
           | H : _ \/ _ |- _ => destruct H as [H|H]
           | H : False |- _ => destruct H
           | H : EvPutObject _ _ _ _ = EvPutObject _ _ _ _ |- _ =>
               injection H as -> -> ->
           end; try discriminate; congruence.
Qed.

(** A successful loop has put the object under the loop's bucket and key. *)
Lemma specRetry_success (env : Env) (bucket fileKey name : string) :
  snd (specRetry env bucket fileKey name 3 1) = None ->
  exists n, In (EvPutObject bucket fileKey "video/mp4" n)
              (fst (specRetry env bucket fileKey name 3 1))
            /\ s3_PutObject env bucket fileKey n = None.
Proof.
  rewrite specRetry_outcome. unfold retryOutcome. cbn [fst snd].
  repeat match goal with
         | |- context [match ?o with Some _ => _ | None => _ end] =>
             destruct o eqn:?
         end;
    cbn [fst snd In]; intros H; try discriminate H.
  all: first [ exists 1; split; [cbn [In]; tauto | assumption]
             | exists 2; split; [cbn [In]; tauto | assumption]
             | exists 3; split; [cbn [In]; tauto | assumption] ].
Qed.

Lemma dbVideoToSignedVideo_extend (env : Env) (video : Video) (w : World) :
  exists evs,
    snd (dbVideoToSignedVideo env video w) = extend w evs
    /\ forall b k c n, ~ In (EvPutObject b k c n) evs.
Proof.
  unfold dbVideoToSignedVideo, generatePresignedURL.
  assert (N : exists evs, w = extend w evs
                          /\ forall b k c n, ~ In (EvPutObject b k c n) evs).
  { exists []. rewrite extend_nil. split; [reflexivity | intros ? ? ? ? []]. }
  destruct (VideoURL video) as [url|]; [|exact N].
  destruct (String.eqb url ""); [exact N|].
  destruct (strings.Split url ","%char) as [|b [|k [|x xs]]]; try exact N.
  exists [EvPresign b k (15 * time.Minute)].
  split.
  - destruct (s3_PresignGetObject env b k (15 * time.Minute)); reflexivity.
  - intros ? ? ? ? [H|[]]. discriminate H.
Qed.

Ltac simpl_trace :=
  unfold newEvents;
  cbn [trace emitW set_fs set_db os_Remove extend];
  rewrite <- ?app_assoc;
  first [rewrite drop_app_length | rewrite drop_all];
  cbn [app].

Ltac split_In :=
  repeat match goal with
         | H : In _ (_ :: _) |- _ => destruct H as [H|H]; [try discriminate H|]
         | H : In _ (_ ++ _) |- _ => apply in_app_or in H; destruct H as [H|H]
         | H : In _ [] |- _ => destruct H
         end.

(** A failed third upload attempt is what the handler reports. *)
Lemma handlerUploadVideo_exhausted
    (cfg : apiConfig) (env : Env) (r : Request) (w : World)
    (b k c : string) (err : error) :
  In (EvPutObject b k c 3)
     (newEvents w (snd (serve (handlerUploadVideo cfg env r) w))) ->
  s3_PutObject env b k 3 = Some err ->
  fst (serve (handlerUploadVideo cfg env r) w)
  = respondWithError http.StatusInternalServerError
      "Failed to upload to S3 after retries" (Some err).
Proof.
  run_handler. repeat step_oracle.
  all: try match goal with
        | |- context [dbVideoToSignedVideo ?e ?v ?w0] =>
            let evs' := fresh "evs'" in
            let Hw := fresh "Hw" in
            let Hp := fresh "Hp" in
            destruct (dbVideoToSignedVideo_extend e v w0) as (evs' & Hw & Hp);
            destruct (dbVideoToSignedVideo e v w0) as [[? [?|]] ?];
            cbn [snd] in Hw; subst
        end.
  all: simpl_run; simpl_trace; intros HIn HPut; split_In.
  all: try match goal with
        | H : In _ ?evs, E : specRetry _ _ _ _ 3 1 = (?evs, _) |- _ =>
            pose proof (specRetry_third_attempt _ _ _ _ _ _ _ _
                          ltac:(rewrite E; exact H) HPut) as Hthird;
            rewrite E in Hthird; cbn [snd] in Hthird
        end.
  all: try discriminate; try congruence.
  all: try (exfalso; eapply Hp; eassumption).
Qed.

(** ** Stored references *)

Lemma Count_pos_nonempty (s : string) (c : ascii) :
  strings.Count s c <> 0%nat -> s <> "".
Proof. intros H ->. now apply H. Qed.

(** A reference joined from a bucket and a key without commas resolves to
    a presigned-URL request for that bucket and that key. *)
Lemma resolve_joined_reference (env : Env) (video : Video)
    (bucket key : string) (w : World) :
  VideoURL video = Some (bucket +:+ "," +:+ key) ->
  strings.Count bucket ","%char = 0%nat ->
  strings.Count key ","%char = 0%nat ->
  dbVideoToSignedVideo env video w =
    match s3_PresignGetObject env bucket key (15 * time.Minute) with
    | inl err =>
        ((video, Some (Wrap "failed to generate presigned URL: " err)),
         extend w [EvPresign bucket key (15 * time.Minute)])
    | inr url =>
        ((set_VideoURL (Some url) video, None),
         extend w [EvPresign bucket key (15 * time.Minute)])
    end.
Proof.
  intros Hv Hb Hk.
  assert (Hne : bucket +:+ "," +:+ key <> "").
  { apply (Count_pos_nonempty _ ","%char).
    rewrite !Count_app. simpl. lia. }
  pose proof (dbVideoToSignedVideo_parts env video _ w Hv Hne) as P.
  change (bucket +:+ "," +:+ key) with (bucket +:+ String ","%char key) in P.
  rewrite (Split_join2 ","%char bucket key Hb Hk) in P. exact P.
Qed.


(** ** The retry loop of video ingest *)

(** C1: the upload loop makes at most three attempts; it repositions the
    file before every attempt, the first included, and aborts at once with
    the repositioning error when that fails; an attempt without error ends
    the loop; there is no pause before attempt 1, a pause of one second
    before attempt 2 and of two seconds before attempt 3, and none after
    the last failed attempt; when the third attempt fails its error is the
    one surfaced, and the handler reports it as the failure to upload.  The
    loop does what the retry policy prescribes. *)
Theorem C1_upload_retry_policy
    (cfg : apiConfig) (env : Env) (r : Request) (w w0 : World)
    (bucket fileKey name : string) :
  let outcome := retryOutcome env bucket fileKey name in
  uploadWithRetry env bucket fileKey name w0
    = (fst outcome, extend w0 (snd outcome))
  /\ specRetry env bucket fileKey name 3 1 = (snd outcome, fst outcome)
  /\ (length (List.filter isPutObject (snd outcome)) <= 3)%nat
  /\ (exists k, List.filter isSleep (snd outcome)
                = firstn k [EvSleep (1 * time.Second);
                            EvSleep (2 * time.Second)])
  /\ (forall d, last (snd outcome) <> Some (EvSleep d))
  /\ (forall (b k c : string) (err : error),
        In (EvPutObject b k c 3)
           (newEvents w (snd (serve (handlerUploadVideo cfg env r) w))) ->
        s3_PutObject env b k 3 = Some err ->
        fst (serve (handlerUploadVideo cfg env r) w)
        = respondWithError http.StatusInternalServerError
            "Failed to upload to S3 after retries" (Some err)).
Proof.
  cbv zeta. split; [|split; [|split; [|split; [|split]]]].
  - rewrite uploadWithRetry_specRetry, specRetry_outcome. reflexivity.
  - apply specRetry_outcome.
  - unfold retryOutcome.
    repeat match goal with
           | |- context [match ?o with Some _ => _ | None => _ end] =>
               destruct o
           end; vm_compute; lia.
  - unfold retryOutcome.
    repeat match goal with
           | |- context [match ?o with Some _ => _ | None => _ end] =>
               destruct o
           end;
      first [ exists 0%nat; reflexivity
            | exists 1%nat; reflexivity
            | exists 2%nat; reflexivity ].
  - intros d. unfold retryOutcome.
    repeat match goal with
           | |- context [match ?o with Some _ => _ | None => _ end] =>
               destruct o
           end; discriminate.
  - intros b k c err. apply handlerUploadVideo_exhausted.
Qed.

(** ** Concrete runs *)

(** C3: the stored references "bucket-x," and ",key-y" have an empty
    component, so they do not consist of two non-empty components; all the
    same the resolver does not fail with InvalidReferenceFormat on them,
    whatever the object store answers: it asks for a presigned URL, of
    bucket "bucket-x" and the empty key for the first, of the empty bucket
    and key "key-y" for the second, and returns what the presigner
    returns. *)
Lemma C3_counterexample :
  VideoURL (exampleVideo (Some "bucket-x,")) = Some "bucket-x,"
  /\ ~ twoNonEmptyComponents "bucket-x,"
  /\ ~ twoNonEmptyComponents ",key-y"
  /\ (forall (env : Env) (w : World),
        snd (fst (dbVideoToSignedVideo env (exampleVideo (Some "bucket-x,"))
                    w))
        <> Some (InvalidReferenceFormat "bucket-x,")
        /\ newEvents w
             (snd (dbVideoToSignedVideo env (exampleVideo (Some "bucket-x,"))
                     w))
           = [EvPresign "bucket-x" "" (15 * time.Minute)])
  /\ (forall (env : Env) (w : World),
        snd (fst (dbVideoToSignedVideo env (exampleVideo (Some ",key-y")) w))
        <> Some (InvalidReferenceFormat ",key-y")
        /\ newEvents w
             (snd (dbVideoToSignedVideo env (exampleVideo (Some ",key-y")) w))
           = [EvPresign "" "key-y" (15 * time.Minute)]).
Proof.
  assert (N : forall ref b k,
            strings.Split ref ","%char = [b; k] -> b = "" \/ k = "" ->
            ~ twoNonEmptyComponents ref).
  { intros ref b k Hs He (b' & k' & E & Hb & Hk & Cb & Ck).
    pose proof (Split_join2 ","%char b' k' Cb Ck) as S.
    change (b' +:+ String ","%char k') with (b' +:+ "," +:+ k') in S.
    rewrite <- E, Hs in S. injection S as <- <-.
    destruct He; contradiction. }
  split; [reflexivity|].
  split; [apply (N _ "bucket-x" ""); [reflexivity | right; reflexivity]|].
  split; [apply (N _ "" "key-y"); [reflexivity | left; reflexivity]|].
  split; intros env w;
    unfold dbVideoToSignedVideo, generatePresignedURL;
    cbn [VideoURL exampleVideo String.eqb Ascii.eqb Bool.eqb strings.Split];
    match goal with
    | |- context [s3_PresignGetObject ?e ?b ?k ?d] =>
        destruct (s3_PresignGetObject e b k d)
    end;
    cbn [fst snd]; rewrite emitW_extend, newEvents_extend;
    (split; [discriminate | reflexivity]).
Qed.

(** The resolver on the stored reference "bucket-x,key-y". *)
Lemma C3_witness :
  (snd (fst (dbVideoToSignedVideo happyEnv
               (exampleVideo (Some "bucket-x,key-y")) exampleWorld))
     = Some (InvalidReferenceFormat "bucket-x,key-y")
   <-> strings.Count "bucket-x,key-y" ","%char <> 1%nat)
  /\ (forall bucket key : string,
        "bucket-x,key-y" = bucket +:+ "," +:+ key ->
        strings.Count bucket ","%char = 0%nat ->
        strings.Count key ","%char = 0%nat ->
        newEvents exampleWorld
          (snd (dbVideoToSignedVideo happyEnv
                  (exampleVideo (Some "bucket-x,key-y")) exampleWorld))
          = [EvPresign bucket key (15 * time.Minute)])
  /\ ("bucket-x,key-y" = "bucket-x,key-y" ->
        newEvents exampleWorld
          (snd (dbVideoToSignedVideo happyEnv
                  (exampleVideo (Some "bucket-x,key-y")) exampleWorld))
          = [EvPresign "bucket-x" "key-y" (15 * time.Minute)]).
Proof.
  apply (C3_resolver_reference_format happyEnv
           (exampleVideo (Some "bucket-x,key-y")) "bucket-x,key-y" exampleWorld);
    [reflexivity | discriminate].
Defined.

(** C5: a request whose identifier does not parse fails the first check
    and is answered with status 400, which is not an authorization
    failure. *)
Lemma C5_counterexample :
  failedPrecheck exampleConfig badIdEnv exampleRequest exampleWorld
    = Some (BadIdentifier (NewError "invalid UUID length"))
  /\ status (fst (serve (handlerUploadVideo exampleConfig badIdEnv
                           exampleRequest) exampleWorld))
     = http.StatusBadRequest
  /\ ~ authorizationClass
         (status (fst (serve (handlerUploadVideo exampleConfig badIdEnv
                                exampleRequest) exampleWorld))).
Proof.
  split; [reflexivity|]. split; [reflexivity|].
  intros [H|H]; discriminate H.
Qed.

(** Video ingest refuses user 2, who does not own the video, before any
    file I/O. *)
Lemma C5_witness :
  noFileIO exampleWorld
    (snd (serve (handlerUploadVideo exampleConfig strangerEnv exampleRequest)
            exampleWorld))
  /\ authorizationClass
       (status (fst (serve (handlerUploadVideo exampleConfig strangerEnv
                              exampleRequest) exampleWorld)))
  /\ exists msg,
       fst (serve (handlerUploadVideo exampleConfig strangerEnv exampleRequest)
              exampleWorld)
       = respondWithError
           (status (fst (serve (handlerUploadVideo exampleConfig strangerEnv
                                  exampleRequest) exampleWorld))) msg None.
Proof.
  apply (C5_prechecks_before_file_io exampleConfig strangerEnv exampleRequest
           exampleWorld (NotOwner (exampleVideo None) 2%N)).
  reflexivity.
Defined.

(** C7: in thumbnail ingest a caller with a valid token who is not the
    owner of the video is answered with status 401 Unauthorized, the very
    status of an invalid token, and not with 403 Forbidden, which is what
    the owner check of the delete handler answers. *)
Theorem C7_thumbnail_stranger_gets_unauthorized :
  fst (serve (handlerUploadThumbnail exampleConfig strangerEnv exampleRequest)
         exampleWorld)
  = respondWithError http.StatusUnauthorized "User is not the video owner" None
  /\ status (fst (serve (handlerUploadThumbnail exampleConfig badTokenEnv
                           exampleRequest) exampleWorld))
     = http.StatusUnauthorized
  /\ handlerVideoMetaDelete_ownerCheck (exampleVideo None) 2%N
     = Some (respondWithError http.StatusForbidden
               "You can't delete this video" None)
  /\ (forall (cfg : apiConfig) (env : Env) (r : Request) (w : World),
        status (fst (serve (handlerUploadThumbnail cfg env r) w))
        <> http.StatusForbidden).
Proof.
  split; [vm_compute; reflexivity|].
  split; [vm_compute; reflexivity|].
  split; [reflexivity|].
  apply handlerUploadThumbnail_never_forbidden.
Qed.

(** The remux process fails after it has created its output: the
    temporary file is removed, the output stays. *)
Lemma C4_witness :
  ("/tmp/tubely-upload-42.mp4" ∉
     fs (snd (serve (handlerUploadVideo exampleConfig failedRemuxEnv
                       exampleRequest) exampleWorld)))
  /\ (forall x : string,
        x <> "/tmp/tubely-upload-42.mp4" +:+ ".processing" ->
        x ∈ fs (snd (serve (handlerUploadVideo exampleConfig failedRemuxEnv
                              exampleRequest) exampleWorld))
        <-> x ∈ fs exampleWorld /\ x <> "/tmp/tubely-upload-42.mp4")
  /\ (("/tmp/tubely-upload-42.mp4" +:+ ".processing") ∈
        fs (snd (serve (handlerUploadVideo exampleConfig failedRemuxEnv
                          exampleRequest) exampleWorld))
      <-> io_Copy failedRemuxEnv "/tmp/tubely-upload-42.mp4" "mp4-bytes" = None
          /\ exists err,
               ffmpeg_Run failedRemuxEnv "/tmp/tubely-upload-42.mp4"
                 ("/tmp/tubely-upload-42.mp4" +:+ ".processing")
               = FfmpegFailed err true).
Proof.
  apply (C4_staged_files_after_ingest exampleConfig failedRemuxEnv
           exampleRequest exampleWorld "/tmp/tubely-upload-42.mp4"
           {| ContentType := "video/mp4"; Content := "mp4-bytes" |}).
  - reflexivity.
  - apply not_elem_of_empty.
Defined.

(** The inspector reports no stream. *)
Lemma C8_witness :
  fst (getVideoAspectRatio noStreamEnv "/tmp/tubely-upload-42.mp4.processing"
         exampleWorld) = inr "other".
Proof.
  apply (C8_no_dimensions_is_other noStreamEnv
           "/tmp/tubely-upload-42.mp4.processing" "{streams}" [] exampleWorld).
  - reflexivity.
  - reflexivity.
  - left. reflexivity.
Defined.


(** * Binary64 arithmetic of the classifier *)

(** ** Mantissas *)

Lemma digits2_pos_bounds (p : positive) :
  2 ^ (Z.pos (digits2_pos p) - 1) <= Z.pos p < 2 ^ Z.pos (digits2_pos p).
Proof.
  induction p as [p IH | p IH |]; cbn [digits2_pos].
  - rewrite Pos2Z.inj_succ.
    replace (Z.succ (Z.pos (digits2_pos p)) - 1)
      with (Z.succ (Z.pos (digits2_pos p) - 1)) by lia.
    rewrite !Z.pow_succ_r by lia. lia.
  - rewrite Pos2Z.inj_succ.
    replace (Z.succ (Z.pos (digits2_pos p)) - 1)
      with (Z.succ (Z.pos (digits2_pos p) - 1)) by lia.
    rewrite !Z.pow_succ_r by lia. lia.
  - simpl. lia.
Qed.

(** The number of binary digits of a mantissa is fixed by its size. *)
Lemma digits2_pos_eq (p : positive) (d : Z) :
  2 ^ (d - 1) <= Z.pos p < 2 ^ d -> 0 < d -> Z.pos (digits2_pos p) = d.
Proof.
  intros [Hlo Hhi] Hd.
  pose proof (digits2_pos_bounds p) as [Blo Bhi].
  destruct (Z.lt_trichotomy (Z.pos (digits2_pos p)) d) as [L | [E | G]];
    [exfalso | exact E | exfalso].
  - assert (2 ^ Z.pos (digits2_pos p) <= 2 ^ (d - 1))
      by (apply Z.pow_le_mono_r; lia).
    lia.
  - assert (2 ^ d <= 2 ^ (Z.pos (digits2_pos p) - 1))
      by (apply Z.pow_le_mono_r; lia).
    lia.
Qed.

Lemma iter_xO_mul (p k : positive) :
  Z.pos (Pos.iter xO p k) = Z.pos p * 2 ^ Z.pos k.
Proof.
  induction k as [|k IH] using Pos.peano_ind.
  - cbn [Pos.iter]. rewrite Pos2Z.inj_xO. change (2 ^ 1) with 2. lia.
  - rewrite Pos.iter_succ, Pos2Z.inj_xO, IH, Pos2Z.inj_succ,
      Z.pow_succ_r by lia. lia.
Qed.

Lemma Zdigits2_normal53 (m : positive) :
  normal53 (Z.pos m) -> Zdigits2 (Z.pos m) = 53.
Proof. intros H. apply digits2_pos_eq; [exact H | lia]. Qed.

Lemma fexp_normal (e : Z) :
  -1074 <= e -> fexp prec emax (53 + e) = e.
Proof. intros H. unfold fexp, SpecFloat.emin, prec, emax. lia. Qed.

(** Rounding a 53-bit mantissa that is exact leaves it alone. *)
Lemma binary_round_aux_exact (s : bool) (m : positive) (e : Z) :
  normal53 (Z.pos m) -> -1074 <= e <= 971 ->
  binary_round_aux prec emax s (Z.pos m) e loc_Exact = S754_finite s m e.
Proof.
  intros Hm He. unfold binary_round_aux, shr_fexp.
  rewrite (Zdigits2_normal53 m Hm), (fexp_normal e) by lia.
  rewrite Z.sub_diag. cbn [shr shr_record_of_loc shr_m loc_of_shr_record
                            round_nearest_even].
  rewrite (Zdigits2_normal53 m Hm), (fexp_normal e) by lia.
  rewrite Z.sub_diag. cbn [shr shr_record_of_loc shr_m].
  assert (L : (e <=? emax - prec) = true) by (apply Z.leb_le; unfold emax, prec; lia).
  rewrite L. reflexivity.
Qed.


Lemma pow2_53_split (d : Z) :
  1 <= d <= 53 ->
  2 ^ 52 = 2 ^ (d - 1) * 2 ^ (53 - d) /\ 2 ^ 53 = 2 ^ d * 2 ^ (53 - d).
Proof.
  intros Hd. rewrite <- !Z.pow_add_r by lia. split; f_equal; lia.
Qed.

Lemma digits2_pos_le_53 (p : positive) :
  Z.pos p < 2 ^ 53 -> 1 <= Z.pos (digits2_pos p) <= 53.
Proof.
  intros H. pose proof (digits2_pos_bounds p) as [Blo _].
  split; [lia|].
  destruct (Z_le_gt_dec (Z.pos (digits2_pos p)) 53) as [L|G]; [exact L|].
  exfalso.
  assert (2 ^ 53 <= 2 ^ (Z.pos (digits2_pos p) - 1))
    by (apply Z.pow_le_mono_r; lia).
  lia.
Qed.

(** Shifting a mantissa of [d] digits left by [53 - d] makes it normal. *)
Lemma normal53_shift (p : positive) (n : Z) :
  n = 53 - Z.pos (digits2_pos p) -> 0 <= n ->
  normal53 (Z.pos p * 2 ^ n).
Proof.
  intros -> Hn. pose proof (digits2_pos_bounds p) as [Blo Bhi].
  assert (Hd : 1 <= Z.pos (digits2_pos p) <= 53) by lia.
  destruct (pow2_53_split _ Hd) as [E52 E53].
  unfold normal53. rewrite E52, E53.
  assert (0 < 2 ^ (53 - Z.pos (digits2_pos p)))
    by (apply Z.pow_pos_nonneg; lia).
  split; [apply Z.mul_le_mono_nonneg_r | apply Z.mul_lt_mono_pos_r]; lia.
Qed.

(** The conversion of a positive integer below [2^53] is exact: the result
    is the integer, with its mantissa shifted to 53 bits. *)
Lemma binary_normalize_int (w : Z) :
  0 < w < 2 ^ 53 ->
  exists (m : positive) (n : Z),
    0 <= n <= 52 /\ Z.pos m = w * 2 ^ n /\ normal53 (Z.pos m)
    /\ binary_normalize prec emax w 0 false = S754_finite false m (- n).
Proof.
  intros [Hpos Hlt]. destruct w as [|p|p]; try lia.
  cbn [binary_normalize]. unfold binary_round.
  pose proof (digits2_pos_le_53 p Hlt) as Hd.
  rewrite Z.add_0_r.
  assert (F : fexp prec emax (Z.pos (digits2_pos p))
              = Z.pos (digits2_pos p) - 53)
    by (unfold fexp, SpecFloat.emin, prec, emax; lia).
  rewrite F. unfold shl_align. rewrite Z.sub_0_r.
  destruct (Z.pos (digits2_pos p) - 53) as [|k|k] eqn:K; try lia.
  - exists p, 0.
    assert (N : normal53 (Z.pos p)).
    { replace (Z.pos p) with (Z.pos p * 2 ^ 0) by (rewrite Z.pow_0_r; lia).
      apply normal53_shift; lia. }
    split; [lia|]. split; [rewrite Z.pow_0_r; lia|]. split; [exact N|].
    apply binary_round_aux_exact; [exact N | lia].
  - exists (Pos.iter xO p k), (Z.pos k).
    assert (N : normal53 (Z.pos (Pos.iter xO p k))).
    { rewrite iter_xO_mul. apply normal53_shift; lia. }
    split; [lia|]. split; [apply iter_xO_mul|]. split; [exact N|].
    change (Z.neg k) with (- Z.pos k).
    apply binary_round_aux_exact; [exact N | lia].
Qed.

(** ** Rounding a quotient *)

Lemma new_location_locates (d r : Z) :
  0 <= r < d -> locates (new_location d r) r d.
Proof.
  intros Hr. unfold new_location, new_location_even, new_location_odd.
  destruct (Z.even d) eqn:Ev; destruct (Z.eqb_spec r 0) as [E|N];
    try (exact E).
  - destruct (Z.compare_spec (2 * r) d); cbn [locates]; lia.
  - apply Bool.negb_true_iff in Ev. rewrite Z.negb_even in Ev.
    apply Z.odd_spec in Ev. destruct Ev as [k Hk].
    destruct (Z.compare_spec (2 * r + 1) d); cbn [locates]; lia.
Qed.

Lemma shr_fexp_53 (m : positive) (e : Z) (l : location) :
  normal53 (Z.pos m) -> -1074 <= e ->
  shr_fexp prec emax (Z.pos m) e l = (shr_record_of_loc (Z.pos m) l, e).
Proof.
  intros Hm He. unfold shr_fexp.
  rewrite (Zdigits2_normal53 m Hm), (fexp_normal e) by lia.
  rewrite Z.sub_diag. reflexivity.
Qed.

Lemma shr_fexp_54 (m : positive) (e : Z) (l : location) :
  2 ^ 53 <= Z.pos m < 2 ^ 54 -> -1074 <= e ->
  shr_fexp prec emax (Z.pos m) e l
  = (shr_1 (shr_record_of_loc (Z.pos m) l), e + 1).
Proof.
  intros Hm He. unfold shr_fexp.
  assert (D : Zdigits2 (Z.pos m) = 54) by (apply digits2_pos_eq; [exact Hm | lia]).
  rewrite D.
  assert (F : fexp prec emax (54 + e) - e = 1)
    by (unfold fexp, SpecFloat.emin, prec, emax; lia).
  rewrite F. reflexivity.
Qed.

Lemma loc_of_shr_record_of_loc (m : Z) (l : location) :
  loc_of_shr_record (shr_record_of_loc m l) = l
  /\ shr_m (shr_record_of_loc m l) = m.
Proof. destruct l as [|[| |]]; split; reflexivity. Qed.

(** Rounding a 53-bit quotient [q] with remainder [r]: the result is [q]
    or [q + 1], within half a unit of the exact quotient. *)
Lemma round_quotient_53 (q d r : Z) (l : location) :
  0 <= r < d -> locates l r d ->
  let mr := round_nearest_even q l in
  (mr = q \/ mr = q + 1)
  /\ Z.abs (2 * mr * d - 2 * (d * q + r)) <= d.
Proof.
  intros Hr Hl. cbv zeta.
  destruct l as [|[| |]]; cbn [locates round_nearest_even] in *.
  - split; [left; reflexivity | lia].
  - destruct (Z.even q); split; auto; lia.
  - split; [left; reflexivity | lia].
  - split; [right; reflexivity | lia].
Qed.


(** Rounding a 54-bit quotient: the last bit is shifted out first. *)
Lemma round_quotient_54 (q : positive) (d r : Z) (l : location) :
  0 <= r < d -> locates l r d ->
  let mrs := shr_1 (shr_record_of_loc (Z.pos q) l) in
  let mr := round_nearest_even (shr_m mrs) (loc_of_shr_record mrs) in
  (Z.pos q - 1 <= 2 * mr <= Z.pos q + 1)
  /\ Z.abs (4 * mr * d - 2 * (d * Z.pos q + r)) <= 2 * d.
Proof.
  intros Hr Hl. cbv zeta.
  destruct l as [|[| |]]; destruct q as [p|p|];
    cbn [locates shr_1 shr_record_of_loc shr_m loc_of_shr_record
         round_nearest_even orb] in *.
  all: try match goal with
        | |- context [Z.even ?x] => destruct (Z.even x)
        end.
  all: split; lia.
Qed.

(** The last step of rounding: a mantissa that has become [2^53] is
    shifted once more. *)
Lemma round_finish (s : bool) (mr e : Z) :
  2 ^ 52 <= mr <= 2 ^ 53 -> -1074 <= e <= 970 ->
  exists (mz : positive) (t : Z),
    (t = 0 \/ t = 1) /\ normal53 (Z.pos mz) /\ Z.pos mz * 2 ^ t = mr
    /\ (let '(mrs, e') := shr_fexp prec emax mr e loc_Exact in
        match shr_m mrs with
        | Z0 => S754_zero s
        | Z.pos m =>
            if e' <=? emax - prec then S754_finite s m e' else S754_infinity s
        | Z.neg _ => S754_nan
        end) = S754_finite s mz (e + t).
Proof.
  intros Hm He.
  destruct (Z_lt_le_dec mr (2 ^ 53)) as [L|G].
  - destruct mr as [|m|m]; try lia.
    exists m, 0.
    assert (N : normal53 (Z.pos m)) by (unfold normal53; lia).
    split; [left; reflexivity|]. split; [exact N|].
    split; [rewrite Z.pow_0_r; lia|].
    rewrite (shr_fexp_53 m e loc_Exact N) by lia.
    cbn [shr_record_of_loc shr_m].
    assert (B : (e <=? emax - prec) = true)
      by (apply Z.leb_le; unfold emax, prec; lia).
    rewrite B, Z.add_0_r. reflexivity.
  - assert (E : mr = 2 ^ 53) by lia. subst mr.
    exists 4503599627370496%positive, 1.
    split; [right; reflexivity|].
    split; [unfold normal53; split; [reflexivity | reflexivity]|].
    split; [reflexivity|].
    change (2 ^ 53) with (Z.pos 9007199254740992).
    rewrite (shr_fexp_54 9007199254740992 e loc_Exact) by (first [split; [discriminate | reflexivity] | lia]).
    cbn [shr_record_of_loc shr_1 shr_m orb].
    assert (B : (e + 1 <=? emax - prec) = true)
      by (apply Z.leb_le; unfold emax, prec; lia).
    rewrite B. reflexivity.
Qed.

Lemma binary_round_aux_unfold (s : bool) (mx ex : Z) (lx : location) :
  binary_round_aux prec emax s mx ex lx =
  let '(mrs', e') := shr_fexp prec emax mx ex lx in
  let '(mrs'', e'') :=
    shr_fexp prec emax
      (round_nearest_even (shr_m mrs') (loc_of_shr_record mrs')) e' loc_Exact in
  match shr_m mrs'' with
  | Z0 => S754_zero s
  | Z.pos m =>
      if e'' <=? emax - prec then S754_finite s m e'' else S754_infinity s
  | Z.neg _ => S754_nan
  end.
Proof. reflexivity. Qed.

(** Division of two normal positive numbers whose exponents are those of
    integers below [2^53]: the quotient is normal, and it is within half a
    unit in the last place of the exact quotient of the mantissas. *)
Lemma SFdiv_normal (m1 m2 : positive) (e1 e2 : Z) :
  normal53 (Z.pos m1) -> normal53 (Z.pos m2) ->
  -52 <= e1 <= 0 -> -52 <= e2 <= 0 ->
  exists (mz : positive) (t : Z),
    0 <= t <= 2 /\ normal53 (Z.pos mz)
    /\ SFdiv prec emax (S754_finite false m1 e1) (S754_finite false m2 e2)
       = S754_finite false mz (e1 - e2 - 53 + t)
    /\ Z.abs (2 * (Z.pos mz * 2 ^ t) * Z.pos m2 - 2 * (Z.pos m1 * 2 ^ 53))
       <= 2 ^ t * Z.pos m2.
Proof.
  intros N1 N2 He1 He2.
  unfold SFdiv, SFdiv_core_binary. cbn [xorb].
  rewrite (Zdigits2_normal53 m1 N1), (Zdigits2_normal53 m2 N2).
  assert (E' : Z.min (fexp prec emax (53 + e1 - (53 + e2))) (e1 - e2)
               = e1 - e2 - 53)
    by (unfold fexp, SpecFloat.emin, prec, emax; lia).
  rewrite E'.
  replace (e1 - e2 - (e1 - e2 - 53)) with 53 by lia.
  rewrite Z.shiftl_mul_pow2 by lia.
  pose proof (Z_div_mod (Z.pos m1 * 2 ^ 53) (Z.pos m2) ltac:(lia)) as DM.
  destruct (Z.div_eucl (Z.pos m1 * 2 ^ 53) (Z.pos m2)) as [q r].
  destruct DM as [DM Hr].
  pose proof (new_location_locates (Z.pos m2) r Hr) as Hloc.
  unfold normal53 in N1, N2.
  assert (Hq : 2 ^ 52 <= q < 2 ^ 54) by (split; nia).
  rewrite binary_round_aux_unfold.
  destruct q as [|q|q]; try lia.
  destruct (Z_lt_le_dec (Z.pos q) (2 ^ 53)) as [A|B].
  - (* the quotient has 53 bits *)
    rewrite (shr_fexp_53 q (e1 - e2 - 53) _ ltac:(unfold normal53; lia))
      by lia.
    destruct (loc_of_shr_record_of_loc (Z.pos q) (new_location (Z.pos m2) r))
      as [-> ->].
    destruct (round_quotient_53 (Z.pos q) (Z.pos m2) r _ Hr Hloc)
      as [Hmr Herr].
    destruct (round_finish false
                (round_nearest_even (Z.pos q) (new_location (Z.pos m2) r))
                (e1 - e2 - 53) ltac:(lia) ltac:(lia))
      as (mz & t & Ht & Nz & Hmz & Hres).
    exists mz, t. split; [lia|]. split; [exact Nz|]. split; [exact Hres|].
    rewrite Hmz, DM.
    assert (Z.pos m2 <= 2 ^ t * Z.pos m2)
      by (destruct Ht as [-> | ->]; [rewrite Z.pow_0_r | rewrite Z.pow_1_r]; lia).
    lia.
  - (* the quotient has 54 bits *)
    rewrite (shr_fexp_54 q (e1 - e2 - 53) _ ltac:(lia)) by lia.
    pose proof (round_quotient_54 q (Z.pos m2) r _ Hr Hloc) as H54.
    cbv zeta in H54.
    set (mr := round_nearest_even _ _) in *.
    destruct H54 as [Hmr Herr].
    destruct (round_finish false mr (e1 - e2 - 53 + 1)
                ltac:(lia) ltac:(lia))
      as (mz & t & Ht & Nz & Hmz & Hres).
    exists mz, (1 + t). split; [lia|]. split; [exact Nz|].
    split; [rewrite Hres; f_equal; lia|].
    rewrite Z.pow_add_r, Z.pow_1_r by lia.
    replace (Z.pos mz * (2 * 2 ^ t)) with (2 * (Z.pos mz * 2 ^ t)) by lia.
    rewrite Hmz, DM.
    assert (2 * Z.pos m2 <= 2 * 2 ^ t * Z.pos m2)
      by (destruct Ht as [-> | ->]; [rewrite Z.pow_0_r | rewrite Z.pow_1_r]; lia).
    lia.
Qed.

(** ** Comparing normal numbers *)

Lemma SFleb_finite (m1 m2 : positive) (e1 e2 : Z) :
  SFleb (S754_finite false m1 e1) (S754_finite false m2 e2) = true
  <-> e1 < e2 \/ (e1 = e2 /\ Z.pos m1 <= Z.pos m2).
Proof.
  unfold SFleb, SFcompare.
  destruct (Z.compare_spec e1 e2) as [E|L|G].
  - rewrite Pos.compare_cont_spec. unfold Pos.switch_Eq.
    destruct (Pos.compare_spec m1 m2); split; intros ?;
      try discriminate; try reflexivity; lia.
  - split; [left; exact L | reflexivity].
  - split; [discriminate | lia].
Qed.

(** ** Thresholds

    A normal number [mz * 2^ez] within half a unit in the last place of
    [w / h] is compared with a normal constant [mc * 2^ec] that is next to
    a fraction [a / b]: as long as [h] is not too large, the comparison of
    the two numbers is the comparison of [w / h] with [a / b]. *)

Section Threshold.
Variables (mc ec : Z).
Variables (w h mz ez : Z).

Hypothesis Hec : ec <= 1.
Hypothesis Hez : ez <= 1.
Hypothesis Hw : 0 < w.
Hypothesis Hh : 0 < h.
Hypothesis Hmz : normal53 mz.

(** The numerator [w], scaled for the exponent of the quotient and for the
    exponent of the constant. *)
Lemma scaled_numerator :
  (ez = ec -> 2 ^ (1 - ez) * w = 2 ^ (1 - ec) * w)
  /\ (ez < ec -> 2 * (2 ^ (1 - ec) * w) <= 2 ^ (1 - ez) * w)
  /\ (ec < ez -> 2 * (2 ^ (1 - ez) * w) <= 2 ^ (1 - ec) * w).
Proof.
  split; [intros ->; reflexivity|]. split; intros L.
  - replace (1 - ez) with (1 + (1 - ec) + (ec - ez - 1)) by lia.
    rewrite !Z.pow_add_r, Z.pow_1_r by lia.
    assert (0 < 2 ^ (ec - ez - 1)) by (apply Z.pow_pos_nonneg; lia).
    assert (0 < 2 ^ (1 - ec)) by (apply Z.pow_pos_nonneg; lia).
    rewrite <- (Z.mul_1_r (2 * (2 ^ (1 - ec) * w))).
    replace (2 * 2 ^ (1 - ec) * 2 ^ (ec - ez - 1) * w)
      with (2 * (2 ^ (1 - ec) * w) * 2 ^ (ec - ez - 1)) by lia.
    apply Z.mul_le_mono_nonneg_l; [|lia].
    apply Z.mul_nonneg_nonneg; [lia|]. apply Z.mul_nonneg_nonneg; lia.
  - replace (1 - ec) with (1 + (1 - ez) + (ez - ec - 1)) by lia.
    rewrite !Z.pow_add_r, Z.pow_1_r by lia.
    assert (0 < 2 ^ (ez - ec - 1)) by (apply Z.pow_pos_nonneg; lia).
    assert (0 < 2 ^ (1 - ez)) by (apply Z.pow_pos_nonneg; lia).
    rewrite <- (Z.mul_1_r (2 * (2 ^ (1 - ez) * w))).
    replace (2 * 2 ^ (1 - ez) * 2 ^ (ez - ec - 1) * w)
      with (2 * (2 ^ (1 - ez) * w) * 2 ^ (ez - ec - 1)) by lia.
    apply Z.mul_le_mono_nonneg_l; [|lia].
    apply Z.mul_nonneg_nonneg; [lia|]. apply Z.mul_nonneg_nonneg; lia.
Qed.

(** The mantissa of the quotient times the denominator. *)
Lemma mantissa_products :
  2 ^ 52 * h <= mz * h <= (2 ^ 53 - 1) * h
  /\ (mz <= mc - 1 -> mz * h <= (mc - 1) * h)
  /\ (mz <= mc -> mz * h <= mc * h)
  /\ (mc <= mz -> mc * h <= mz * h)
  /\ (mc + 1 <= mz -> (mc + 1) * h <= mz * h).
Proof.
  unfold normal53 in Hmz.
  repeat split; intros; apply Z.mul_le_mono_nonneg_r; lia.
Qed.

End Threshold.

(** The comparison of the quotient with a concrete constant, by linear
    arithmetic over [w], [h], the product of the mantissa with [h], and the
    scaled numerator. *)
Ltac threshold mc ec :=
  intros Hw Hh Hmz Hez Hround;
  match type of Hround with
  | Z.abs (2 * ?mz * ?h - 2 ^ (1 - ?ez) * ?w) <= _ =>
      destruct (scaled_numerator ec w ez ltac:(lia) ltac:(lia) ltac:(lia))
        as (Seq & Slt & Sgt);
      destruct (mantissa_products mc h mz ltac:(lia) Hmz)
        as (Pn & Plt & Ple & Pge & Pgt);
      replace (2 * mz * h) with (2 * (mz * h)) in Hround by lia;
      generalize dependent (mz * h);
      generalize dependent (2 ^ (1 - ez) * w);
      let P := fresh "P" in
      let Wz := fresh "Wz" in
      intros Wz Seq Slt Sgt P; intros;
      let g := eval vm_compute in (2 ^ (1 - ec)) in
      change (2 ^ (1 - ec)) with g in *;
      change (2 ^ 52) with 4503599627370496 in *;
      change (2 ^ 53) with 9007199254740992 in *;
      destruct (Z.lt_trichotomy ez ec) as [L | [E | L]];
      [ specialize (Slt L) | specialize (Seq E) | specialize (Sgt L) ];
      split; intros;
      first [ lia
            | left; lia
            | right; split; lia ]
  end.

Lemma landscape_lower (w h mz ez : Z) :
  0 < w -> 0 < h < 2 ^ 45 -> normal53 mz -> ez <= 1 ->
  Z.abs (2 * mz * h - 2 ^ (1 - ez) * w) <= h ->
  (-52 < ez \/ (-52 = ez /\ 7556039374810498 <= mz)) <-> 151 * h <= 90 * w.
Proof. threshold 7556039374810498 (-52). Qed.

Lemma landscape_upper (w h mz ez : Z) :
  0 < w -> 0 < h < 2 ^ 45 -> normal53 mz -> ez <= 1 ->
  Z.abs (2 * mz * h - 2 ^ (1 - ez) * w) <= h ->
  (ez < -52 \/ (ez = -52 /\ mz <= 8456759300284598)) <-> 90 * w <= 169 * h.
Proof. threshold 8456759300284598 (-52). Qed.

Lemma portrait_lower (w h mz ez : Z) :
  0 < w -> 0 < h < 2 ^ 45 -> normal53 mz -> ez <= 1 ->
  Z.abs (2 * mz * h - 2 ^ (1 - ez) * w) <= h ->
  (-54 < ez \/ (-54 = ez /\ 8331659310635418 <= mz)) <-> 37 * h <= 80 * w.
Proof. threshold 8331659310635418 (-54). Qed.

Lemma portrait_upper (w h mz ez : Z) :
  0 < w -> 0 < h < 2 ^ 45 -> normal53 mz -> ez <= 1 ->
  Z.abs (2 * mz * h - 2 ^ (1 - ez) * w) <= h ->
  (ez < -53 \/ (ez = -53 /\ mz <= 5967269506265907)) <-> 80 * w <= 53 * h.
Proof. threshold 5967269506265907 (-53). Qed.

(** ** The quotient computed by the classifier *)

Lemma Prim2SF_float64 (w : Z) :
  0 < w < 2 ^ 53 ->
  exists (m : positive) (n : Z),
    0 <= n <= 52 /\ Z.pos m = w * 2 ^ n /\ normal53 (Z.pos m)
    /\ Prim2SF (float64 w) = S754_finite false m (- n).
Proof.
  intros Hw. unfold float64.
  destruct (Z.eqb_spec w (-9223372036854775808)) as [E|_]; [lia|].
  destruct (Z.ltb_spec w 0) as [L|_]; [lia|].
  rewrite FloatAxioms.of_uint63_spec, Uint63.of_Z_spec.
  rewrite Z.mod_small.
  - apply binary_normalize_int. exact Hw.
  - change wB with (2 ^ 63).
    assert (2 ^ 53 < 2 ^ 63) by reflexivity. lia.
Qed.

(** The quotient [float64(w) / float64(h)] of two positive integers below
    [2^53] is a normal number [mz * 2^ez] within half a unit in the last
    place of [w / h]. *)
Lemma ratio_rounding (w h : Z) :
  0 < w < 2 ^ 53 -> 0 < h < 2 ^ 53 ->
  exists (mz : positive) (ez : Z),
    Prim2SF (float64 w / float64 h) = S754_finite false mz ez
    /\ normal53 (Z.pos mz) /\ ez <= 1
    /\ Z.abs (2 * Z.pos mz * h - 2 ^ (1 - ez) * w) <= h.
Proof.
  intros Hw Hh.
  destruct (Prim2SF_float64 w Hw) as (m1 & n1 & Hn1 & Em1 & N1 & F1).
  destruct (Prim2SF_float64 h Hh) as (m2 & n2 & Hn2 & Em2 & N2 & F2).
  destruct (SFdiv_normal m1 m2 (- n1) (- n2) N1 N2 ltac:(lia) ltac:(lia))
    as (mz & t & Ht & Nz & Hdiv & Herr).
  exists mz, (- n1 - - n2 - 53 + t).
  rewrite FloatAxioms.div_spec, F1, F2. split; [exact Hdiv|].
  split; [exact Nz|]. split; [lia|].
  rewrite Em1, Em2 in Herr.
  set (S := 2 ^ (n2 + t)).
  assert (Spos : 0 < S) by (apply Z.pow_pos_nonneg; lia).
  assert (St : 2 ^ t * 2 ^ n2 = S)
    by (unfold S; rewrite <- Z.pow_add_r by lia; f_equal; lia).
  assert (Sw : 2 * (2 ^ n1 * 2 ^ 53) = S * 2 ^ (1 - (- n1 - - n2 - 53 + t))).
  { unfold S. rewrite <- !Z.pow_add_r by lia.
    change 2 with (2 ^ 1) at 1. rewrite <- Z.pow_add_r by lia.
    f_equal. lia. }
  set (E := 2 * Z.pos mz * h - 2 ^ (1 - (- n1 - - n2 - 53 + t)) * w).
  replace (2 * (Z.pos mz * 2 ^ t) * (h * 2 ^ n2) - 2 * (w * 2 ^ n1 * 2 ^ 53))
    with (S * E) in Herr.
  2:{ unfold E. rewrite Z.mul_sub_distr_l.
      replace (S * (2 ^ (1 - (- n1 - - n2 - 53 + t)) * w))
        with (2 * (2 ^ n1 * 2 ^ 53) * w) by (rewrite Sw; lia).
      rewrite <- St. lia. }
  replace (2 ^ t * (h * 2 ^ n2)) with (S * h) in Herr by (rewrite <- St; lia).
  rewrite Z.abs_mul, (Z.abs_eq S) in Herr by lia.
  apply Z.mul_le_mono_pos_l in Herr; [exact Herr | exact Spos].
Qed.

(** The four constants that the classifier compares the quotient with. *)
Lemma classifier_constants :
  Prim2SF (landscapeTarget - tolerance)
    = S754_finite false 7556039374810498 (-52)
  /\ Prim2SF (landscapeTarget + tolerance)
     = S754_finite false 8456759300284598 (-52)
  /\ Prim2SF (portraitTarget - tolerance)
     = S754_finite false 8331659310635418 (-54)
  /\ Prim2SF (portraitTarget + tolerance)
     = S754_finite false 5967269506265907 (-53).
Proof. repeat split; vm_compute; reflexivity. Qed.

Lemma bool_eq_iff (b c : bool) : (b = true <-> c = true) -> b = c.
Proof.
  destruct b, c; intros [H1 H2]; try reflexivity;
    [symmetry; now apply H1 | now apply H2].
Qed.

(** The classifier, for dimensions below [2^45], in integer arithmetic:
    the comparisons of the rounded quotient with the rounded bounds are
    the comparisons of [width / height] with [151/90], [169/90], [37/80]
    and [53/80]. *)
Lemma categorizeAspectRatio_bounded (width height : Z) :
  0 < width < 2 ^ 45 -> 0 < height < 2 ^ 45 ->
  categorizeAspectRatio width height =
    if (151 * height <=? 90 * width) && (90 * width <=? 169 * height)
    then "landscape"
    else if (37 * height <=? 80 * width) && (80 * width <=? 53 * height)
         then "portrait"
         else "other".
Proof.
  intros Hw Hh.
  assert (P : 2 ^ 45 < 2 ^ 53) by reflexivity.
  destruct (ratio_rounding width height ltac:(lia) ltac:(lia))
    as (mz & ez & Hz & Nz & Hez & Herr).
  destruct classifier_constants as (C1 & C2 & C3 & C4).
  unfold categorizeAspectRatio. cbv zeta.
  rewrite !FloatAxioms.leb_spec, Hz, C1, C2, C3, C4.
  rewrite (bool_eq_iff (SFleb (S754_finite false 7556039374810498 (-52))
                          (S754_finite false mz ez))
             (151 * height <=? 90 * width)).
  2:{ rewrite SFleb_finite, Z.leb_le.
      apply (landscape_lower width height (Z.pos mz) ez); auto; lia. }
  rewrite (bool_eq_iff (SFleb (S754_finite false mz ez)
                          (S754_finite false 8456759300284598 (-52)))
             (90 * width <=? 169 * height)).
  2:{ rewrite SFleb_finite, Z.leb_le.
      apply (landscape_upper width height (Z.pos mz) ez); auto; lia. }
  rewrite (bool_eq_iff (SFleb (S754_finite false 8331659310635418 (-54))
                          (S754_finite false mz ez))
             (37 * height <=? 80 * width)).
  2:{ rewrite SFleb_finite, Z.leb_le.
      apply (portrait_lower width height (Z.pos mz) ez); auto; lia. }
  rewrite (bool_eq_iff (SFleb (S754_finite false mz ez)
                          (S754_finite false 5967269506265907 (-53)))
             (80 * width <=? 53 * height)).
  2:{ rewrite SFleb_finite, Z.leb_le.
      apply (portrait_upper width height (Z.pos mz) ez); auto; lia. }
  reflexivity.
Qed.

(** ** The rule of the specification, in integers *)

Lemma within_tenth (w : Z) (p : positive) (a b : Z) (q : positive)
    (lo hi : Z) :
  (forall x : Z, 10 * Z.abs (x * Z.pos q - a * Z.pos p) <= Z.pos p * Z.pos q
                 <-> lo * Z.pos p <= b * x <= hi * Z.pos p) ->
  Qle_bool (Qabs (Qmake w p - Qmake a q)%Q) (1 # 10)%Q
  = (lo * Z.pos p <=? b * w) && (b * w <=? hi * Z.pos p).
Proof.
  intros H. apply bool_eq_iff.
  rewrite Qle_bool_iff, andb_true_iff, !Z.leb_le, <- H.
  unfold Qle, Qabs, Qminus, Qplus, Qopp. cbn [Qnum Qden].
  rewrite !Pos2Z.inj_mul.
  replace (w * Z.pos q + - a * Z.pos p) with (w * Z.pos q - a * Z.pos p) by lia.
  lia.
Qed.

Lemma specClassify_integers (width height : Z) :
  0 < height ->
  specClassify width height =
    if (151 * height <=? 90 * width) && (90 * width <=? 169 * height)
    then "landscape"
    else if (37 * height <=? 80 * width) && (80 * width <=? 53 * height)
         then "portrait"
         else "other".
Proof.
  intros Hh. destruct height as [|p|p]; try lia.
  unfold specClassify. cbn [Z.to_pos].
  rewrite (within_tenth width p 16 90 9 151 169) by (intros; lia).
  rewrite (within_tenth width p 9 80 16 37 53) by (intros; lia).
  reflexivity.
Qed.

(** ** The two tolerance intervals *)

(** No binary64 number is at once at least the lower landscape bound and
    at most the upper portrait bound. *)
Lemma float_intervals_disjoint (ratio : float) :
  ((landscapeTarget - tolerance <=? ratio)
   && (ratio <=? portraitTarget + tolerance))%float = false.
Proof.
  destruct classifier_constants as (C1 & _ & _ & C4).
  rewrite !FloatAxioms.leb_spec, C1, C4.
  destruct (Prim2SF ratio) as [s|s| |s m e]; try reflexivity.
  - destruct s; reflexivity.
  - destruct s; [reflexivity|].
    destruct (SFleb (S754_finite false 7556039374810498 (-52))
                (S754_finite false m e)) eqn:A;
      destruct (SFleb (S754_finite false m e)
                  (S754_finite false 5967269506265907 (-53))) eqn:B;
      try reflexivity.
    apply SFleb_finite in A. apply SFleb_finite in B. lia.
Qed.

Lemma rational_intervals_disjoint (q : Q) :
  ~ ((Qabs (q - (16 # 9)) <= 1 # 10)%Q /\ (Qabs (q - (9 # 16)) <= 1 # 10)%Q).
Proof.
  intros [L P]. apply Qabs_Qle_condition in L, P.
  destruct L as [L _], P as [_ P].
  unfold Qle, Qminus, Qplus, Qopp in L, P. cbn [Qnum Qden] in L, P.
  rewrite !Pos2Z.inj_mul in *. lia.
Qed.

(** C10: the landscape interval and the portrait interval are disjoint,
    for the rational bounds and for the binary64 bounds that the code
    compares with: at most one of the two membership tests holds, the
    result does not depend on the order of the two tests, and every input
    is given exactly one of the three classes. *)
Theorem C10_classification_unique (width height : Z) :
  categorizeAspectRatio width height
    = categorizeAspectRatio_portraitFirst width height
  /\ isClassification (categorizeAspectRatio width height)
  /\ (let ratio := (float64 width / float64 height)%float in
      ((landscapeTarget - tolerance <=? ratio)
       && (ratio <=? landscapeTarget + tolerance))%float
      && ((portraitTarget - tolerance <=? ratio)
          && (ratio <=? portraitTarget + tolerance))%float = false)
  /\ (forall q : Q,
        ~ ((Qabs (q - (16 # 9)) <= 1 # 10)%Q
           /\ (Qabs (q - (9 # 16)) <= 1 # 10)%Q)).
Proof.
  pose proof (float_intervals_disjoint (float64 width / float64 height)) as D.
  split; [|split; [|split]].
  - unfold categorizeAspectRatio, categorizeAspectRatio_portraitFirst.
    cbv zeta.
    destruct (landscapeTarget - tolerance <=? float64 width / float64 height)%float;
      destruct (float64 width / float64 height <=? portraitTarget + tolerance)%float;
      try discriminate D;
      destruct (float64 width / float64 height <=? landscapeTarget + tolerance)%float;
      destruct (portraitTarget - tolerance <=? float64 width / float64 height)%float;
      reflexivity.
  - apply categorizeAspectRatio_classification.
  - cbv zeta.
    destruct (landscapeTarget - tolerance <=? float64 width / float64 height)%float;
      destruct (float64 width / float64 height <=? portraitTarget + tolerance)%float;
      try discriminate D;
      destruct (float64 width / float64 height <=? landscapeTarget + tolerance)%float;
      destruct (portraitTarget - tolerance <=? float64 width / float64 height)%float;
      reflexivity.
  - apply rational_intervals_disjoint.
Qed.

(** ** The classification rule *)

(** C2, amended: for every positive width and height below [2^45], the
    classifier, which computes the ratio in binary64, returns what the rule
    on the exact ratio [width / height] returns: "landscape" when
    [|ratio - 16/9| <= 0.1], else "portrait" when [|ratio - 9/16| <= 0.1],
    else "other"; both tolerance boundaries are inclusive, and a ratio of
    exactly [16/9] yields "landscape". *)
Theorem C2_classification_rule (width height : Z) :
  0 < width < 2 ^ 45 -> 0 < height < 2 ^ 45 ->
  categorizeAspectRatio width height = specClassify width height
  /\ (9 * width = 16 * height ->
      categorizeAspectRatio width height = "landscape")
  /\ (90 * width = 151 * height \/ 90 * width = 169 * height ->
      categorizeAspectRatio width height = "landscape")
  /\ (80 * width = 37 * height \/ 80 * width = 53 * height ->
      categorizeAspectRatio width height = "portrait").
Proof.
  intros Hw Hh.
  rewrite (categorizeAspectRatio_bounded width height Hw Hh),
    (specClassify_integers width height) by lia.
  split; [reflexivity|].
  repeat split; intros H;
    destruct (Z.leb_spec (151 * height) (90 * width));
    destruct (Z.leb_spec (90 * width) (169 * height));
    destruct (Z.leb_spec (37 * height) (80 * width));
    destruct (Z.leb_spec (80 * width) (53 * height));
    cbn [andb]; try reflexivity; lia.
Qed.

(** C6, amended: for all (width, height) below [2^45] with ratio
    [width / height] within 0.1 of [16/9] (an absolute tolerance, that is
    5.625 percent of the target and not 10 percent), the classifier returns
    "landscape"; otherwise, with ratio within 0.1 of [9/16], it returns
    "portrait"; otherwise it returns "other". *)
Theorem C6_absolute_tolerance (width height : Z) :
  0 < width < 2 ^ 45 -> 0 < height < 2 ^ 45 ->
  let ratio := Qmake width (Z.to_pos height) in
  let nearLandscape := (Qabs (ratio - (16 # 9)) <= 1 # 10)%Q in
  let nearPortrait := (Qabs (ratio - (9 # 16)) <= 1 # 10)%Q in
  (nearLandscape -> categorizeAspectRatio width height = "landscape")
  /\ (~ nearLandscape -> nearPortrait ->
      categorizeAspectRatio width height = "portrait")
  /\ (~ nearLandscape -> ~ nearPortrait ->
      categorizeAspectRatio width height = "other")
  /\ ((1 # 10) == (9 # 160) * (16 # 9))%Q.
Proof.
  intros Hw Hh. cbv zeta.
  rewrite (categorizeAspectRatio_bounded width height Hw Hh),
    <- (specClassify_integers width height) by lia.
  unfold specClassify. cbv zeta.
  rewrite <- !Qle_bool_iff.
  destruct (Qle_bool _ (1 # 10)); destruct (Qle_bool _ (1 # 10));
    repeat split; intros; try reflexivity; try congruence.
Qed.

(** C2: a width and a height of 46 bits whose ratio is just below [151/90],
    the lower landscape bound: the exact rule says "other", the binary64
    quotient rounds up to the bound and the classifier says "landscape". *)
Lemma C2_counterexample :
  0 < 62446606403493 /\ 0 < 37219831631221
  /\ 90 * 62446606403493 < 151 * 37219831631221
  /\ specClassify 62446606403493 37219831631221 = "other"
  /\ categorizeAspectRatio 62446606403493 37219831631221 = "landscape".
Proof. repeat split; vm_compute; reflexivity. Qed.

(** The rule at 1920x1080. *)
Lemma C2_witness :
  categorizeAspectRatio 1920 1080 = specClassify 1920 1080
  /\ (9 * 1920 = 16 * 1080 -> categorizeAspectRatio 1920 1080 = "landscape")
  /\ (90 * 1920 = 151 * 1080 \/ 90 * 1920 = 169 * 1080 ->
      categorizeAspectRatio 1920 1080 = "landscape")
  /\ (80 * 1920 = 37 * 1080 \/ 80 * 1920 = 53 * 1080 ->
      categorizeAspectRatio 1920 1080 = "portrait").
Proof. apply (C2_classification_rule 1920 1080); lia. Defined.

(** C6: 1920x1000 has ratio 1.92, within ten percent of [16/9] but more
    than 0.1 away from it: the classifier says "other"; 1000x1600 has ratio
    0.625, more than ten percent away from [9/16] but within 0.1 of it: the
    classifier says "portrait". *)
Lemma C6_counterexample :
  specClassifyRelative 1920 1000 = "landscape"
  /\ categorizeAspectRatio 1920 1000 = "other"
  /\ specClassifyRelative 1000 1600 = "other"
  /\ categorizeAspectRatio 1000 1600 = "portrait".
Proof. repeat split; vm_compute; reflexivity. Qed.

(** The absolute tolerance at 1920x1080. *)
Lemma C6_witness :
  ((Qabs ((1920 # Z.to_pos 1080) - (16 # 9)) <= 1 # 10)%Q ->
   categorizeAspectRatio 1920 1080 = "landscape")
  /\ (~ (Qabs ((1920 # Z.to_pos 1080) - (16 # 9)) <= 1 # 10)%Q ->
      (Qabs ((1920 # Z.to_pos 1080) - (9 # 16)) <= 1 # 10)%Q ->
      categorizeAspectRatio 1920 1080 = "portrait")
  /\ (~ (Qabs ((1920 # Z.to_pos 1080) - (16 # 9)) <= 1 # 10)%Q ->
      ~ (Qabs ((1920 # Z.to_pos 1080) - (9 # 16)) <= 1 # 10)%Q ->
      categorizeAspectRatio 1920 1080 = "other")
  /\ ((1 # 10) == (9 # 160) * (16 # 9))%Q.
Proof. apply (C6_absolute_tolerance 1920 1080); lia. Defined.

(* ===================================================================== *)
(** * Further properties of the handlers and their helpers               *)
(* ===================================================================== *)

(** ** The resolver: what it leaves alone *)

Lemma dbVideoToSignedVideo_db (env : Env) (video : Video) (w : World) :
  db (snd (dbVideoToSignedVideo env video w)) = db w.
Proof.
  unfold dbVideoToSignedVideo, generatePresignedURL.
  destruct (VideoURL video) as [url|]; [|reflexivity].
  destruct (String.eqb url ""); [reflexivity|].
  destruct (strings.Split url ","%char) as [|b [|k [|x xs]]]; try reflexivity.
  destruct (s3_PresignGetObject env b k (15 * time.Minute)); reflexivity.
Qed.

(** The resolver's answer does not depend on the world. *)
Lemma dbVideoToSignedVideo_value (env : Env) (video : Video) (w w0 : World) :
  fst (dbVideoToSignedVideo env video w)
  = fst (dbVideoToSignedVideo env video w0).
Proof.
  unfold dbVideoToSignedVideo, generatePresignedURL.
  destruct (VideoURL video) as [url|]; [|reflexivity].
  destruct (String.eqb url ""); [reflexivity|].
  destruct (strings.Split url ","%char) as [|b [|k [|x xs]]]; try reflexivity.
  destruct (s3_PresignGetObject env b k (15 * time.Minute)); reflexivity.
Qed.

(** A reference whose number of commas is not one does not split into two
    parts. *)
Lemma dbVideoToSignedVideo_malformed (env : Env) (video : Video)
    (ref : string) (w : World) :
  VideoURL video = Some ref -> ref <> "" ->
  strings.Count ref ","%char <> 1%nat ->
  dbVideoToSignedVideo env video w
  = ((video, Some (InvalidReferenceFormat ref)), w).
Proof.
  intros Hv Hne Hc.
  pose proof (dbVideoToSignedVideo_parts env video ref w Hv Hne) as P.
  pose proof (Split_length ","%char ref) as L.
  destruct (strings.Split ref ","%char) as [|b [|k [|x xs]]]; try exact P.
  simpl in L. lia.
Qed.

(** X1: resolving is a read: whatever the record and whatever the object
    store answers, the files on disk and the metadata store are as before;
    the record returned differs from the one given in the video reference
    at most, and is the one given when an error is returned; at most one
    request goes to the object store, a presigning request that expires
    after 15 minutes (900 s). *)
Theorem resolver_is_read_only (env : Env) (video : Video) (w : World) :
  let signed := fst (fst (dbVideoToSignedVideo env video w)) in
  let err := snd (fst (dbVideoToSignedVideo env video w)) in
  let w' := snd (dbVideoToSignedVideo env video w) in
  fs w' = fs w
  /\ db w' = db w
  /\ set_VideoURL (VideoURL video) signed = video
  /\ (err = None \/ signed = video)
  /\ (newEvents w w' = []
      \/ exists bucket key : string,
           newEvents w w' = [EvPresign bucket key 900000000000]).
Proof.
  cbv zeta.
  split; [apply dbVideoToSignedVideo_fs|].
  split; [apply dbVideoToSignedVideo_db|].
  unfold dbVideoToSignedVideo, generatePresignedURL.
  assert (E : set_VideoURL (VideoURL video) video = video)
    by (destruct video; reflexivity).
  destruct (VideoURL video) as [url|] eqn:Hv;
    [|cbn [fst snd]; rewrite newEvents_refl; auto].
  destruct (String.eqb url "");
    [cbn [fst snd]; rewrite newEvents_refl; auto|].
  destruct (strings.Split url ","%char) as [|b [|k [|x xs]]];
    try (cbn [fst snd]; rewrite newEvents_refl; auto).
  destruct (s3_PresignGetObject env b k (15 * time.Minute)); cbn [fst snd].
  - rewrite emitW_extend, newEvents_extend.
    split; [exact E|]. split; [right; reflexivity|].
    right. exists b, k. reflexivity.
  - rewrite emitW_extend, newEvents_extend.
    split; [destruct video; cbn in Hv |- *; now rewrite Hv|].
    split; [left; reflexivity|].
    right. exists b, k. reflexivity.
Qed.

(** X2: a reference [bucket,key] whose bucket or key itself contains a
    comma does not resolve: it splits into more than two parts, so the
    resolver fails with the format error, returns the record as it is and
    sends nothing to the object store. *)
Theorem resolver_rejects_comma_in_component
    (env : Env) (video : Video) (bucket key : string) (w : World) :
  VideoURL video = Some (bucket +:+ "," +:+ key) ->
  strings.Count bucket ","%char <> 0%nat
  \/ strings.Count key ","%char <> 0%nat ->
  dbVideoToSignedVideo env video w
  = ((video, Some (InvalidReferenceFormat (bucket +:+ "," +:+ key))), w).
Proof.
  intros Hv Hc.
  assert (Hn : strings.Count (bucket +:+ "," +:+ key) ","%char
               = S (strings.Count bucket ","%char
                    + strings.Count key ","%char)).
  { rewrite !Count_app. simpl. lia. }
  apply dbVideoToSignedVideo_malformed; [exact Hv| |lia].
  apply (Count_pos_nonempty _ ","%char). lia.
Qed.

Lemma resolver_rejects_comma_in_component_witness :
  dbVideoToSignedVideo happyEnv (exampleVideo (Some "a,b,key.mp4"))
    exampleWorld
  = ((exampleVideo (Some "a,b,key.mp4"),
      Some (InvalidReferenceFormat "a,b,key.mp4")), exampleWorld).
Proof.
  apply (resolver_rejects_comma_in_component happyEnv
           (exampleVideo (Some "a,b,key.mp4")) "a,b" "key.mp4" exampleWorld).
  - reflexivity.
  - left. vm_compute. discriminate.
Defined.

(** The events of the resolver. *)
Lemma resolver_events (env : Env) (video : Video) (w : World) :
  snd (dbVideoToSignedVideo env video w) = w
  \/ exists bucket key : string,
       snd (dbVideoToSignedVideo env video w)
       = extend w [EvPresign bucket key (15 * time.Minute)].
Proof.
  unfold dbVideoToSignedVideo, generatePresignedURL.
  destruct (VideoURL video) as [url|]; [|left; reflexivity].
  destruct (String.eqb url ""); [left; reflexivity|].
  destruct (strings.Split url ","%char) as [|b [|k [|x xs]]];
    try (left; reflexivity).
  right. exists b, k.
  destruct (s3_PresignGetObject env b k (15 * time.Minute)); reflexivity.
Qed.

Lemma newEvents_set_db (w w' : World) (d : gmap UUID Video) :
  newEvents w (set_db d w') = newEvents w w'.
Proof. reflexivity. Qed.

Lemma newEvents_set_fs (w w' : World) (f : gset string) :
  newEvents w (set_fs f w') = newEvents w w'.
Proof. reflexivity. Qed.

(** ** The metadata handlers *)

Ltac run_meta :=
  unfold serve, serveWith, handlerVideoGet, handlerVideoMetaDelete,
    handlerVideoMetaCreate, handlerVideosRetrieve,
    handlerVideoMetaDelete_ownerCheck;
  cbv [mbind mret Handler_bind Handler_ret orRespond checkErr respond emit defer
       liftIO];
  cbn [world deferred fst snd].

Ltac step_meta :=
  match goal with
  | |- context [json_Decode ?e ?x] => destruct (json_Decode e x) eqn:?
  | |- context [db_CreateVideoIO ?e ?p ?w] =>
      unfold db_CreateVideoIO; destruct (db_CreateVideo e p) eqn:?
  | |- context [db_DeleteVideoIO ?e ?i ?w] =>
      unfold db_DeleteVideoIO; destruct (db_DeleteVideo e i) eqn:?
  | |- context [db_GetVideos ?e ?u] => destruct (db_GetVideos e u) eqn:?
  end; simpl_run.

(** X3: fetching a video is a read, too: on every path the files on disk
    and the metadata store are as before, the handler looks the record up
    at most once and sends at most one presigning request, and it answers
    with 200, 400, 404 or 500. *)
Theorem handlerVideoGet_read_only
    (cfg : apiConfig) (env : Env) (r : Request) (w : World) :
  let resp := fst (serve (handlerVideoGet cfg env r) w) in
  let w' := snd (serve (handlerVideoGet cfg env r) w) in
  fs w' = fs w
  /\ db w' = db w
  /\ (newEvents w w' = []
      \/ (exists id, newEvents w w' = [EvGetVideo id])
      \/ (exists id bucket key,
            newEvents w w'
            = [EvGetVideo id; EvPresign bucket key (15 * time.Minute)]))
  /\ (status resp = http.StatusOK \/ status resp = http.StatusBadRequest
      \/ status resp = http.StatusNotFound
      \/ status resp = http.StatusInternalServerError).
Proof.
  cbv zeta. run_meta.
  step_oracle;
    [split; [reflexivity|]; split; [reflexivity|];
     rewrite newEvents_refl; split; [left; reflexivity | right; left; reflexivity]|].
  step_oracle.
  2:{ split; [reflexivity|]. split; [reflexivity|].
      rewrite emitW_extend, newEvents_extend.
      split; [right; left; eexists; reflexivity |].
      right; right; left; reflexivity. }
  match goal with
  | |- context [dbVideoToSignedVideo ?e ?v ?w0] =>
      pose proof (dbVideoToSignedVideo_fs e v w0) as Hfs;
      pose proof (dbVideoToSignedVideo_db e v w0) as Hdb;
      destruct (resolver_events e v w0) as [Hev|(b & k & Hev)];
      destruct (dbVideoToSignedVideo e v w0) as [[? [?|]] ?]
  end.
  all: cbn [fst snd] in *; simpl_run; rewrite Hev.
  all: split; [reflexivity|]; split; [reflexivity|].
  all: rewrite emitW_extend, ?extend_extend, ?extend_nil, newEvents_extend.
  all: cbn [app].
  all: split;
    [first [ right; left; eexists; reflexivity
           | right; right; eexists _, _, _; reflexivity ]|].
  all: first [ left; reflexivity | right; right; right; reflexivity ].
Qed.

(** X4: a video that has no reference yet is served as it is.  When the
    stored record has no video reference, be it nil or the empty string,
    the fetch answers 200 with the stored record, unchanged, and sends
    nothing to the object store: the only effect is the lookup. *)
Theorem handlerVideoGet_absent_reference
    (cfg : apiConfig) (env : Env) (r : Request) (w : World)
    (id : UUID) (video : Video) :
  uuid_Parse env (PathValue_videoID r) = inr id ->
  db w !! id = Some video ->
  VideoURL video = None \/ VideoURL video = Some "" ->
  serve (handlerVideoGet cfg env r) w
  = (respondWithJSON http.StatusOK video, extend w [EvGetVideo id]).
Proof.
  intros Hid Hdb Hv. run_meta. rewrite Hid. simpl_run.
  unfold db_GetVideo. cbn [db emitW]. rewrite Hdb. simpl_run.
  rewrite emitW_extend.
  unfold dbVideoToSignedVideo. destruct Hv as [-> | ->]; reflexivity.
Qed.

Lemma handlerVideoGet_absent_reference_witness :
  serve (handlerVideoGet exampleConfig happyEnv exampleRequest) exampleWorld
  = (respondWithJSON http.StatusOK (exampleVideo None),
     extend exampleWorld [EvGetVideo 7%N]).
Proof.
  apply (handlerVideoGet_absent_reference exampleConfig happyEnv
           exampleRequest exampleWorld 7%N (exampleVideo None)).
  - reflexivity.
  - reflexivity.
  - left. reflexivity.
Defined.

(** X5: fetching a video needs no credentials.  The handler reads the
    identifier in the path and nothing else of the request, and of its
    collaborators only the identifier parser, the store and the
    presigner: requests for the same identifier get the same answer and
    leave the same world whatever their headers and bodies, whatever the
    configuration, and whatever the token reader and the token validator
    would say, so also for a caller without token or with the token of
    another user. *)
Theorem handlerVideoGet_ignores_caller
    (cfg cfg' : apiConfig) (env env' : Env) (r r' : Request) (w : World) :
  PathValue_videoID r = PathValue_videoID r' ->
  (forall s, uuid_Parse env' s = uuid_Parse env s) ->
  (forall bucket key d,
     s3_PresignGetObject env' bucket key d
     = s3_PresignGetObject env bucket key d) ->
  serve (handlerVideoGet cfg env r) w = serve (handlerVideoGet cfg' env' r') w.
Proof.
  intros Hpath Hparse Hpresign. run_meta. rewrite <- Hpath, Hparse.
  destruct (uuid_Parse env (PathValue_videoID r)) as [e|id]; [reflexivity|].
  simpl_run. unfold db_GetVideo. cbn [db emitW].
  destruct (db w !! id) as [video|]; [|reflexivity].
  simpl_run.
  assert (E : forall w0, dbVideoToSignedVideo env' video w0
                         = dbVideoToSignedVideo env video w0).
  { intros w0. unfold dbVideoToSignedVideo, generatePresignedURL.
    destruct (VideoURL video) as [url|]; [|reflexivity].
    destruct (String.eqb url ""); [reflexivity|].
    destruct (strings.Split url ","%char) as [|b [|k [|x xs]]];
      try reflexivity.
    rewrite Hpresign. reflexivity. }
  rewrite E. reflexivity.
Qed.

(** A request without any header, met by a token validator that rejects
    every token, gets the answer that the owner's request gets. *)
Lemma handlerVideoGet_ignores_caller_witness :
  serve (handlerVideoGet exampleConfig happyEnv exampleRequest) exampleWorld
  = serve (handlerVideoGet exampleConfig badTokenEnv
             {| PathValue_videoID := "00000000-0000-0000-0000-000000000007";
                Header := []; Body := "" |}) exampleWorld.
Proof.
  apply (handlerVideoGet_ignores_caller exampleConfig exampleConfig
           happyEnv badTokenEnv exampleRequest
           {| PathValue_videoID := "00000000-0000-0000-0000-000000000007";
              Header := []; Body := "" |} exampleWorld).
  - reflexivity.
  - reflexivity.
  - reflexivity.
Defined.

(** X6: fetching a video whose stored reference is [bucket,key], neither
    part with a comma: the handler looks the record up and asks for a
    presigned URL of that bucket and key; it answers 200 with the record
    in which the URL has taken the place of the reference, the store
    still holding the reference; when presigning fails it answers 500
    with the presigner's error, wrapped. *)
Theorem handlerVideoGet_joined_reference
    (cfg : apiConfig) (env : Env) (r : Request) (w : World)
    (id : UUID) (video : Video) (bucket key : string) :
  uuid_Parse env (PathValue_videoID r) = inr id ->
  db w !! id = Some video ->
  VideoURL video = Some (bucket +:+ "," +:+ key) ->
  strings.Count bucket ","%char = 0%nat ->
  strings.Count key ","%char = 0%nat ->
  serve (handlerVideoGet cfg env r) w
  = (match s3_PresignGetObject env bucket key (15 * time.Minute) with
     | inr url => respondWithJSON http.StatusOK (set_VideoURL (Some url) video)
     | inl err =>
         respondWithError http.StatusInternalServerError
           "Failed to generate signed URL"
           (Some (Wrap "failed to generate presigned URL: " err))
     end,
     extend w [EvGetVideo id; EvPresign bucket key (15 * time.Minute)]).
Proof.
  intros Hid Hdb Hv Hb Hk. run_meta. rewrite Hid. simpl_run.
  unfold db_GetVideo. cbn [db emitW]. rewrite Hdb. simpl_run.
  rewrite (resolve_joined_reference env video bucket key _ Hv Hb Hk).
  rewrite emitW_extend, extend_extend.
  destruct (s3_PresignGetObject env bucket key (15 * time.Minute));
    reflexivity.
Qed.

Lemma handlerVideoGet_joined_reference_witness :
  serve (handlerVideoGet exampleConfig failedPresignEnv exampleRequest)
    {| fs := ∅;
       db := {[ 7%N := exampleVideo (Some ("tubely-bucket" +:+ "," +:+ "landscape/a.mp4")) ]};
       trace := [] |}
  = (match s3_PresignGetObject failedPresignEnv "tubely-bucket"
             "landscape/a.mp4" (15 * time.Minute) with
     | inr url =>
         respondWithJSON http.StatusOK
           (set_VideoURL (Some url)
              (exampleVideo (Some ("tubely-bucket" +:+ "," +:+ "landscape/a.mp4"))))
     | inl err =>
         respondWithError http.StatusInternalServerError
           "Failed to generate signed URL"
           (Some (Wrap "failed to generate presigned URL: " err))
     end,
     extend {| fs := ∅;
               db := {[ 7%N := exampleVideo (Some ("tubely-bucket" +:+ "," +:+ "landscape/a.mp4")) ]};
               trace := [] |}
       [EvGetVideo 7%N;
        EvPresign "tubely-bucket" "landscape/a.mp4" (15 * time.Minute)]).
Proof.
  apply (handlerVideoGet_joined_reference exampleConfig failedPresignEnv
           exampleRequest _ 7%N
           (exampleVideo (Some ("tubely-bucket" +:+ "," +:+ "landscape/a.mp4")))
           "tubely-bucket" "landscape/a.mp4").
  - reflexivity.
  - reflexivity.
  - reflexivity.
  - reflexivity.
  - reflexivity.
Defined.

(** X7: a stored reference that is not empty and does not hold exactly
    one comma is a server error of the fetch: the handler answers 500
    with the format error and sends nothing to the object store. *)
Theorem handlerVideoGet_malformed_reference
    (cfg : apiConfig) (env : Env) (r : Request) (w : World)
    (id : UUID) (video : Video) (ref : string) :
  uuid_Parse env (PathValue_videoID r) = inr id ->
  db w !! id = Some video ->
  VideoURL video = Some ref -> ref <> "" ->
  strings.Count ref ","%char <> 1%nat ->
  serve (handlerVideoGet cfg env r) w
  = (respondWithError http.StatusInternalServerError
       "Failed to generate signed URL" (Some (InvalidReferenceFormat ref)),
     extend w [EvGetVideo id]).
Proof.
  intros Hid Hdb Hv Hne Hc. run_meta. rewrite Hid. simpl_run.
  unfold db_GetVideo. cbn [db emitW]. rewrite Hdb. simpl_run.
  rewrite (dbVideoToSignedVideo_malformed env video ref _ Hv Hne Hc).
  rewrite emitW_extend. reflexivity.
Qed.

Lemma handlerVideoGet_malformed_reference_witness :
  serve (handlerVideoGet exampleConfig happyEnv exampleRequest)
    {| fs := ∅;
       db := {[ 7%N := exampleVideo (Some "https://cdn.example.com/a.mp4") ]};
       trace := [] |}
  = (respondWithError http.StatusInternalServerError
       "Failed to generate signed URL"
       (Some (InvalidReferenceFormat "https://cdn.example.com/a.mp4")),
     extend {| fs := ∅;
               db := {[ 7%N := exampleVideo
                                 (Some "https://cdn.example.com/a.mp4") ]};
               trace := [] |} [EvGetVideo 7%N]).
Proof.
  apply (handlerVideoGet_malformed_reference exampleConfig happyEnv
           exampleRequest _ 7%N
           (exampleVideo (Some "https://cdn.example.com/a.mp4"))
           "https://cdn.example.com/a.mp4").
  - reflexivity.
  - reflexivity.
  - reflexivity.
  - discriminate.
  - vm_compute. discriminate.
Defined.

(** X8: deleting a video changes the metadata store on one path only:
    the handler has written 204, the caller's token is valid and names
    the owner of the record, and the store then holds what it held
    without that record.  On every other path the store is as before.
    Nothing else is touched on any path: the files are as before, and the
    only effect recorded is the lookup of the record, so no object and no
    file of the video is removed with it. *)
Theorem handlerVideoMetaDelete_only_owner
    (cfg : apiConfig) (env : Env) (menv : MetaEnv) (r : Request) (w : World) :
  let res := fst (serveWith (handlerVideoMetaDelete cfg env menv r) w) in
  let w' := snd (serveWith (handlerVideoMetaDelete cfg env menv r) w) in
  fs w' = fs w
  /\ (newEvents w w' = [] \/ exists id, newEvents w w' = [EvGetVideo id])
  /\ ((res <> inr (WriteHeader StatusNoContent) /\ db w' = db w)
      \/ (res = inr (WriteHeader StatusNoContent)
          /\ exists (id : UUID) (token : string) (video : Video),
               uuid_Parse env (PathValue_videoID r) = inr id
               /\ auth_GetBearerToken env (Header r) = inr token
               /\ auth_ValidateJWT env token (jwtSecret cfg)
                  = inr (UserID video)
               /\ db w !! id = Some video
               /\ db w' = delete id (db w))).
Proof.
  cbv zeta. run_meta. repeat first [step_oracle | step_meta].
  all: rewrite ?emitW_extend.
  all: rewrite ?newEvents_set_db, ?newEvents_extend, ?newEvents_refl.
  all: cbn [fs db set_db extend].
  all: split; [reflexivity|].
  all: split; [first [left; reflexivity | right; eexists; reflexivity]|].
  all: try (left; split; [discriminate | reflexivity]).
  right. split; [reflexivity|].
  match goal with H : N.eqb _ _ = true |- _ => apply N.eqb_eq in H; subst end.
  eexists _, _, _. repeat split; eassumption.
Qed.

(** X9: before it deletes, the handler makes the checks of video ingest,
    in the same order, and the request that fails one of them leaves the
    store as it is: 400 for an identifier that does not parse, 401 for a
    missing or an invalid token, 404 for a missing record, and, for a
    caller who is not the owner, 403 with the message "You can't delete
    this video" and no error attached. *)
Theorem handlerVideoMetaDelete_prechecks
    (cfg : apiConfig) (env : Env) (menv : MetaEnv) (r : Request) (w : World)
    (p : Precheck) :
  failedPrecheck cfg env r w = Some p ->
  let res := fst (serveWith (handlerVideoMetaDelete cfg env menv r) w) in
  let w' := snd (serveWith (handlerVideoMetaDelete cfg env menv r) w) in
  db w' = db w
  /\ res = inl match p with
               | BadIdentifier err =>
                   respondWithError http.StatusBadRequest "Invalid ID"
                     (Some err)
               | MissingToken err =>
                   respondWithError http.StatusUnauthorized
                     "Couldn't find JWT" (Some err)
               | InvalidToken err =>
                   respondWithError http.StatusUnauthorized
                     "Couldn't validate JWT" (Some err)
               | NoRecord _ =>
                   respondWithError http.StatusNotFound
                     "Couldn't get video" (Some (NewError "not found"))
               | NotOwner _ _ =>
                   respondWithError http.StatusForbidden
                     "You can't delete this video" None
               end.
Proof.
  unfold failedPrecheck. intros H. cbv zeta. revert H.
  run_meta. repeat first [step_oracle | step_meta].
  all: intros H; try discriminate H; injection H as <-.
  all: split; reflexivity.
Qed.

(** The caller is user 2; the video belongs to user 1. *)
Lemma handlerVideoMetaDelete_prechecks_witness :
  db (snd (serveWith (handlerVideoMetaDelete exampleConfig strangerEnv
                        exampleMetaEnv exampleRequest) exampleWorld))
  = db exampleWorld
  /\ fst (serveWith (handlerVideoMetaDelete exampleConfig strangerEnv
                       exampleMetaEnv exampleRequest) exampleWorld)
     = inl (respondWithError http.StatusForbidden
              "You can't delete this video" None).
Proof.
  apply (handlerVideoMetaDelete_prechecks exampleConfig strangerEnv
           exampleMetaEnv exampleRequest exampleWorld
           (NotOwner (exampleVideo None) 2%N)).
  reflexivity.
Defined.

(** X10: a deleted video is gone for the fetch: after a delete that wrote
    204, the request for the same identifier is answered with 404. *)
Theorem deleted_video_is_not_found
    (cfg : apiConfig) (env env' : Env) (menv : MetaEnv) (r r' : Request)
    (w : World) :
  fst (serveWith (handlerVideoMetaDelete cfg env menv r) w)
  = inr (WriteHeader StatusNoContent) ->
  uuid_Parse env' (PathValue_videoID r') = uuid_Parse env (PathValue_videoID r) ->
  let w' := snd (serveWith (handlerVideoMetaDelete cfg env menv r) w) in
  fst (serve (handlerVideoGet cfg env' r') w')
  = respondWithError http.StatusNotFound "Video not found"
      (Some (NewError "not found")).
Proof.
  intros H Hid. cbv zeta. revert H.
  unfold handlerVideoGet at 1. unfold serve at 1.
  cbv [mbind mret Handler_bind Handler_ret orRespond checkErr respond liftIO].
  rewrite Hid.
  run_meta. repeat first [step_oracle | step_meta].
  all: intros H; try discriminate H.
  unfold db_GetVideo. cbn [db set_db emitW world].
  rewrite lookup_delete_eq. reflexivity.
Qed.

Lemma deleted_video_is_not_found_witness :
  fst (serve (handlerVideoGet exampleConfig happyEnv exampleRequest)
         (snd (serveWith (handlerVideoMetaDelete exampleConfig happyEnv
                            exampleMetaEnv exampleRequest) exampleWorld)))
  = respondWithError http.StatusNotFound "Video not found"
      (Some (NewError "not found")).
Proof.
  apply (deleted_video_is_not_found exampleConfig happyEnv happyEnv
           exampleMetaEnv exampleRequest exampleRequest exampleWorld).
  - reflexivity.
  - reflexivity.
Defined.

(** ** Listing the caller's videos *)

(** The loop signs all videos when each of them resolves. *)
Lemma signVideos_all (env : Env) (videos : list Video) (w0 w : World) :
  Forall (fun v => snd (fst (dbVideoToSignedVideo env v w0)) = None) videos ->
  fst (signVideos env videos w)
  = inr (map (fun v => fst (fst (dbVideoToSignedVideo env v w0))) videos).
Proof.
  intros H. revert w. induction H as [|v vs Hv _ IH]; intros w; [reflexivity|].
  cbn [signVideos map].
  rewrite (dbVideoToSignedVideo_value env v w0 w) in Hv |- *.
  destruct (dbVideoToSignedVideo env v w) as [[sv [e|]] w1];
    [discriminate Hv|].
  specialize (IH w1). cbn [fst snd].
  destruct (signVideos env vs w1) as [[e|svs] w2]; cbn [fst] in IH |- *;
    [discriminate IH | congruence].
Qed.

(** The loop ends at the first video that does not resolve. *)
Lemma signVideos_first_error (env : Env) (pre post : list Video) (v : Video)
    (err : error) (w0 w : World) :
  Forall (fun v => snd (fst (dbVideoToSignedVideo env v w0)) = None) pre ->
  snd (fst (dbVideoToSignedVideo env v w0)) = Some err ->
  signVideos env (pre ++ v :: post) w
  = (inl err, snd (signVideos env (pre ++ [v]) w)).
Proof.
  intros H Hv. revert w. induction H as [|x xs Hx _ IH]; intros w.
  - cbn [app signVideos].
    rewrite (dbVideoToSignedVideo_value env v w0 w) in Hv.
    destruct (dbVideoToSignedVideo env v w) as [[sv [e|]] w1];
      [|discriminate Hv].
    cbn [fst snd] in Hv |- *. congruence.
  - cbn [app signVideos].
    rewrite (dbVideoToSignedVideo_value env x w0 w) in Hx.
    destruct (dbVideoToSignedVideo env x w) as [[sx [e|]] w1];
      [discriminate Hx|].
    rewrite (IH w1).
    destruct (signVideos env (xs ++ [v]) w1) as [[e|svs] w2]; reflexivity.
Qed.

Lemma signVideos_store (env : Env) (videos : list Video) (w : World) :
  fs (snd (signVideos env videos w)) = fs w
  /\ db (snd (signVideos env videos w)) = db w.
Proof.
  revert w. induction videos as [|v vs IH]; intros w; [split; reflexivity|].
  cbn [signVideos].
  pose proof (dbVideoToSignedVideo_fs env v w) as Hfs.
  pose proof (dbVideoToSignedVideo_db env v w) as Hdb.
  destruct (dbVideoToSignedVideo env v w) as [[sv [e|]] w1];
    cbn [fst snd] in *; [split; assumption|].
  destruct (IH w1) as [IHfs IHdb].
  destruct (signVideos env vs w1) as [[e|svs] w2]; cbn [fst snd] in *;
    split; congruence.
Qed.

(** X11: the list of the caller's videos is signed as a whole or not at
    all.  When every record of the list resolves, the handler answers 200
    with the resolved records, as many and in the order of the store's
    list.  When one does not, the handler answers 500 with the error of
    the first such record and sends no signing request for the records
    after it: one record with a malformed reference hides all videos of
    its owner.  The store and the files are as before in both cases. *)
Theorem handlerVideosRetrieve_all_or_nothing
    (cfg : apiConfig) (env : Env) (menv : MetaEnv) (r : Request) (w : World)
    (token : string) (userID : UUID) (videos : list Video) :
  auth_GetBearerToken env (Header r) = inr token ->
  auth_ValidateJWT env token (jwtSecret cfg) = inr userID ->
  db_GetVideos menv userID = inr videos ->
  let resolve := fun v => fst (dbVideoToSignedVideo env v w) in
  let res := fst (serveWith (handlerVideosRetrieve cfg env menv r) w) in
  let w' := snd (serveWith (handlerVideosRetrieve cfg env menv r) w) in
  fs w' = fs w /\ db w' = db w
  /\ (Forall (fun v => snd (resolve v) = None) videos ->
      res = inr (respondWithJSONList http.StatusOK
                   (map (fun v => fst (resolve v)) videos)))
  /\ (forall (pre post : list Video) (v : Video) (err : error),
        videos = pre ++ v :: post ->
        Forall (fun v => snd (resolve v) = None) pre ->
        snd (resolve v) = Some err ->
        res = inl (respondWithError http.StatusInternalServerError
                     "Failed to generate signed URLs" (Some err))
        /\ w' = snd (signVideos env (pre ++ [v]) w)).
Proof.
  intros Ht Hu Hv. cbv zeta. run_meta. rewrite Ht. simpl_run.
  rewrite Hu. simpl_run. rewrite Hv. simpl_run.
  destruct (signVideos_store env videos w) as [Hfs Hdb].
  split; [|split; [|split]].
  - destruct (signVideos env videos w) as [[e|svs] w2]; exact Hfs.
  - destruct (signVideos env videos w) as [[e|svs] w2]; exact Hdb.
  - intros Hall. pose proof (signVideos_all env videos w w Hall) as E.
    destruct (signVideos env videos w) as [[e|svs] w2]; cbn [fst] in E;
      [discriminate E|].
    injection E as ->. reflexivity.
  - intros pre post v err -> Hpre Herr.
    rewrite (signVideos_first_error env pre post v err w w Hpre Herr).
    split; reflexivity.
Qed.

(** The caller's list holds a video with a reference and one without; both
    resolve. *)
Lemma handlerVideosRetrieve_all_or_nothing_witness :
  fst (serveWith (handlerVideosRetrieve exampleConfig happyEnv exampleMetaEnv
                    exampleRequest) exampleWorld)
  = inr (respondWithJSONList http.StatusOK
           [ exampleVideo
               (Some "https://tubely-bucket.s3.amazonaws.com/landscape/a.mp4?X-Amz-Expires=900");
             exampleVideo None ]).
Proof.
  apply (handlerVideosRetrieve_all_or_nothing exampleConfig happyEnv
           exampleMetaEnv exampleRequest exampleWorld "token" 1%N
           [ exampleVideo (Some "tubely-bucket,landscape/a.mp4");
             exampleVideo None ]).
  - reflexivity.
  - reflexivity.
  - reflexivity.
  - repeat constructor.
Defined.

(** ** Creating a video *)

(** X12: the owner of a created video is the caller.  The handler
    overwrites the owner sent in the request body with the user of the
    validated token before it calls the store, so with a store that gives
    the new record the owner of its parameters, every 201 answer carries a
    record owned by the caller, and that record is what the store then
    holds under its identifier. *)
Theorem handlerVideoMetaCreate_owner_is_caller
    (cfg : apiConfig) (env : Env) (menv : MetaEnv) (r : Request) (w : World)
    (code : Z) (payload : Video) :
  (forall p v, db_CreateVideo menv p = inr v -> UserID v = database.UserID p) ->
  fst (serve (handlerVideoMetaCreate cfg env menv r) w)
  = respondWithJSON code payload ->
  let w' := snd (serve (handlerVideoMetaCreate cfg env menv r) w) in
  code = StatusCreated
  /\ (exists token,
        auth_GetBearerToken env (Header r) = inr token
        /\ auth_ValidateJWT env token (jwtSecret cfg) = inr (UserID payload))
  /\ db w' = <[ ID payload := payload ]> (db w).
Proof.
  intros Hstore. cbv zeta. run_meta. repeat first [step_oracle | step_meta].
  all: intros H; try discriminate H.
  injection H as <- <-. cbn [db set_db].
  split; [reflexivity|]. split; [|reflexivity].
  eexists. split; [reflexivity|].
  match goal with
  | C : db_CreateVideo _ _ = inr _ |- _ => apply Hstore in C; rewrite C
  end.
  assumption.
Qed.

(** The body names user 2 as the owner; the caller is user 1, and the
    record is created for user 1. *)
Lemma handlerVideoMetaCreate_owner_is_caller_witness :
  (exists p, json_Decode exampleMetaEnv (Body exampleRequest) = inr p
             /\ database.UserID p = 2%N)
  /\ (exists token,
        auth_GetBearerToken happyEnv (Header exampleRequest) = inr token
        /\ auth_ValidateJWT happyEnv token (jwtSecret exampleConfig)
           = inr 1%N)
  /\ db (snd (serve (handlerVideoMetaCreate exampleConfig happyEnv
                       exampleMetaEnv exampleRequest) exampleWorld)) !! 8%N
     = Some {| ID := 8%N; CreatedAt := 20; UpdatedAt := 20;
               ThumbnailURL := None; VideoURL := None;
               Title := "title"; Description := "description";
               UserID := 1%N |}.
Proof.
  split; [eexists; split; reflexivity|].
  pose proof (handlerVideoMetaCreate_owner_is_caller exampleConfig happyEnv
                exampleMetaEnv exampleRequest exampleWorld StatusCreated
                {| ID := 8%N; CreatedAt := 20; UpdatedAt := 20;
                   ThumbnailURL := None; VideoURL := None;
                   Title := "title"; Description := "description";
                   UserID := 1%N |}) as H.
  destruct H as (_ & H & E).
  - intros p v Hc. injection Hc as <-. reflexivity.
  - reflexivity.
  - split; [exact H|]. rewrite E. apply lookup_insert_eq.
Defined.

(** ** Thumbnail ingest *)

(** [filepath.Join] cleans the path that it joins. *)
Example filepath_Join_examples :
  filepath_Join "./assets" "x.png" = "assets/x.png"
  /\ filepath_Join "" "x.png" = "x.png"
  /\ filepath_Join "/var/assets/" "x.png" = "/var/assets/x.png"
  /\ filepath_Join "a//b/../c/." "x.png" = "a/c/x.png"
  /\ filepath_Join "../up" "x.png" = "../up/x.png"
  /\ filepath_Join "/.." "x.png" = "/x.png"
  /\ filepath_Clean "" = "." /\ filepath_Clean "./" = "."
  /\ filepath_Clean "/" = "/".
Proof. repeat split; vm_compute; reflexivity. Qed.

(** What holds of the names of the parser's temporary files holds of the
    events on them. *)
Lemma temps_events (P : Event -> Prop) (f : string -> Event)
    (temps : list string) :
  (forall n, n ∈ temps -> P (f n)) -> Forall P (map f temps).
Proof.
  intros H. apply Forall_forall. intros e He.
  apply list_elem_of_In, in_map_iff in He. destruct He as (n & <- & Hn).
  apply H. now apply list_elem_of_In.
Qed.

Ltac simpl_temps :=
  unfold createTemps, removeTemps;
  cbn [fs db trace emitW set_fs set_db os_Remove extend].

(** X13: a thumbnail whose declared media type is neither [image/jpeg]
    nor [image/png] is refused before it is written and before anything
    is stored: the handler answers 400 (or 401 when the token fails
    first) and leaves the metadata store as it is; it reads no random
    bytes and creates no file of its own, so every file other than the
    temporary files of the form parser is as before, and the only
    effects are the parsing of the form, the parser's temporary files
    (created, and removed when parsing fails) and the closing of the
    upload.  When the parser needs no temporary file, which is the case
    for parts within its 10 MiB of memory, no file is touched at all. *)
Theorem handlerUploadThumbnail_rejects_other_media_types
    (cfg : apiConfig) (env : Env) (r : Request) (w : World) :
  (forall file mediaType,
     FormFile env r "thumbnail" = inr file ->
     mime_ParseMediaType env (ContentType file) = inr mediaType ->
     mediaType <> "image/jpeg" /\ mediaType <> "image/png") ->
  let resp := fst (serve (handlerUploadThumbnail cfg env r) w) in
  let w' := snd (serve (handlerUploadThumbnail cfg env r) w) in
  let temps := multipart_TempFiles env r maxMemory in
  (status resp = http.StatusBadRequest \/ status resp = http.StatusUnauthorized)
  /\ db w' = db w
  /\ (forall x : string, x ∉ temps -> x ∈ fs w' <-> x ∈ fs w)
  /\ Forall (fun e => e = EvParseMultipartForm \/ e = EvCloseUpload
                      \/ exists n, n ∈ temps
                                   /\ (e = EvCreateTemp n \/ e = EvRemove n))
        (newEvents w w')
  /\ (temps = [] -> noFileIO w w').
Proof.
  intros Hmt. cbv zeta. run_handler. repeat step_oracle.
  all: try (exfalso;
            destruct (Hmt _ _ ltac:(first [eassumption | reflexivity])
                        ltac:(first [eassumption | reflexivity]))
              as [H1 H2];
            repeat match goal with
                   | H : String.eqb _ _ = true |- _ =>
                       apply String.eqb_eq in H
                   end;
            congruence).
  all: split; [first [left; reflexivity | right; reflexivity]|].
  all: split; [simpl_temps; reflexivity|].
  all: split; [intros x Hx; simpl_temps; set_solver|].
  all: split.
  all: match goal with
       | |- Forall _ _ =>
           unfold newEvents; simpl_temps; rewrite <- ?app_assoc;
           first [rewrite drop_app_length | rewrite drop_all]; cbn [app];
           rewrite ?Forall_cons, ?Forall_app, ?Forall_cons, ?Forall_nil;
           repeat split; auto;
           apply temps_events; intros n Hn; right; right; exists n; auto
       | |- _ -> _ =>
           intros Ht; unfold noFileIO, newEvents; simpl_temps;
           rewrite ?Ht; cbn [map list_to_set app];
           rewrite ?app_nil_r, <- ?app_assoc;
           split;
           [ set_solver
           | first [rewrite drop_app_length | rewrite drop_all];
             repeat constructor ]
       end.
Qed.

(** A GIF image that the parser has written to a temporary file: the
    handler answers 400 and the temporary file is all that it leaves. *)
Lemma handlerUploadThumbnail_rejects_other_media_types_witness :
  fst (serve (handlerUploadThumbnail exampleConfig largeGifEnv exampleRequest)
         exampleWorld)
  = respondWithError http.StatusBadRequest
      "Only JPEG and PNG images are allowed" None
  /\ fs (snd (serve (handlerUploadThumbnail exampleConfig largeGifEnv
                       exampleRequest) exampleWorld))
     = fs exampleWorld ∪ {[ "/tmp/multipart-1" ]}
  /\ db (snd (serve (handlerUploadThumbnail exampleConfig largeGifEnv
                       exampleRequest) exampleWorld))
     = db exampleWorld.
Proof.
  split; [reflexivity|].
  split; [vm_compute; reflexivity|].
  apply (handlerUploadThumbnail_rejects_other_media_types exampleConfig
           largeGifEnv exampleRequest exampleWorld).
  intros file mediaType Hf Hm.
  injection Hf as <-. injection Hm as <-.
  split; discriminate.
Defined.

(** X14: thumbnail ingest never removes what it has written.  The file
    it creates is named by [filepath.Join] of the assets root and
    [name.jpg] or [name.png], the name being the encoding of the 32
    random bytes, and on every path on which it is created it is on disk
    when the handler returns, next to the files that were there before
    and to the temporary files of the form parser: also when saving
    fails, when the record is missing, when the caller is not the owner
    and when the store refuses the update. *)
Theorem handlerUploadThumbnail_keeps_created_file
    (cfg : apiConfig) (env : Env) (r : Request) (w : World) (name : string) :
  In (EvCreate name)
     (newEvents w (snd (serve (handlerUploadThumbnail cfg env r) w))) ->
  let w' := snd (serve (handlerUploadThumbnail cfg env r) w) in
  fs w' = fs w ∪ list_to_set (multipart_TempFiles env r maxMemory) ∪ {[ name ]}
  /\ exists randomBytes : list ascii,
       rand_Read env 32 = inr randomBytes
       /\ (name = filepath_Join (assetsRoot cfg)
                    (base64.EncodeToString randomBytes +:+ ".jpg")
           \/ name = filepath_Join (assetsRoot cfg)
                       (base64.EncodeToString randomBytes +:+ ".png")).
Proof.
  cbv zeta. run_handler. repeat step_oracle.
  all: unfold newEvents; simpl_temps; rewrite <- ?app_assoc;
    first [rewrite drop_app_length | rewrite drop_all]; cbn [app].
  all: intros HIn; split_In.
  all: try (apply in_map_iff in HIn; destruct HIn as (? & HIn & _);
            discriminate HIn).
  all: injection HIn as <-.
  all: split; [reflexivity|].
  all: eexists; split; [reflexivity|].
  all: unfold getFileExtension.
  all: repeat match goal with
              | H : String.eqb _ _ = _ |- _ => rewrite H; clear H
              end.
  all: cbn [orb];
    repeat match goal with
           | |- context [String.eqb ?a ?b] => destruct (String.eqb a b)
           end;
    first [left; reflexivity | right; reflexivity].
Qed.

(** The caller does not own the video and the image was too large for the
    parser's memory: the answer is 401, and the thumbnail is on disk, as
    is the parser's temporary file. *)
Lemma handlerUploadThumbnail_keeps_created_file_witness :
  status (fst (serve (handlerUploadThumbnail exampleConfig largeStrangerEnv
                        exampleRequest) exampleWorld))
  = http.StatusUnauthorized
  /\ fs (snd (serve (handlerUploadThumbnail exampleConfig largeStrangerEnv
                       exampleRequest) exampleWorld))
     = fs exampleWorld
       ∪ list_to_set (multipart_TempFiles largeStrangerEnv exampleRequest
                        maxMemory)
       ∪ {[ "assets/AAAAAAAAAAAAAAAAAAAAAAAAAAAAAAAAAAAAAAAAAAA.png" ]}.
Proof.
  split; [reflexivity|].
  apply (handlerUploadThumbnail_keeps_created_file exampleConfig
           largeStrangerEnv exampleRequest exampleWorld
           "assets/AAAAAAAAAAAAAAAAAAAAAAAAAAAAAAAAAAAAAAAAAAA.png").
  vm_compute. right. right. right. left. reflexivity.
Defined.

(** X15: thumbnail ingest writes the metadata store on its success path
    only.  Either the handler answers with an error and the store is as
    before, or it answers 200 with a record that the store now holds in
    the place of the one loaded: the loaded record with the update time
    set to now and the thumbnail reference set to
    [http://localhost:<port>/assets/<file name>], all other fields, the
    video reference among them, as loaded; the file of that name, joined
    to the assets root by [filepath.Join], is on disk. *)
Theorem handlerUploadThumbnail_metadata
    (cfg : apiConfig) (env : Env) (r : Request) (w : World) :
  let resp := fst (serve (handlerUploadThumbnail cfg env r) w) in
  let w' := snd (serve (handlerUploadThumbnail cfg env r) w) in
  ((exists code msg err, resp = respondWithError code msg err)
   /\ db w' = db w)
  \/ (exists (id : UUID) (video : Video) (filename : string),
        uuid_Parse env (PathValue_videoID r) = inr id
        /\ db w !! id = Some video
        /\ resp = respondWithJSON http.StatusOK
                    (set_ThumbnailURL
                       (Some ("http://localhost:" +:+ port cfg +:+ "/assets/"
                              +:+ filename))
                       (set_UpdatedAt (time_Now env) video))
        /\ db w' = <[ ID video :=
                        set_ThumbnailURL
                          (Some ("http://localhost:" +:+ port cfg
                                 +:+ "/assets/" +:+ filename))
                          (set_UpdatedAt (time_Now env) video) ]> (db w)
        /\ filepath_Join (assetsRoot cfg) filename ∈ fs w').
Proof.
  cbv zeta. run_handler. repeat step_oracle.
  all: try (left; split; [eexists _, _, _; reflexivity
                         | simpl_temps; reflexivity]).
  all: right; eexists _, _, _.
  all: split; [reflexivity|]; split; [eassumption|].
  all: split; [reflexivity|]; split; [simpl_temps; reflexivity|].
  all: simpl_temps; set_solver.
Qed.

(** X16: [getFileExtension] knows two extensions: [.png] for the media
    type [image/png], and [.jpg] for every other media type, named in the
    switch or not. *)
Theorem getFileExtension_two_extensions (mediaType : string) :
  (getFileExtension mediaType = ".png" <-> mediaType = "image/png")
  /\ (getFileExtension mediaType = ".jpg" <-> mediaType <> "image/png").
Proof.
  unfold getFileExtension.
  destruct (String.eqb_spec mediaType "image/jpeg") as [->|_];
    [cbn; split; split; first [discriminate | reflexivity | congruence]|].
  destruct (String.eqb_spec mediaType "image/jpg") as [->|_];
    [cbn; split; split; first [discriminate | reflexivity | congruence]|].
  cbn [orb].
  destruct (String.eqb_spec mediaType "image/png") as [->|N].
  - split; split; first [reflexivity | discriminate | congruence].
  - split; split; first [reflexivity | discriminate | congruence | contradiction].
Qed.

(** ** Video ingest: what is stored and what is answered *)

(** The resolver on a reference [bucket,key] whose key has no comma. *)
Lemma resolve_stored_reference (env : Env) (video : Video)
    (bucket key : string) (w : World) :
  VideoURL video = Some (bucket +:+ "," +:+ key) ->
  strings.Count key ","%char = 0%nat ->
  (strings.Count bucket ","%char = 0%nat
   /\ dbVideoToSignedVideo env video w =
        match s3_PresignGetObject env bucket key (15 * time.Minute) with
        | inl err =>
            ((video, Some (Wrap "failed to generate presigned URL: " err)),
             extend w [EvPresign bucket key (15 * time.Minute)])
        | inr url =>
            ((set_VideoURL (Some url) video, None),
             extend w [EvPresign bucket key (15 * time.Minute)])
        end)
  \/ (strings.Count bucket ","%char <> 0%nat
      /\ dbVideoToSignedVideo env video w
         = ((video, Some (InvalidReferenceFormat (bucket +:+ "," +:+ key))),
            w)).
Proof.
  intros Hv Hk.
  destruct (Nat.eq_dec (strings.Count bucket ","%char) 0%nat) as [Hb|Hb].
  - left. split; [exact Hb|]. now apply resolve_joined_reference.
  - right. split; [exact Hb|].
    assert (Hn : strings.Count (bucket +:+ "," +:+ key) ","%char
                 = S (strings.Count bucket ","%char)).
    { rewrite !Count_app. simpl. lia. }
    apply dbVideoToSignedVideo_malformed; [exact Hv| |lia].
    apply (Count_pos_nonempty _ ","%char). lia.
Qed.

(** The three ways in which a video-ingest request ends: with an error
    before the store is written; with the reference stored and the signed
    record answered; with the reference stored and the signing failed. *)
Lemma handlerUploadVideo_cases
    (cfg : apiConfig) (env : Env) (r : Request) (w : World) :
  let resp := fst (serve (handlerUploadVideo cfg env r) w) in
  let w' := snd (serve (handlerUploadVideo cfg env r) w) in
  (exists code msg err,
     resp = respondWithError code msg err
     /\ code <> http.StatusOK
     /\ msg <> "Failed to generate signed URL"
     /\ db w' = db w)
  \/ (exists (id : UUID) (video : Video) (aspectRatio : string)
             (randomBytes : list ascii) (n : Z),
        let key := aspectRatio +:+ "/" +:+ base64.EncodeToString randomBytes
                   +:+ ".mp4" in
        let stored :=
          set_VideoURL (Some (s3Bucket cfg +:+ "," +:+ key))
            (set_UpdatedAt (time_Now env) video) in
        uuid_Parse env (PathValue_videoID r) = inr id
        /\ db w !! id = Some video
        /\ isClassification aspectRatio
        /\ In (EvPutObject (s3Bucket cfg) key "video/mp4" n) (newEvents w w')
        /\ s3_PutObject env (s3Bucket cfg) key n = None
        /\ db w' = <[ ID video := stored ]> (db w)
        /\ ((exists url,
               strings.Count (s3Bucket cfg) ","%char = 0%nat
               /\ s3_PresignGetObject env (s3Bucket cfg) key
                    (15 * time.Minute) = inr url
               /\ resp = respondWithJSON http.StatusOK
                           (set_VideoURL (Some url) stored))
            \/ (exists err,
                  resp = respondWithError http.StatusInternalServerError
                           "Failed to generate signed URL" (Some err)))).
Proof.
  cbv zeta. run_handler. repeat step_oracle.
  all: try (left; eexists _, _, _;
            split; [reflexivity
                   | split; [discriminate
                            | split; [discriminate | reflexivity]]]).
  right.
  match goal with
  | Hj : json_Unmarshal _ _ = inr ?streams, Hr : rand_Read _ _ = inr ?bytes,
    Hd : db w !! ?i = Some ?vid
    |- context [dbVideoToSignedVideo ?e ?v ?w0] =>
      pose proof (classifyStreams_classification (map decodeStream streams))
        as Hcls;
      pose proof (fileKey_no_comma _ bytes Hcls) as Hkey;
      exists i, vid, (classifyStreams (map decodeStream streams)), bytes;
      destruct (resolve_stored_reference e v _ _ w0 eq_refl Hkey)
        as [[Hbucket Hres]|[_ Hres]];
      rewrite Hres; clear Hres
  end.
  all: match goal with
       | E : specRetry _ _ _ _ 3 1 = (?evs, None) |- _ =>
           destruct (specRetry_success env _ _ _ ltac:(rewrite E; reflexivity))
             as (n & Hin & Hput);
           rewrite E in Hin; cbn [fst] in Hin; exists n
       end.
  1: destruct (s3_PresignGetObject env _ _ _) as [err|url] eqn:Hp.
  all: simpl_run; cbv zeta.
  all: split; [reflexivity|]; split; [assumption|]; split; [exact Hcls|].
  all: split; [simpl_trace; repeat (apply in_cons); apply in_or_app; left;
               exact Hin|].
  all: split; [exact Hput|]; split; [reflexivity|].
  - right. eexists. reflexivity.
  - left. eexists. split; [exact Hbucket | split; reflexivity].
  - right. eexists. reflexivity.
Qed.

(** X17: video ingest writes the metadata store on two paths only.  The
    store is as before on every path that ends in an error, with one
    exception: when the reference has been stored and signing it then
    fails, the handler answers 500 although the upload has taken
    effect. *)
Theorem handlerUploadVideo_failure_keeps_metadata
    (cfg : apiConfig) (env : Env) (r : Request) (w : World) :
  let resp := fst (serve (handlerUploadVideo cfg env r) w) in
  let w' := snd (serve (handlerUploadVideo cfg env r) w) in
  db w' = db w
  \/ status resp = http.StatusOK
  \/ exists err,
       resp = respondWithError http.StatusInternalServerError
                "Failed to generate signed URL" (Some err).
Proof.
  cbv zeta.
  destruct (handlerUploadVideo_cases cfg env r w)
    as [(code & msg & err & _ & _ & _ & Hdb)
       |(id & video & a & bytes & n & _ & _ & _ & _ & _ & _ & Hresp)].
  - left. exact Hdb.
  - cbv zeta in Hresp. destruct Hresp as [(url & _ & _ & ->)|(err & ->)].
    + right. left. reflexivity.
    + right. right. exists err. reflexivity.
Qed.

(** X18: what a successful video ingest answers and what it stores.  The
    only answer with a record is 200.  The store then holds, in the place
    of the record loaded, that record with the update time set to now and
    the video reference set to [bucket,key], and no other record has
    changed; the answer is not the stored record but the stored record
    with the presigned URL of that bucket and key, valid for 15 minutes,
    in the place of the reference. *)
Theorem handlerUploadVideo_success_payload
    (cfg : apiConfig) (env : Env) (r : Request) (w : World)
    (code : Z) (payload : Video) :
  fst (serve (handlerUploadVideo cfg env r) w) = respondWithJSON code payload ->
  let w' := snd (serve (handlerUploadVideo cfg env r) w) in
  code = http.StatusOK
  /\ exists (id : UUID) (video : Video) (key url : string),
       let stored :=
         set_VideoURL (Some (s3Bucket cfg +:+ "," +:+ key))
           (set_UpdatedAt (time_Now env) video) in
       uuid_Parse env (PathValue_videoID r) = inr id
       /\ db w !! id = Some video
       /\ db w' = <[ ID video := stored ]> (db w)
       /\ s3_PresignGetObject env (s3Bucket cfg) key (15 * time.Minute)
          = inr url
       /\ payload = set_VideoURL (Some url) stored.
Proof.
  intros Hresp. cbv zeta.
  destruct (handlerUploadVideo_cases cfg env r w)
    as [(c & msg & err & E & _)
       |(id & video & a & bytes & n & Hid & Hv & _ & _ & _ & Hdb & Hr)].
  - rewrite E in Hresp. discriminate Hresp.
  - cbv zeta in Hdb, Hr. destruct Hr as [(url & _ & Hp & E)|(err & E)];
      rewrite E in Hresp; [|discriminate Hresp].
    injection Hresp as <- <-. split; [reflexivity|].
    exists id, video, (a +:+ "/" +:+ base64.EncodeToString bytes +:+ ".mp4"),
      url.
    cbv zeta. auto.
Qed.

Lemma handlerUploadVideo_success_payload_witness :
  http.StatusOK = http.StatusOK
  /\ exists (id : UUID) (video : Video) (key url : string),
       let stored :=
         set_VideoURL (Some (s3Bucket exampleConfig +:+ "," +:+ key))
           (set_UpdatedAt (time_Now happyEnv) video) in
       uuid_Parse happyEnv (PathValue_videoID exampleRequest) = inr id
       /\ db exampleWorld !! id = Some video
       /\ db (snd (serve (handlerUploadVideo exampleConfig happyEnv
                            exampleRequest) exampleWorld))
          = <[ ID video := stored ]> (db exampleWorld)
       /\ s3_PresignGetObject happyEnv (s3Bucket exampleConfig) key
            (15 * time.Minute) = inr url
       /\ set_VideoURL
            (Some "https://tubely-bucket.s3.amazonaws.com/landscape/AAAAAAAAAAAAAAAAAAAAAAAAAAAAAAAAAAAAAAAAAAA.mp4?X-Amz-Expires=900")
            (set_UpdatedAt 20 (exampleVideo None))
          = set_VideoURL (Some url) stored.
Proof.
  apply (handlerUploadVideo_success_payload exampleConfig happyEnv
           exampleRequest exampleWorld).
  reflexivity.
Defined.

(** X19: a signing failure comes too late to undo the upload.  When the
    handler answers 500 with "Failed to generate signed URL", the object
    has been put into the bucket under its key, and the store holds the
    record with the reference to it. *)
Theorem handlerUploadVideo_signing_failure_keeps_reference
    (cfg : apiConfig) (env : Env) (r : Request) (w : World)
    (code : Z) (err : option error) :
  fst (serve (handlerUploadVideo cfg env r) w)
  = respondWithError code "Failed to generate signed URL" err ->
  let w' := snd (serve (handlerUploadVideo cfg env r) w) in
  code = http.StatusInternalServerError
  /\ exists (video : Video) (key : string) (n : Z),
       In (EvPutObject (s3Bucket cfg) key "video/mp4" n) (newEvents w w')
       /\ s3_PutObject env (s3Bucket cfg) key n = None
       /\ db w' !! ID video
          = Some (set_VideoURL (Some (s3Bucket cfg +:+ "," +:+ key))
                    (set_UpdatedAt (time_Now env) video)).
Proof.
  intros Hresp. cbv zeta.
  destruct (handlerUploadVideo_cases cfg env r w)
    as [(c & msg & e & E & _ & Hmsg & _)
       |(id & video & a & bytes & n & _ & _ & _ & Hin & Hput & Hdb & Hr)].
  - rewrite E in Hresp. injection Hresp as _ -> _. contradiction.
  - cbv zeta in Hin, Hput, Hdb, Hr.
    destruct Hr as [(url & _ & _ & E)|(e & E)];
      rewrite E in Hresp; [discriminate Hresp|].
    injection Hresp as <- _. split; [reflexivity|].
    exists video, (a +:+ "/" +:+ base64.EncodeToString bytes +:+ ".mp4"), n.
    split; [exact Hin|]. split; [exact Hput|].
    rewrite Hdb. apply lookup_insert_eq.
Qed.

(** The object store takes the object and then refuses to presign. *)
Lemma handlerUploadVideo_signing_failure_keeps_reference_witness :
  http.StatusInternalServerError = http.StatusInternalServerError
  /\ exists (video : Video) (key : string) (n : Z),
       In (EvPutObject (s3Bucket exampleConfig) key "video/mp4" n)
          (newEvents exampleWorld
             (snd (serve (handlerUploadVideo exampleConfig failedPresignEnv
                            exampleRequest) exampleWorld)))
       /\ s3_PutObject failedPresignEnv (s3Bucket exampleConfig) key n = None
       /\ db (snd (serve (handlerUploadVideo exampleConfig failedPresignEnv
                            exampleRequest) exampleWorld)) !! ID video
          = Some (set_VideoURL (Some (s3Bucket exampleConfig +:+ "," +:+ key))
                    (set_UpdatedAt (time_Now failedPresignEnv) video)).
Proof.
  apply (handlerUploadVideo_signing_failure_keeps_reference exampleConfig
           failedPresignEnv exampleRequest exampleWorld
           http.StatusInternalServerError
           (Some (Wrap "failed to generate presigned URL: "
                    (NewError "no credentials")))).
  reflexivity.
Defined.

(** X20: ingest and fetch fit together.  After a video ingest that
    answered 200, in a store that keeps every record under its own
    identifier, a fetch of the same identifier asks for a presigned URL
    of the bucket and of a key under which the object was put, and
    answers 200 with the stored record carrying that URL (or 500 when the
    presigner fails). *)
Theorem ingested_video_is_served
    (cfg : apiConfig) (env env' : Env) (r r' : Request) (w : World) :
  (forall id v, db w !! id = Some v -> ID v = id) ->
  status (fst (serve (handlerUploadVideo cfg env r) w)) = http.StatusOK ->
  uuid_Parse env' (PathValue_videoID r') = uuid_Parse env (PathValue_videoID r) ->
  let w' := snd (serve (handlerUploadVideo cfg env r) w) in
  exists (stored : Video) (key : string) (n : Z),
    In (EvPutObject (s3Bucket cfg) key "video/mp4" n) (newEvents w w')
    /\ s3_PutObject env (s3Bucket cfg) key n = None
    /\ db w' !! ID stored = Some stored
    /\ VideoURL stored = Some (s3Bucket cfg +:+ "," +:+ key)
    /\ serve (handlerVideoGet cfg env' r') w'
       = (match s3_PresignGetObject env' (s3Bucket cfg) key
                  (15 * time.Minute) with
          | inr url =>
              respondWithJSON http.StatusOK (set_VideoURL (Some url) stored)
          | inl err =>
              respondWithError http.StatusInternalServerError
                "Failed to generate signed URL"
                (Some (Wrap "failed to generate presigned URL: " err))
          end,
          extend w' [EvGetVideo (ID stored);
                     EvPresign (s3Bucket cfg) key (15 * time.Minute)]).
Proof.
  intros Hkeyed Hok Hid. cbv zeta.
  destruct (handlerUploadVideo_cases cfg env r w)
    as [(c & msg & e & E & Hc & _)
       |(id & video & a & bytes & n & Hp & Hv & Hcls & Hin & Hput & Hdb & Hr)].
  { exfalso. rewrite E in Hok. cbn [status] in Hok. contradiction. }
  cbv zeta in Hin, Hput, Hdb, Hr.
  destruct Hr as [(url & Hbucket & Hpre & E)|(e & E)];
    [|rewrite E in Hok; discriminate Hok].
  set (key := a +:+ "/" +:+ base64.EncodeToString bytes +:+ ".mp4") in *.
  set (stored := set_VideoURL (Some (s3Bucket cfg +:+ "," +:+ key))
                   (set_UpdatedAt (time_Now env) video)) in *.
  assert (Hkey : strings.Count key ","%char = 0%nat)
    by (apply fileKey_no_comma; exact Hcls).
  exists stored, key, n.
  split; [exact Hin|]. split; [exact Hput|].
  assert (Hst : db (snd (serve (handlerUploadVideo cfg env r) w)) !! ID stored
                = Some stored).
  { rewrite Hdb. apply lookup_insert_eq. }
  split; [exact Hst|]. split; [reflexivity|].
  assert (Hident : ID stored = id) by (apply (Hkeyed id video Hv)).
  clear Hin Hdb Hok E.
  generalize dependent (snd (serve (handlerUploadVideo cfg env r) w)).
  intros w' Hst.
  run_meta. rewrite Hid, Hp. simpl_run.
  unfold db_GetVideo. cbn [db emitW]. rewrite <- Hident, Hst. simpl_run.
  rewrite (resolve_joined_reference env' stored (s3Bucket cfg) key _
             eq_refl Hbucket Hkey).
  rewrite emitW_extend, extend_extend.
  destruct (s3_PresignGetObject env' (s3Bucket cfg) key (15 * time.Minute));
    reflexivity.
Qed.

Lemma ingested_video_is_served_witness :
  exists (stored : Video) (key : string) (n : Z),
    In (EvPutObject (s3Bucket exampleConfig) key "video/mp4" n)
       (newEvents exampleWorld
          (snd (serve (handlerUploadVideo exampleConfig happyEnv
                         exampleRequest) exampleWorld)))
    /\ s3_PutObject happyEnv (s3Bucket exampleConfig) key n = None
    /\ db (snd (serve (handlerUploadVideo exampleConfig happyEnv
                         exampleRequest) exampleWorld)) !! ID stored
       = Some stored
    /\ VideoURL stored = Some (s3Bucket exampleConfig +:+ "," +:+ key)
    /\ serve (handlerVideoGet exampleConfig happyEnv exampleRequest)
         (snd (serve (handlerUploadVideo exampleConfig happyEnv
                        exampleRequest) exampleWorld))
       = (match s3_PresignGetObject happyEnv (s3Bucket exampleConfig) key
                  (15 * time.Minute) with
          | inr url =>
              respondWithJSON http.StatusOK (set_VideoURL (Some url) stored)
          | inl err =>
              respondWithError http.StatusInternalServerError
                "Failed to generate signed URL"
                (Some (Wrap "failed to generate presigned URL: " err))
          end,
          extend (snd (serve (handlerUploadVideo exampleConfig happyEnv
                                exampleRequest) exampleWorld))
            [EvGetVideo (ID stored);
             EvPresign (s3Bucket exampleConfig) key (15 * time.Minute)]).
Proof.
  apply (ingested_video_is_served exampleConfig happyEnv happyEnv
           exampleRequest exampleRequest exampleWorld).
  - intros id v H. cbn [db exampleWorld] in H.
    apply lookup_singleton_Some in H as [<- <-]. reflexivity.
  - reflexivity.
  - reflexivity.
Defined.

(** X21: an upload that is not declared as [video/mp4] is refused before
    it is staged: the handler answers 400 (or 401 or 404 when an earlier
    check fails), creates no temporary file, touches no file and runs no
    external process, and leaves the metadata store as it is. *)
Theorem handlerUploadVideo_rejects_other_media_types
    (cfg : apiConfig) (env : Env) (r : Request) (w : World) :
  (forall file mediaType,
     FormFile env r "video" = inr file ->
     mime_ParseMediaType env (ContentType file) = inr mediaType ->
     mediaType <> "video/mp4") ->
  let resp := fst (serve (handlerUploadVideo cfg env r) w) in
  let w' := snd (serve (handlerUploadVideo cfg env r) w) in
  (status resp = http.StatusBadRequest \/ status resp = http.StatusUnauthorized
   \/ status resp = http.StatusNotFound)
  /\ noFileIO w w'
  /\ db w' = db w.
Proof.
  intros Hmt. cbv zeta. run_handler. do 9 try step_oracle.
  all: try (exfalso;
            pose proof (Hmt _ _ ltac:(first [eassumption | reflexivity])
                          ltac:(first [eassumption | reflexivity])) as H1;
            repeat match goal with
                   | H : String.eqb _ _ = true |- _ =>
                       apply String.eqb_eq in H
                   end;
            congruence).
  all: rewrite ?emitW_extend, ?extend_extend; cbn [app].
  all: split; [first [ left; reflexivity | right; left; reflexivity
                     | right; right; reflexivity ]|].
  all: split; [first [apply noFileIO_refl | apply noFileIO_extend; reflexivity]
              | reflexivity].
Qed.

(** The upload is declared as a GIF image. *)
Lemma handlerUploadVideo_rejects_other_media_types_witness :
  fst (serve (handlerUploadVideo exampleConfig gifEnv exampleRequest)
         exampleWorld)
  = respondWithError http.StatusBadRequest "Only MP4 videos are allowed" None
  /\ noFileIO exampleWorld
       (snd (serve (handlerUploadVideo exampleConfig gifEnv exampleRequest)
               exampleWorld)).
Proof.
  split; [reflexivity|].
  apply (handlerUploadVideo_rejects_other_media_types exampleConfig gifEnv
           exampleRequest exampleWorld).
  intros file mediaType Hf Hm.
  injection Hf as <-. injection Hm as <-.
  discriminate.
Defined.

(** The attempts of the upload loop are made on the loop's bucket and
    key, as MP4, and are numbered 1 to 3. *)
Lemma specRetry_puts (env : Env) (bucket fileKey name : string)
    (b k c : string) (n : Z) :
  In (EvPutObject b k c n) (fst (specRetry env bucket fileKey name 3 1)) ->
  b = bucket /\ k = fileKey /\ c = "video/mp4" /\ 1 <= n <= 3.
Proof.
  rewrite specRetry_outcome. unfold retryOutcome. cbn [fst snd].
  repeat match goal with
         | |- context [match ?o with Some _ => _ | None => _ end] =>
             destruct o eqn:?
         end;
    cbn [fst snd In]; intros H;
    repeat match goal with
           | H : _ \/ _ |- _ => destruct H as [H|H]
           | H : False |- _ => destruct H
           | H : EvPutObject _ _ _ _ = EvPutObject _ _ _ _ |- _ =>
               injection H as <- <- <- <-
           end; try discriminate; repeat split; lia.
Qed.

(** X22: nothing goes to the object store before the upload has been
    staged, rewritten and probed.  Every put request of a video-ingest
    run is made on the configured bucket, as [video/mp4], in one of the
    attempts 1 to 3, under a key [class/name.mp4]: the rewriter has
    succeeded on the temporary file, the inspector has run on its output
    and its document has been parsed, [class] is the classification of
    the streams it reports, and [name] encodes the 32 random bytes. *)
Theorem handlerUploadVideo_puts_probed_video
    (cfg : apiConfig) (env : Env) (r : Request) (w : World)
    (b k c : string) (n : Z) :
  In (EvPutObject b k c n)
     (newEvents w (snd (serve (handlerUploadVideo cfg env r) w))) ->
  b = s3Bucket cfg /\ c = "video/mp4" /\ 1 <= n <= 3
  /\ exists (t stdout : string) (file : FormPart) (streams : list JSONStream)
            (randomBytes : list ascii),
       stagedUpload cfg env r w = Some (t, file)
       /\ ffmpeg_Run env t (t +:+ ".processing") = FfmpegOk
       /\ ffprobe_Run env (t +:+ ".processing") = inr stdout
       /\ json_Unmarshal env stdout = inr streams
       /\ rand_Read env 32 = inr randomBytes
       /\ k = classifyStreams (map decodeStream streams) +:+ "/"
              +:+ base64.EncodeToString randomBytes +:+ ".mp4".
Proof.
  unfold stagedUpload, failedPrecheck.
  run_handler. repeat step_oracle.
  all: try match goal with
        | |- context [dbVideoToSignedVideo ?e ?v ?w0] =>
            let evs' := fresh "evs'" in
            let Hw := fresh "Hw" in
            let Hp := fresh "Hp" in
            destruct (dbVideoToSignedVideo_extend e v w0) as (evs' & Hw & Hp);
            destruct (dbVideoToSignedVideo e v w0) as [[? [?|]] ?];
            cbn [snd] in Hw; subst
        end.
  all: simpl_run; simpl_trace; intros HIn; split_In.
  all: try (exfalso; eapply Hp; eassumption).
  all: match goal with
       | H : In _ ?evs, E : specRetry _ _ _ _ 3 1 = (?evs, _) |- _ =>
           destruct (specRetry_puts _ _ _ _ _ _ _ _
                       ltac:(rewrite E; exact H)) as (-> & -> & -> & Hn)
       end.
  all: split; [reflexivity|]; split; [reflexivity|]; split; [exact Hn|].
  all: eexists _, _, _, _, _.
  all: repeat match goal with
              | H : String.eqb _ _ = true |- _ => rewrite H
              | H : N.eqb _ _ = true |- _ => rewrite H
              end.
  all: split; [reflexivity|]; split; [eassumption|]; split; [eassumption|].
  all: split; [eassumption|]; split; [reflexivity | reflexivity].
Qed.

Lemma handlerUploadVideo_puts_probed_video_witness :
  s3Bucket exampleConfig = s3Bucket exampleConfig
  /\ "video/mp4" = "video/mp4" /\ 1 <= 1 <= 3
  /\ exists (t stdout : string) (file : FormPart) (streams : list JSONStream)
            (randomBytes : list ascii),
       stagedUpload exampleConfig happyEnv exampleRequest exampleWorld
       = Some (t, file)
       /\ ffmpeg_Run happyEnv t (t +:+ ".processing") = FfmpegOk
       /\ ffprobe_Run happyEnv (t +:+ ".processing") = inr stdout
       /\ json_Unmarshal happyEnv stdout = inr streams
       /\ rand_Read happyEnv 32 = inr randomBytes
       /\ "landscape/AAAAAAAAAAAAAAAAAAAAAAAAAAAAAAAAAAAAAAAAAAA.mp4"
          = classifyStreams (map decodeStream streams) +:+ "/"
            +:+ base64.EncodeToString randomBytes +:+ ".mp4".
Proof.
  apply (handlerUploadVideo_puts_probed_video exampleConfig happyEnv
           exampleRequest exampleWorld (s3Bucket exampleConfig)
           "landscape/AAAAAAAAAAAAAAAAAAAAAAAAAAAAAAAAAAAAAAAAAAA.mp4"
           "video/mp4" 1).
  vm_compute. tauto.
Defined.

(** ** Video ingest without the rewriter *)

Ltac run_direct :=
  unfold serve, DirectUpload.handlerUploadVideo;
  cbv [mbind mret Handler_bind Handler_ret orRespond checkErr respond emit defer
       liftIO];
  cbn [world deferred fst snd].

Ltac step_seek :=
  match goal with
  | |- context [file_Seek ?e ?x 0] => destruct (file_Seek e x 0) eqn:?
  end; simpl_run.

(** X23: the ingest that uploads the temporary file as it is keeps the
    cleanup promise on every path: once the upload is staged in the
    temporary file [t], that file is gone when the handler returns, with
    an answer of success or of failure, and every other file is as it
    was. *)
Theorem direct_upload_removes_staged_file
    (cfg : apiConfig) (env : Env) (r : Request) (w : World)
    (t : string) (file : FormPart) :
  stagedUpload cfg env r w = Some (t, file) ->
  let w' := snd (serve (DirectUpload.handlerUploadVideo cfg env r) w) in
  fs w' = fs w ∖ {[ t ]}.
Proof.
  unfold stagedUpload, failedPrecheck. intros H. cbv zeta. revert H.
  run_direct. repeat first [step_oracle | step_seek].
  all: intros H; try discriminate H.
  all: injection H as -> ->.
  all: simpl_run; simpl_fs; set_solver.
Qed.

Lemma direct_upload_removes_staged_file_witness :
  fs (snd (serve (DirectUpload.handlerUploadVideo exampleConfig happyEnv
                    exampleRequest) exampleWorld))
  = fs exampleWorld ∖ {[ "/tmp/tubely-upload-42.mp4" ]}.
Proof.
  apply (direct_upload_removes_staged_file exampleConfig happyEnv
           exampleRequest exampleWorld "/tmp/tubely-upload-42.mp4"
           {| ContentType := "video/mp4"; Content := "mp4-bytes" |}).
  reflexivity.
Defined.

(** X24: that ingest stores a URL, not a reference.  Its only answer with
    a record is 200; the record answered is the record stored, and its
    video reference is [https://<bucket>.s3.<region>.amazonaws.com/<name>.mp4].
    With a bucket and a region without comma this is not a reference
    that the resolver reads: resolving the stored record fails with the
    format error, whatever the object store would answer. *)
Theorem direct_upload_stores_url
    (cfg : apiConfig) (env : Env) (r : Request) (w : World)
    (code : Z) (payload : Video) :
  fst (serve (DirectUpload.handlerUploadVideo cfg env r) w)
  = respondWithJSON code payload ->
  let w' := snd (serve (DirectUpload.handlerUploadVideo cfg env r) w) in
  code = http.StatusOK
  /\ db w' !! ID payload = Some payload
  /\ exists randomBytes : list ascii,
       let url := "https://" +:+ s3Bucket cfg +:+ ".s3." +:+ s3Region cfg
                  +:+ ".amazonaws.com/"
                  +:+ base64.EncodeToString randomBytes +:+ ".mp4" in
       VideoURL payload = Some url
       /\ (strings.Count (s3Bucket cfg) ","%char = 0%nat ->
           strings.Count (s3Region cfg) ","%char = 0%nat ->
           forall (env' : Env) (w0 : World),
             dbVideoToSignedVideo env' payload w0
             = ((payload, Some (InvalidReferenceFormat url)), w0)).
Proof.
  cbv zeta. run_direct. repeat first [step_oracle | step_seek].
  all: intros H; try discriminate H.
  injection H as <- <-.
  split; [reflexivity|].
  split; [cbn [db extend set_db emitW os_Remove set_fs];
          apply lookup_insert_eq|].
  eexists. split; [reflexivity|].
  intros Hb Hr env' w0.
  apply dbVideoToSignedVideo_malformed; [reflexivity|discriminate|].
  rewrite !Count_app, Hb, Hr, EncodeToString_no_comma. cbn. discriminate.
Qed.

Lemma direct_upload_stores_url_witness :
  VideoURL
    (set_VideoURL
       (Some "https://tubely-bucket.s3.us-east-1.amazonaws.com/AAAAAAAAAAAAAAAAAAAAAAAAAAAAAAAAAAAAAAAAAAA.mp4")
       (set_UpdatedAt 20 (exampleVideo None)))
  = Some "https://tubely-bucket.s3.us-east-1.amazonaws.com/AAAAAAAAAAAAAAAAAAAAAAAAAAAAAAAAAAAAAAAAAAA.mp4"
  /\ db (snd (serve (DirectUpload.handlerUploadVideo exampleConfig happyEnv
                       exampleRequest) exampleWorld)) !! 7%N
     = Some (set_VideoURL
               (Some "https://tubely-bucket.s3.us-east-1.amazonaws.com/AAAAAAAAAAAAAAAAAAAAAAAAAAAAAAAAAAAAAAAAAAA.mp4")
               (set_UpdatedAt 20 (exampleVideo None))).
Proof.
  split; [reflexivity|].
  apply (direct_upload_stores_url exampleConfig happyEnv exampleRequest
           exampleWorld http.StatusOK
           (set_VideoURL
              (Some "https://tubely-bucket.s3.us-east-1.amazonaws.com/AAAAAAAAAAAAAAAAAAAAAAAAAAAAAAAAAAAAAAAAAAA.mp4")
              (set_UpdatedAt 20 (exampleVideo None)))).
  reflexivity.
Defined.

(** ** The classifier on rotated, scaled and negative dimensions *)

Lemma leb_mul_pos (k a b : Z) : 0 < k -> (k * a <=? k * b) = (a <=? b).
Proof.
  intros Hk. apply bool_eq_iff. rewrite !Z.leb_le.
  symmetry. apply Z.mul_le_mono_pos_l. exact Hk.
Qed.

(** X25: turning a landscape video by a quarter gives a portrait video:
    for dimensions below [2^45], when [width x height] is classified
    landscape then [height x width] is classified portrait.  (The converse
    fails: [1000 x 2000] is portrait and [2000 x 1000] is other.) *)
Theorem landscape_rotated_is_portrait (width height : Z) :
  0 < width < 2 ^ 45 -> 0 < height < 2 ^ 45 ->
  categorizeAspectRatio width height = "landscape" ->
  categorizeAspectRatio height width = "portrait".
Proof.
  intros Hw Hh.
  rewrite (categorizeAspectRatio_bounded width height Hw Hh),
    (categorizeAspectRatio_bounded height width Hh Hw).
  destruct (Z.leb_spec (151 * height) (90 * width));
    destruct (Z.leb_spec (90 * width) (169 * height));
    cbn [andb]; intros E;
    try (exfalso; revert E;
         repeat match goal with
                | |- context [if ?c then _ else _] => destruct c
                end; discriminate).
  destruct (Z.leb_spec (151 * width) (90 * height)); [lia|].
  cbn [andb].
  destruct (Z.leb_spec (37 * width) (80 * height)); [|lia].
  destruct (Z.leb_spec (80 * height) (53 * width)); [|lia].
  reflexivity.
Qed.

Lemma landscape_rotated_is_portrait_witness :
  categorizeAspectRatio 1080 1920 = "portrait"
  /\ categorizeAspectRatio 1000 2000 = "portrait"
  /\ categorizeAspectRatio 2000 1000 = "other".
Proof.
  split; [|split; vm_compute; reflexivity].
  apply (landscape_rotated_is_portrait 1920 1080).
  - lia.
  - lia.
  - vm_compute. reflexivity.
Defined.

(** X26: the classification depends on the shape and not on the size: for
    dimensions below [2^45], scaling width and height by the same factor
    does not change the class. *)
Theorem categorizeAspectRatio_scale_invariant (k width height : Z) :
  0 < k -> 0 < width -> 0 < height ->
  k * width < 2 ^ 45 -> k * height < 2 ^ 45 ->
  categorizeAspectRatio (k * width) (k * height)
  = categorizeAspectRatio width height.
Proof.
  intros Hk Hw Hh Hkw Hkh.
  assert (width <= k * width)
    by (pose proof (Z.mul_le_mono_nonneg_r 1 k width); lia).
  assert (height <= k * height)
    by (pose proof (Z.mul_le_mono_nonneg_r 1 k height); lia).
  assert (0 < k * width) by (apply Z.mul_pos_pos; assumption).
  assert (0 < k * height) by (apply Z.mul_pos_pos; assumption).
  rewrite (categorizeAspectRatio_bounded (k * width) (k * height)) by lia.
  rewrite (categorizeAspectRatio_bounded width height) by lia.
  replace (151 * (k * height)) with (k * (151 * height)) by lia.
  replace (90 * (k * width)) with (k * (90 * width)) by lia.
  replace (169 * (k * height)) with (k * (169 * height)) by lia.
  replace (37 * (k * height)) with (k * (37 * height)) by lia.
  replace (80 * (k * width)) with (k * (80 * width)) by lia.
  replace (53 * (k * height)) with (k * (53 * height)) by lia.
  rewrite !(leb_mul_pos k) by exact Hk.
  reflexivity.
Qed.

Lemma categorizeAspectRatio_scale_invariant_witness :
  categorizeAspectRatio (3 * 1280) (3 * 720) = categorizeAspectRatio 1280 720.
Proof.
  apply (categorizeAspectRatio_scale_invariant 3 1280 720); lia.
Defined.

Lemma binary_round_aux_signed (s : bool) (mx ex : Z) (lx : location) :
  signed s (binary_round_aux prec emax s mx ex lx).
Proof.
  rewrite binary_round_aux_unfold.
  destruct (shr_fexp prec emax mx ex lx) as [mrs' e'].
  destruct (shr_fexp prec emax _ e' loc_Exact) as [mrs'' e''].
  destruct (shr_m mrs''); [reflexivity | | exact I].
  destruct (e'' <=? emax - prec); reflexivity.
Qed.

Lemma binary_normalize_signed (m : Z) :
  0 <= m -> signed false (binary_normalize prec emax m 0 false).
Proof.
  intros Hm. destruct m as [|p|p]; [reflexivity | | lia].
  unfold binary_normalize, binary_round.
  destruct (shl_align p 0 (fexp prec emax (Z.pos (digits2_pos p) + 0)))
    as [mz ez].
  apply binary_round_aux_signed.
Qed.

Lemma SFopp_signed (s : bool) (x : spec_float) :
  signed s x -> signed (negb s) (SFopp x).
Proof. destruct x; cbn; intros H; subst; auto. Qed.

Lemma SFdiv_signed (sx sy : bool) (x y : spec_float) :
  signed sx x -> signed sy y -> signed (xorb sx sy) (SFdiv prec emax x y).
Proof.
  destruct x as [s1|s1| |s1 m1 e1], y as [s2|s2| |s2 m2 e2];
    cbn [signed SFdiv]; intros H1 H2; subst; try reflexivity; try exact I.
  destruct (SFdiv_core_binary prec emax (Z.pos m1) e1 (Z.pos m2) e2)
    as [[mz ez] lz].
  apply binary_round_aux_signed.
Qed.

(** The conversion gives a number with the sign of the integer. *)
Lemma float64_signed (n : Z) :
  signed (n <? 0) (Prim2SF (float64 n)).
Proof.
  unfold float64.
  destruct (Z.eqb_spec n (-9223372036854775808)) as [->|_];
    [vm_compute; reflexivity|].
  destruct (Z.ltb_spec n 0) as [L|G].
  - rewrite FloatAxioms.opp_spec, FloatAxioms.of_uint63_spec.
    apply (SFopp_signed false). apply binary_normalize_signed.
    rewrite Uint63.of_Z_spec. apply Z.mod_pos_bound. reflexivity.
  - rewrite FloatAxioms.of_uint63_spec. apply binary_normalize_signed.
    rewrite Uint63.of_Z_spec. apply Z.mod_pos_bound. reflexivity.
Qed.

(** A negative number, a negative zero or a NaN is not above a positive
    bound. *)
Lemma SFleb_positive_negative (m : positive) (e : Z) (x : spec_float) :
  signed true x -> SFleb (S754_finite false m e) x = false.
Proof. destruct x; cbn; intros H; subst; reflexivity. Qed.

(** X27: dimensions of opposite signs are classified other.  The checks
    before the classifier rule out zero, not negative numbers; with one
    negative and one non-negative dimension the quotient is negative (or a
    negative zero, or not a number), which is below both intervals. *)
Theorem categorizeAspectRatio_opposite_signs (width height : Z) :
  (width < 0 /\ 0 <= height) \/ (0 <= width /\ height < 0) ->
  categorizeAspectRatio width height = "other".
Proof.
  intros Hs.
  assert (S : signed true (Prim2SF (float64 width / float64 height))).
  { rewrite FloatAxioms.div_spec.
    pose proof (float64_signed width) as Sw.
    pose proof (float64_signed height) as Sh.
    destruct Hs as [[Hw Hh]|[Hw Hh]].
    - apply Z.ltb_lt in Hw. apply Z.ltb_ge in Hh. rewrite Hw in Sw.
      rewrite Hh in Sh. apply (SFdiv_signed true false); assumption.
    - apply Z.ltb_ge in Hw. apply Z.ltb_lt in Hh. rewrite Hw in Sw.
      rewrite Hh in Sh. apply (SFdiv_signed false true); assumption. }
  destruct classifier_constants as (C1 & _ & C3 & _).
  unfold categorizeAspectRatio. cbv zeta.
  rewrite !FloatAxioms.leb_spec, C1, C3.
  rewrite !(SFleb_positive_negative _ _ _ S). reflexivity.
Qed.

Lemma categorizeAspectRatio_opposite_signs_witness :
  categorizeAspectRatio (-1920) 1080 = "other".
Proof.
  apply (categorizeAspectRatio_opposite_signs (-1920) 1080).
  left. lia.
Defined.

Lemma SFdiv_opp_opp (x y : spec_float) :
  SFdiv prec emax (SFopp x) (SFopp y) = SFdiv prec emax x y.
Proof.
  destruct x as [s1|s1| |s1 m1 e1], y as [s2|s2| |s2 m2 e2];
    cbn [SFopp SFdiv]; rewrite ?xorb_negb_negb; reflexivity.
Qed.

Lemma float64_opp (n : Z) :
  0 < n < 2 ^ 63 -> float64 (- n) = (- float64 n)%float.
Proof.
  intros Hn. unfold float64.
  assert (P : 2 ^ 63 = 9223372036854775808) by reflexivity.
  destruct (Z.eqb_spec (- n) (-9223372036854775808)); [lia|].
  destruct (Z.eqb_spec n (-9223372036854775808)); [lia|].
  destruct (Z.ltb_spec (- n) 0); [|lia].
  destruct (Z.ltb_spec n 0); [lia|].
  rewrite Z.opp_involutive. reflexivity.
Qed.

(** X28: two negative dimensions are classified as their absolute values
    are: the two signs cancel in the quotient. *)
Theorem categorizeAspectRatio_both_negative (width height : Z) :
  0 < width < 2 ^ 63 -> 0 < height < 2 ^ 63 ->
  categorizeAspectRatio (- width) (- height)
  = categorizeAspectRatio width height.
Proof.
  intros Hw Hh. unfold categorizeAspectRatio. cbv zeta.
  rewrite (float64_opp width Hw), (float64_opp height Hh).
  rewrite !FloatAxioms.leb_spec, !FloatAxioms.div_spec, !FloatAxioms.opp_spec.
  rewrite SFdiv_opp_opp. reflexivity.
Qed.

Lemma categorizeAspectRatio_both_negative_witness :
  categorizeAspectRatio (- 1920) (- 1080) = categorizeAspectRatio 1920 1080.
Proof.
  apply (categorizeAspectRatio_both_negative 1920 1080); lia.
Defined.

(** ** Names made of random bytes *)

Lemma encodeChar_land (v : N) :
  base64.encodeChar (N.land v 63) = base64.encodeChar v.
Proof.
  unfold base64.encodeChar. rewrite <- N.land_assoc, N.land_diag. reflexivity.
Qed.

(** The alphabet has no letter twice. *)
Lemma encodeChar_inj (x y : N) :
  base64.encodeChar x = base64.encodeChar y -> N.land x 63 = N.land y 63.
Proof.
  assert (B : forall v, (N.land v 63 < 64)%N).
  { intros v. change 63%N with (N.ones 6). rewrite N.land_ones.
    apply N.mod_lt. discriminate. }
  rewrite <- (encodeChar_land x), <- (encodeChar_land y).
  generalize (B x), (B y). generalize (N.land x 63), (N.land y 63).
  intros a b Ha Hb E.
  pose proof (forall_below_64
                (fun a => forallb
                            (fun b => implb (Ascii.eqb (base64.encodeChar a)
                                               (base64.encodeChar b))
                                        (N.eqb a b))
                            (map N.of_nat (seq 0 64)))
                ltac:(vm_compute; reflexivity) a Ha) as P.
  cbv beta in P.
  pose proof (forall_below_64 _ P b Hb) as Q. cbv beta in Q.
  rewrite E, Ascii.eqb_refl in Q. now apply N.eqb_eq in Q.
Qed.

(** Bits put below a shifted number are added to it. *)
Lemma lor_shiftl_low (x c k : N) :
  (c < 2 ^ k)%N -> N.lor (N.shiftl x k) c = (x * 2 ^ k + c)%N.
Proof.
  intros Hc.
  assert (L : N.land (N.shiftl x k) c = 0%N).
  { apply N.bits_inj. intros n. rewrite N.land_spec, N.bits_0.
    destruct (N.lt_ge_cases n k) as [Hn|Hn].
    - rewrite N.shiftl_spec_low by exact Hn. reflexivity.
    - rewrite <- (N.mod_small c (2 ^ k)) by exact Hc.
      rewrite N.mod_pow2_bits_high by exact Hn. apply andb_false_r. }
  rewrite <- N.lxor_lor by exact L.
  rewrite <- N.add_nocarry_lxor by exact L.
  rewrite N.shiftl_mul_pow2. reflexivity.
Qed.

(** The 24-bit group of three bytes, of two bytes and of one byte. *)
Lemma group3 (a b c : ascii) :
  N.lor (N.lor (N.shiftl (N_of_ascii a) 16) (N.shiftl (N_of_ascii b) 8))
    (N_of_ascii c)
  = (N_of_ascii a * 65536 + N_of_ascii b * 256 + N_of_ascii c)%N.
Proof.
  pose proof (N_ascii_bounded a). pose proof (N_ascii_bounded b).
  pose proof (N_ascii_bounded c).
  rewrite (lor_shiftl_low (N_of_ascii a) (N.shiftl (N_of_ascii b) 8) 16)
    by (rewrite N.shiftl_mul_pow2; change (2 ^ 8)%N with 256%N;
        change (2 ^ 16)%N with 65536%N; lia).
  rewrite N.shiftl_mul_pow2.
  change (2 ^ 8)%N with 256%N. change (2 ^ 16)%N with 65536%N.
  replace (N_of_ascii a * 65536 + N_of_ascii b * 256)%N
    with (N.shiftl (N_of_ascii a * 256 + N_of_ascii b) 8)
    by (rewrite N.shiftl_mul_pow2; change (2 ^ 8)%N with 256%N; lia).
  rewrite lor_shiftl_low by (change (2 ^ 8)%N with 256%N; lia).
  rewrite N.shiftl_mul_pow2. reflexivity.
Qed.

Lemma group2 (a b : ascii) :
  N.lor (N.shiftl (N_of_ascii a) 16) (N.shiftl (N_of_ascii b) 8)
  = (N_of_ascii a * 65536 + N_of_ascii b * 256)%N.
Proof.
  pose proof (N_ascii_bounded b).
  rewrite lor_shiftl_low
    by (rewrite N.shiftl_mul_pow2; change (2 ^ 8)%N with 256%N;
        change (2 ^ 16)%N with 65536%N; lia).
  rewrite N.shiftl_mul_pow2. reflexivity.
Qed.

Lemma N_of_ascii_inj (a b : ascii) : N_of_ascii a = N_of_ascii b -> a = b.
Proof.
  intros E. rewrite <- (ascii_N_embedding a), <- (ascii_N_embedding b).
  now rewrite E.
Qed.

(** A 24-bit group is made of its four six-bit groups. *)
Lemma sextet_split (v : N) :
  (v < 16777216)%N ->
  v = ((v / 262144) mod 64 * 262144 + (v / 4096) mod 64 * 4096
       + (v / 64) mod 64 * 64 + v mod 64)%N.
Proof. intros Hv. zify. Z.to_euclidean_division_equations. lia. Qed.

Lemma sextets_eq (v v' : N) :
  (v < 16777216)%N -> (v' < 16777216)%N ->
  ((v / 262144) mod 64 = (v' / 262144) mod 64)%N ->
  ((v / 4096) mod 64 = (v' / 4096) mod 64)%N ->
  ((v / 64) mod 64 = (v' / 64) mod 64)%N ->
  (v mod 64 = v' mod 64)%N ->
  v = v'.
Proof.
  intros Hv Hv' E1 E2 E3 E4.
  rewrite (sextet_split v Hv), (sextet_split v' Hv'), E1, E2, E3, E4.
  reflexivity.
Qed.

Lemma low_sextets_1 (x : N) :
  ((x * 65536 / 64) mod 64 = 0 /\ (x * 65536) mod 64 = 0)%N.
Proof. split; zify; Z.to_euclidean_division_equations; lia. Qed.

Lemma low_sextet_2 (x y : N) : ((x * 65536 + y * 256) mod 64 = 0)%N.
Proof. zify. Z.to_euclidean_division_equations. lia. Qed.

(** From equal letters to equal six-bit groups, as numbers. *)
Ltac sextets :=
  repeat match goal with
         | H : base64.encodeChar _ = base64.encodeChar _ |- _ =>
             apply encodeChar_inj in H;
             change 63%N with (N.ones 6) in H;
             rewrite !N.land_ones, ?N.shiftr_div_pow2 in H
         end;
  change (2 ^ 18)%N with 262144%N in *;
  change (2 ^ 12)%N with 4096%N in *; change (2 ^ 6)%N with 64%N in *.

Lemma EncodeToString_inj (a b : list ascii) :
  base64.EncodeToString a = base64.EncodeToString b -> a = b.
Proof.
  remember (length a) as n eqn:Hn.
  revert a b Hn. induction n as [n IH] using lt_wf_ind. intros a b Hn.
  destruct a as [|a1 [|a2 [|a3 a']]], b as [|b1 [|b2 [|b3 b']]];
    cbn [base64.EncodeToString]; cbv zeta; intros E;
    try discriminate E; try reflexivity.
  - injection E as E1 E2.
    rewrite !N.shiftl_mul_pow2 in E1, E2.
    change (2 ^ 16)%N with 65536%N in *. sextets.
    pose proof (N_ascii_bounded a1). pose proof (N_ascii_bounded b1).
    destruct (low_sextets_1 (N_of_ascii a1)) as [A3 A4].
    destruct (low_sextets_1 (N_of_ascii b1)) as [B3 B4].
    assert (V : (N_of_ascii a1 * 65536 = N_of_ascii b1 * 65536)%N)
      by (apply sextets_eq; [lia | lia | assumption | assumption
                            | congruence | congruence]).
    f_equal. apply N_of_ascii_inj. lia.
  - injection E as E1 E2 E3.
    rewrite !group2 in E1, E2, E3. sextets.
    pose proof (N_ascii_bounded a1). pose proof (N_ascii_bounded b1).
    pose proof (N_ascii_bounded a2). pose proof (N_ascii_bounded b2).
    pose proof (low_sextet_2 (N_of_ascii a1) (N_of_ascii a2)) as A4.
    pose proof (low_sextet_2 (N_of_ascii b1) (N_of_ascii b2)) as B4.
    assert (V : (N_of_ascii a1 * 65536 + N_of_ascii a2 * 256
                 = N_of_ascii b1 * 65536 + N_of_ascii b2 * 256)%N)
      by (apply sextets_eq; [lia | lia | assumption | assumption
                            | assumption | congruence]).
    assert (N_of_ascii a1 = N_of_ascii b1 /\ N_of_ascii a2 = N_of_ascii b2)
      as [A1 A2] by lia.
    apply N_of_ascii_inj in A1, A2. now subst.
  - injection E as E1 E2 E3 E4 E5.
    rewrite !group3 in E1, E2, E3, E4. sextets.
    pose proof (N_ascii_bounded a1). pose proof (N_ascii_bounded b1).
    pose proof (N_ascii_bounded a2). pose proof (N_ascii_bounded b2).
    pose proof (N_ascii_bounded a3). pose proof (N_ascii_bounded b3).
    assert (V : (N_of_ascii a1 * 65536 + N_of_ascii a2 * 256 + N_of_ascii a3
                 = N_of_ascii b1 * 65536 + N_of_ascii b2 * 256
                   + N_of_ascii b3)%N)
      by (apply sextets_eq; [lia | lia | assumption | assumption
                            | assumption | assumption]).
    assert (N_of_ascii a1 = N_of_ascii b1 /\ N_of_ascii a2 = N_of_ascii b2
            /\ N_of_ascii a3 = N_of_ascii b3)
      as (A1 & A2 & A3) by lia.
    apply N_of_ascii_inj in A1, A2, A3. subst.
    f_equal. f_equal. f_equal.
    apply (IH (length a')); [simpl; lia | reflexivity | exact E5].
Qed.

Lemma append_inj_r (p a b : string) : p +:+ a = p +:+ b -> a = b.
Proof.
  induction p as [|c p IH]; cbn; intros E; [exact E|].
  injection E as E. now apply IH.
Qed.

Lemma append_inj_l (a b s : string) : a +:+ s = b +:+ s -> a = b.
Proof.
  revert b. induction a as [|c a IH]; intros [|d b] E.
  - reflexivity.
  - exfalso. apply (f_equal String.length) in E.
    rewrite !append_length in E. cbn [String.length] in E. lia.
  - exfalso. apply (f_equal String.length) in E.
    rewrite !append_length in E. cbn [String.length] in E. lia.
  - change (String c (a +:+ s) = String d (b +:+ s)) in E.
    injection E as -> E. f_equal. now apply IH.
Qed.

(** X29: different random bytes give different names.  The encoding of
    the random bytes loses nothing: two byte strings that differ, in
    length or in a byte, have different encodings, hence different
    thumbnail file names [name.ext] and different object keys
    [class/name.mp4]. *)
Theorem random_names_are_distinct (a b : list ascii) :
  a <> b ->
  base64.EncodeToString a <> base64.EncodeToString b
  /\ (forall ext : string,
        base64.EncodeToString a +:+ ext <> base64.EncodeToString b +:+ ext)
  /\ (forall class : string,
        class +:+ "/" +:+ base64.EncodeToString a +:+ ".mp4"
        <> class +:+ "/" +:+ base64.EncodeToString b +:+ ".mp4").
Proof.
  intros Hab. split; [|split].
  - intros E. apply Hab. now apply EncodeToString_inj.
  - intros ext E. apply Hab. apply EncodeToString_inj.
    now apply append_inj_l in E.
  - intros class E. apply Hab. apply EncodeToString_inj.
    apply append_inj_r in E. apply append_inj_r in E.
    now apply append_inj_l in E.
Qed.

Lemma random_names_are_distinct_witness :
  base64.EncodeToString (repeat "000"%char 32)
  <> base64.EncodeToString (repeat "000"%char 31 ++ ["001"%char]).
Proof.
  apply (random_names_are_distinct (repeat "000"%char 32)
           (repeat "000"%char 31 ++ ["001"%char])).
  discriminate.
Defined.

(** ** The rewriter *)

(** X30: the rewriter never works in place.  Its output path is the
    input path with [.processing] appended, which is never the input
    path; the input file is on disk afterwards exactly when it was
    before, and no file is removed.  When the process succeeds the output
    file exists and its path is returned; when it fails no path is
    returned and the error wraps the cause. *)
Theorem processVideoForFastStart_keeps_input
    (env : Env) (inputPath : string) (w : World) :
  let res := fst (processVideoForFastStart env inputPath w) in
  let w' := snd (processVideoForFastStart env inputPath w) in
  let outputPath := inputPath +:+ ".processing" in
  outputPath <> inputPath
  /\ (inputPath ∈ fs w' <-> inputPath ∈ fs w)
  /\ fs w ⊆ fs w' /\ fs w' ⊆ fs w ∪ {[ outputPath ]}
  /\ db w' = db w
  /\ newEvents w w' = [EvFfmpeg inputPath outputPath]
  /\ match ffmpeg_Run env inputPath outputPath with
     | FfmpegOk => res = inr outputPath /\ outputPath ∈ fs w'
     | FfmpegFailed err _ =>
         res = inl (Wrap "ffmpeg faststart failed: " err)
     end.
Proof.
  cbv zeta.
  assert (Hne : inputPath +:+ ".processing" <> inputPath)
    by (now apply append_suffix_neq).
  split; [exact Hne|].
  unfold processVideoForFastStart.
  destruct (ffmpeg_Run env inputPath (inputPath +:+ ".processing"))
    as [|err [|]]; cbn [fst snd]; rewrite ?newEvents_set_fs;
    rewrite emitW_extend, newEvents_extend; simpl_fs.
  all: repeat split; try reflexivity; set_solver.
Qed.
